(** * SEO Analyzer: scoring, site analysis, e-mail filtering, competitor
      discovery, credential rotation and outreach fallback.

    A shallow embedding of the Python modules [utils], [config], [analyzer],
    [ai_module] and [app].  Python dictionaries with a fixed set of keys are
    records, a dictionary that may still be empty is an [option] of the
    record, [None] is [None], Python integers are [Z], strings are Stdlib
    strings of 8-bit characters, and a function that may raise returns in the
    exception monad [Exc].  What the third-party libraries compute
    (requests, BeautifulSoup, json, tldextract, urllib, googlesearch, the
    generative model) is an input of the model. *)

From Stdlib Require Import ZArith List String Ascii Bool Lia Arith.
From Stdlib Require Import QArith_base DecimalString Permutation Lqa.
Import ListNotations.

Local Open Scope string_scope.
Local Open Scope list_scope.
Local Open Scope Z_scope.

(* ------------------------------------------------------------------ *)
(** ** Python values, strings and exceptions *)
(* ------------------------------------------------------------------ *)

Module Py.

(** The exception classes the program distinguishes.  [ConnectTimeout]
    derives from both [ConnectionError] and [Timeout] in requests. *)
Inductive exc_class :=
| Timeout | ConnectTimeout | ReadTimeout
| ConnectionError | SSLError | ProxyError
| NameError | KeyError | ValueError | AttributeError | TypeError
| JSONDecodeError
| OtherError (name : string).

Record exn := mk_exn { exn_class : exc_class; exn_msg : string }.

Definition isinstance_Timeout (e : exn) : bool :=
  match exn_class e with
  | Timeout | ConnectTimeout | ReadTimeout => true
  | _ => false
  end.

Definition isinstance_ConnectionError (e : exn) : bool :=
  match exn_class e with
  | ConnectionError | SSLError | ProxyError | ConnectTimeout => true
  | _ => false
  end.

Definition isinstance_JSONDecodeError (e : exn) : bool :=
  match exn_class e with
  | JSONDecodeError => true
  | _ => false
  end.

(** A computation that returns a value or raises. *)
Inductive Exc (A : Type) : Type :=
| Return (a : A)
| Raise (e : exn).
Arguments Return {A} a.
Arguments Raise {A} e.

Definition bind {A B} (m : Exc A) (k : A -> Exc B) : Exc B :=
  match m with
  | Return a => k a
  | Raise e => Raise e
  end.

(** [try: m  except Exception as e: h e] *)
Definition try_except {A} (m : Exc A) (h : exn -> Exc A) : Exc A :=
  match m with
  | Return a => Return a
  | Raise e => h e
  end.

Definition returns {A} (m : Exc A) : Prop := exists a, m = Return a.

(** *** Strings *)

Definition is_digit (c : ascii) : bool :=
  let n := nat_of_ascii c in (48 <=? n)%nat && (n <=? 57)%nat.

Definition is_upper (c : ascii) : bool :=
  let n := nat_of_ascii c in (65 <=? n)%nat && (n <=? 90)%nat.

Definition is_space (c : ascii) : bool :=
  let n := nat_of_ascii c in
  ((9 <=? n)%nat && (n <=? 13)%nat) || (n =? 32)%nat
  || ((28 <=? n)%nat && (n <=? 31)%nat).

Definition lower_char (c : ascii) : ascii :=
  if is_upper c then ascii_of_nat (nat_of_ascii c + 32) else c.

(** [s.lower()] *)
Fixpoint lower (s : string) : string :=
  match s with
  | EmptyString => EmptyString
  | String c t => String (lower_char c) (lower t)
  end.

(** [len(s)] *)
Definition len (s : string) : Z := Z.of_nat (String.length s).

(** [needle in hay] *)
Fixpoint contains (needle hay : string) : bool :=
  String.prefix needle hay ||
  match hay with
  | EmptyString => false
  | String _ t => contains needle t
  end.

(** [s.startswith(p)] *)
Definition startswith (s p : string) : bool := String.prefix p s.

(** [s.split(sep)] for a one-character separator: never the empty list. *)
Fixpoint split (sep : ascii) (s : string) : list string :=
  match s with
  | EmptyString => [EmptyString]
  | String c t =>
      if Ascii.eqb c sep then EmptyString :: split sep t
      else match split sep t with
           | [] => [String c EmptyString]
           | h :: r => String c h :: r
           end
  end.

(** [s.replace(c, '')] for a one-character [c]. *)
Fixpoint remove_char (c : ascii) (s : string) : string :=
  match s with
  | EmptyString => EmptyString
  | String d t => if Ascii.eqb d c then remove_char c t
                  else String d (remove_char c t)
  end.

Fixpoint all_chars (p : ascii -> bool) (s : string) : bool :=
  match s with
  | EmptyString => true
  | String c t => p c && all_chars p t
  end.

(** [s.isdigit()]: false on the empty string. *)
Definition isdigit (s : string) : bool :=
  match s with
  | EmptyString => false
  | _ => all_chars is_digit s
  end.

(** [sum(p(c) for c in s)] *)
Fixpoint count_chars (p : ascii -> bool) (s : string) : Z :=
  match s with
  | EmptyString => 0
  | String c t => (if p c then 1 else 0) + count_chars p t
  end.

Fixpoint lstrip (s : string) : string :=
  match s with
  | String c t => if is_space c then lstrip t else s
  | EmptyString => EmptyString
  end.

Fixpoint rstrip (s : string) : string :=
  match s with
  | EmptyString => EmptyString
  | String c t =>
      match rstrip t with
      | EmptyString => if is_space c then EmptyString else String c EmptyString
      | r => String c r
      end
  end.

(** [s.strip()] *)
Definition strip (s : string) : string := rstrip (lstrip s).

(** [sep.join(l)] *)
Fixpoint join (sep : string) (l : list string) : string :=
  match l with
  | [] => EmptyString
  | [x] => x
  | x :: r => (x ++ sep ++ join sep r)%string
  end.

(** [str(n)] for an integer *)
Definition str (n : Z) : string := NilZero.string_of_int (Z.to_int n).

(** Truth value of [None], a string, a list. *)
Definition truthy (o : option string) : bool :=
  match o with
  | Some (String _ _) => true
  | _ => false
  end.

Definition truthy_bool (o : option bool) : bool :=
  match o with
  | Some b => b
  | None => false
  end.

Definition nonempty {A} (l : list A) : bool :=
  match l with
  | [] => false
  | _ => true
  end.

(** [d.get(k, default)] on a dictionary kept as an association list *)
Fixpoint dict_get {V} (d : list (string * V)) (k : string) (default : V) : V :=
  match d with
  | [] => default
  | (k', v) :: r => if String.eqb k' k then v else dict_get r k default
  end.

(** [l[:n]] for [n >= 0] *)
Definition take {A} (n : nat) (l : list A) : list A := firstn n l.

(** [x in l] for a list of strings *)
Definition mem (x : string) (l : list string) : bool :=
  existsb (String.eqb x) l.

(** [d[k] = v] on a dictionary kept in insertion order: an existing key
    keeps its place and takes the new value. *)
Fixpoint dict_set {V} (d : list (string * V)) (k : string) (v : V)
  : list (string * V) :=
  match d with
  | [] => [(k, v)]
  | (k', v') :: r =>
      if String.eqb k' k then (k', v) :: r else (k', v') :: dict_set r k v
  end.

(** *** Numbers: a float is the rational it denotes *)

(** Round to the nearest integer, ties to even. *)
Definition round_half_even (q : Q) : Z :=
  let n := Qnum q in
  let d := Zpos (Qden q) in
  let f := n / d in
  let r2 := 2 * (n - f * d) in
  if r2 <? d then f
  else if d <? r2 then f + 1
  else if Z.even f then f else f + 1.

Definition zero_pad (width : nat) (s : string) : string :=
  match (width - String.length s)%nat with
  | O => s
  | S k => String.append (String.concat "" (repeat "0" (S k))) s
  end.

(** [f"{q:.{k}f}"] *)
Definition format_fixed (k : nat) (q : Q) : string :=
  let scale := Z.pow 10 (Z.of_nat k) in
  let r := round_half_even (Qmake (Z.abs (Qnum q) * scale) (Qden q)) in
  let sign := if Qnum q <? 0 then "-" else "" in
  let whole := str (r / scale) in
  match k with
  | O => (sign ++ whole)%string
  | _ => (sign ++ whole ++ "." ++ zero_pad k (str (r mod scale)))%string
  end.

(** *** json: the values [json.loads] yields *)

#[local] Set Warnings "-register-all".
Inductive json :=
| JNull
| JBool (b : bool)
| JNum (n : Z)
| JStr (s : string)
| JArr (l : list json)
| JObj (d : list (string * json)).

(** *** re: the patterns the program uses *)

Inductive regex :=
| Empty                       (* matches nothing *)
| Eps                         (* the empty string *)
| Cls (p : ascii -> bool)     (* one character of a class *)
| Cat (r1 r2 : regex)
| Alt (r1 r2 : regex)
| Star (r : regex).

Definition Chr (c : ascii) : regex := Cls (Ascii.eqb c).

(** A literal string. *)
Fixpoint Lit (s : string) : regex :=
  match s with
  | EmptyString => Eps
  | String c t => Cat (Chr c) (Lit t)
  end.

(** [r{n}], [r{n,}] and [r+] *)
Fixpoint Rep (n : nat) (r : regex) : regex :=
  match n with
  | O => Eps
  | S k => Cat r (Rep k r)
  end.
Definition AtLeast (n : nat) (r : regex) : regex := Cat (Rep n r) (Star r).
Definition Plus (r : regex) : regex := AtLeast 1 r.

Fixpoint nullable (r : regex) : bool :=
  match r with
  | Empty => false
  | Eps => true
  | Cls _ => false
  | Cat r1 r2 => nullable r1 && nullable r2
  | Alt r1 r2 => nullable r1 || nullable r2
  | Star _ => true
  end.

Definition cat (r1 r2 : regex) : regex :=
  match r1 with
  | Empty => Empty
  | Eps => r2
  | _ => Cat r1 r2
  end.

Definition alt (r1 r2 : regex) : regex :=
  match r1, r2 with
  | Empty, _ => r2
  | _, Empty => r1
  | _, _ => Alt r1 r2
  end.

(** The residual of [r] after reading [c]. *)
Fixpoint deriv (c : ascii) (r : regex) : regex :=
  match r with
  | Empty | Eps => Empty
  | Cls p => if p c then Eps else Empty
  | Cat r1 r2 =>
      alt (cat (deriv c r1) r2) (if nullable r1 then deriv c r2 else Empty)
  | Alt r1 r2 => alt (deriv c r1) (deriv c r2)
  | Star r1 => cat (deriv c r1) (Star r1)
  end.

(** [re.match(r, s)] as a truth value: some prefix of [s] matches [r].
    A leading [^] is implied by [re.match]. *)
Fixpoint re_match (r : regex) (s : string) : bool :=
  nullable r ||
  match s with
  | EmptyString => false
  | String c t => re_match (deriv c r) t
  end.

Definition newline : string := String (ascii_of_nat 10) EmptyString.

(** [re.match(r + '$', s)]: the match must end at the end of [s] or just
    before a final newline. *)
Fixpoint re_match_dollar (r : regex) (s : string) : bool :=
  (nullable r && (String.eqb s EmptyString || String.eqb s newline)) ||
  match s with
  | EmptyString => false
  | String c t => re_match_dollar (deriv c r) t
  end.

(** The character classes [[0-9]] and [[a-f0-9]] *)
Definition is_lower_hex (c : ascii) : bool :=
  let n := nat_of_ascii c in
  is_digit c || ((97 <=? n)%nat && (n <=? 102)%nat).

End Py.

Import Py.

Declare Scope exc_scope.
Delimit Scope exc_scope with exc.
Notation "x <- m ;; k" := (bind m (fun x => k))
  (at level 61, m at next level, right associativity) : exc_scope.
Local Open Scope exc_scope.

(* ------------------------------------------------------------------ *)
(** ** config.py *)
(* ------------------------------------------------------------------ *)

Module Config.

Definition BLACKLIST_DOMAINS : list string :=
  [ "sentry"; "wixpress"; "example"; "test"; "schema.org";
    "w3.org"; "googleapis"; "gstatic"; "google-analytics";
    "facebook.com"; "twitter.com"; "schema.org"; "json-ld";
    "wordpress.com"; "wp.com"; "cloudflare"; "jquery";
    "bootstrap"; "fontawesome"; "googleapis.com"; "github.com";
    "gravatar.com"; "wp.org"; "wordpress.org" ].

Definition hex : regex := Cls is_lower_hex.
Definition digit : regex := Cls is_digit.
Definition at_sign : regex := Chr "@"%char.

Definition BLACKLIST_EMAIL_PATTERNS : list regex :=
  [ Cat (AtLeast 20 hex) at_sign;            (* ^[0-9a-f]{20,}@ *)
    Lit "noreply@"; Lit "no-reply@"; Lit "donotreply@";
    Cat (Lit "id") (Cat (Plus digit) at_sign); (* ^id[0-9]+@ *)
    Cat (Plus digit) at_sign;                (* ^[0-9]+@ *)
    Cat (Rep 32 hex) at_sign;                (* ^[a-f0-9]{32}@ *)
    Cat (Rep 40 hex) at_sign;                (* ^[a-f0-9]{40}@ *)
    Cat (Rep 64 hex) at_sign ].              (* ^[a-f0-9]{64}@ *)

Definition BUSINESS_EMAIL_KEYWORDS : list string :=
  [ "contact"; "info"; "sales"; "support"; "hello"; "admin";
    "office"; "help"; "inquiry"; "service"; "team"; "business";
    "enquiry"; "customer"; "marketing" ].

End Config.

(* ------------------------------------------------------------------ *)
(** ** utils.py *)
(* ------------------------------------------------------------------ *)

Module Utils.

(** What [urllib.parse.urlparse] yields; it raises [ValueError] on some
    malformed inputs. *)
Record ParseResult := { scheme : string; netloc : string }.

Section WithUrlparse.

Variable urlparse : string -> Exc ParseResult.

(** [ensure_url_protocol(url)] *)
Definition ensure_url_protocol (url : string) : string :=
  let url := strip url in
  if nonempty (list_ascii_of_string url)
     && negb (startswith url "http://" || startswith url "https://")
  then ("https://" ++ url)%string
  else url.

(** [is_valid_url(url)]: [all([result.scheme, result.netloc])], [False]
    when [urlparse] raises. *)
Definition is_valid_url (url : string) : bool :=
  match urlparse url with
  | Return result =>
      negb (String.eqb (scheme result) "") && negb (String.eqb (netloc result) "")
  | Raise _ => false
  end.

End WithUrlparse.

(** [email.split('@')[i]]; the index exists where the code uses it. *)
Definition part (i : nat) (email : string) : string :=
  nth i (split "@"%char email) EmptyString.

Definition domain_of (email : string) : string := lower (part 1 email).
Definition local_part_of (email : string) : string := lower (part 0 email).

(** ['@' in email and '.' in email.split('@')[1]] *)
Definition looks_like_email (email : string) : bool :=
  contains "@" email && contains "." (part 1 email).

(** [local_part.replace('.', '').replace('_', '').replace('-', '').isdigit()] *)
Definition digits_only (local_part : string) : bool :=
  isdigit (remove_char "-"%char (remove_char "_"%char
            (remove_char "."%char local_part))).

(** [sum(c.isdigit() for c in local_part) > len(local_part) * 0.7].
    The product is a float; at this point [len(local_part) <= 30], where
    the rounded product compares with an integer exactly as [7 * len / 10]
    does (the products at lengths 10, 20 and 30 round to 7.0, 14.0 and
    21.0), so the test is stated on integers. *)
Definition mostly_digits (local_part : string) : bool :=
  7 * len local_part <? 10 * count_chars is_digit local_part.

(** [re.match(r'^[a-f0-9]+$', local_part) and len(local_part) > 10] *)
Definition looks_like_hash (local_part : string) : bool :=
  re_match_dollar (Plus (Cls is_lower_hex)) local_part
  && (10 <? len local_part).

(** The body of the loop of [filter_business_emails] for one address:
    [true] when the address reaches [filtered_emails.append(email)],
    [false] on every [continue] and when the first test fails. *)
Definition keeps (blacklist_domains : list string)
                 (blacklist_patterns : list regex) (email : string) : bool :=
  if looks_like_email email then
    let domain := domain_of email in
    let local_part := local_part_of email in
    if existsb (fun blacklist => contains blacklist domain) blacklist_domains
    then false
    else if existsb (fun pattern => re_match pattern (lower email))
                    blacklist_patterns
    then false
    else if (30 <? len local_part) || digits_only local_part
    then false
    else if mostly_digits local_part
    then false
    else if looks_like_hash local_part
    then false
    else true
  else false.

(** The loop, with the accumulator [filtered_emails]. *)
Fixpoint filter_loop (blacklist_domains : list string)
                     (blacklist_patterns : list regex)
                     (emails filtered_emails : list string) : list string :=
  match emails with
  | [] => filtered_emails
  | email :: rest =>
      if keeps blacklist_domains blacklist_patterns email
      then filter_loop blacklist_domains blacklist_patterns rest
                       (filtered_emails ++ [email])
      else filter_loop blacklist_domains blacklist_patterns rest
                       filtered_emails
  end.

(** [filter_business_emails(emails, blacklist_domains, blacklist_patterns)] *)
Definition filter_business_emails (emails : list string)
                                  (blacklist_domains : list string)
                                  (blacklist_patterns : list regex)
  : list string :=
  filter_loop blacklist_domains blacklist_patterns emails [].


(** [truncate_text(text, max_length, suffix)] for [max_length >= 0]; the
    text may be [None]. *)
Definition truncate_text (text : option string) (max_length : nat)
                         (suffix : string) : option string :=
  match text with
  | Some t =>
      if negb (String.eqb t "") && (max_length <? String.length t)%nat
      then Some (String.substring 0 max_length t ++ suffix)%string
      else Some t
  | None => None
  end.

(** The loop of [retry_on_failure]: [remaining] turns of
    [for attempt in range(max_retries)] are left, [slept] lists the pauses
    made so far.  [func k] is what the call number [k] of [func()] does. *)
Fixpoint retry_turns {A} (func : nat -> Exc A) (max_retries : nat) (delay : Z)
                     (remaining attempt : nat) (slept : list Z)
  : Exc (option A) * list Z :=
  match remaining with
  | O => (Return None, slept)
  | S remaining =>
      match func attempt with
      | Return a => (Return (Some a), slept)
      | Raise e =>
          if (attempt =? max_retries - 1)%nat then (Raise e, slept)
          else retry_turns func max_retries delay remaining (S attempt)
                           (slept ++ [delay * 2 ^ Z.of_nat attempt])
      end
  end.

(** [retry_on_failure(func, max_retries, delay)], with the pauses it
    made. *)
Definition retry_on_failure {A} (func : nat -> Exc A) (max_retries : nat)
                            (delay : Z) : Exc (option A) * list Z :=
  retry_turns func max_retries delay max_retries 0 [].

(** [safe_get_dict_value(dictionary, *keys, default=default)] on the values
    [json.loads] yields. *)
Fixpoint safe_get_dict_value (value : json) (keys : list string)
                             (default : json) : json :=
  match keys with
  | [] => value
  | key :: rest =>
      match value with
      | JObj d => safe_get_dict_value (dict_get d key default) rest default
      | _ => default
      end
  end.

(** [calculate_seo_score_color(score)] *)
Definition calculate_seo_score_color (score : Z) : string :=
  if score <? 20 then "#E74C3C"
  else if score <? 40 then "#E67E22"
  else if score <? 60 then "#F39C12"
  else if score <? 80 then "#F1C40F"
  else "#27AE60".

End Utils.
(* ------------------------------------------------------------------ *)
(** ** analyzer.py: the result record *)
(* ------------------------------------------------------------------ *)

Module Analyzer.

(** [result['basic_info']], as [_analyze_basic_info] builds it.  The
    formatted strings [load_time] and [page_size] are display-only and
    kept as the strings the response yields. *)
Record BasicInfo := {
  status_code : Z;
  load_time : string;
  load_time_score : Z;
  final_url : string;
  redirects : Z;
  page_size : string;
  encoding : option string
}.

Record Images := {
  total : Z;
  without_alt : Z;
  without_lazy_loading : Z
}.

(** [result['seo_analysis']], as [_analyze_seo] builds it. *)
Record SeoAnalysis := {
  title : option string;
  title_length : Z;
  meta_description : option string;
  meta_desc_length : Z;
  meta_keywords : option string;
  canonical_url : option string;
  robots_meta : option string;
  headers : list (string * Z);
  h1_text : list string;
  images : Images;
  schema_types : list string;
  has_schema : bool
}.

(** [result['technical_seo']].  The dictionary is read with [.get] only,
    so an absent key and a key bound to [None] are the same to the program:
    the empty dictionary is the record of [None]s.  [robots_txt] and
    [sitemap_xml] are set later by [_check_important_files]. *)
Record TechnicalSeo := {
  viewport : option string;
  lang_attribute : option string;
  charset : option string;
  https : option bool;
  www_redirect : option bool;
  robots_txt : option bool;
  sitemap_xml : option bool
}.

Definition empty_technical_seo : TechnicalSeo :=
  {| viewport := None; lang_attribute := None; charset := None;
     https := None; www_redirect := None;
     robots_txt := None; sitemap_xml := None |}.

(** Content quality, Open Graph tags and social links are carried as the
    extraction produced them. *)
Record ContentQuality := {
  word_count : option Z;
  readability : list (string * string);
  cq_error : option string
}.

(** The result dictionary of [analyze_website].  A sub-dictionary that is
    still [{}] is [None]; the keys [seo_score], [score_breakdown] and
    [error] are absent until they are assigned. *)
Record AnalysisResult := {
  url : string;
  timestamp : string;
  basic_info : option BasicInfo;
  seo_analysis : option SeoAnalysis;
  technical_seo : TechnicalSeo;
  content_quality : option ContentQuality;
  open_graph : list (string * string);
  emails : list string;
  social_media : list (string * string);
  issues : list string;
  recommendations : list string;
  seo_score : option Z;
  score_breakdown : option (list (string * Z));
  error : option string
}.

Definition set_basic_info (r : AnalysisResult) v :=
  {| url := url r; timestamp := timestamp r; basic_info := v;
     seo_analysis := seo_analysis r; technical_seo := technical_seo r;
     content_quality := content_quality r; open_graph := open_graph r;
     emails := emails r; social_media := social_media r;
     issues := issues r; recommendations := recommendations r;
     seo_score := seo_score r; score_breakdown := score_breakdown r;
     error := error r |}.

Definition set_seo_analysis (r : AnalysisResult) v :=
  {| url := url r; timestamp := timestamp r; basic_info := basic_info r;
     seo_analysis := v; technical_seo := technical_seo r;
     content_quality := content_quality r; open_graph := open_graph r;
     emails := emails r; social_media := social_media r;
     issues := issues r; recommendations := recommendations r;
     seo_score := seo_score r; score_breakdown := score_breakdown r;
     error := error r |}.

Definition set_technical_seo (r : AnalysisResult) v :=
  {| url := url r; timestamp := timestamp r; basic_info := basic_info r;
     seo_analysis := seo_analysis r; technical_seo := v;
     content_quality := content_quality r; open_graph := open_graph r;
     emails := emails r; social_media := social_media r;
     issues := issues r; recommendations := recommendations r;
     seo_score := seo_score r; score_breakdown := score_breakdown r;
     error := error r |}.

Definition set_content_quality (r : AnalysisResult) v :=
  {| url := url r; timestamp := timestamp r; basic_info := basic_info r;
     seo_analysis := seo_analysis r; technical_seo := technical_seo r;
     content_quality := v; open_graph := open_graph r;
     emails := emails r; social_media := social_media r;
     issues := issues r; recommendations := recommendations r;
     seo_score := seo_score r; score_breakdown := score_breakdown r;
     error := error r |}.

Definition set_open_graph (r : AnalysisResult) v :=
  {| url := url r; timestamp := timestamp r; basic_info := basic_info r;
     seo_analysis := seo_analysis r; technical_seo := technical_seo r;
     content_quality := content_quality r; open_graph := v;
     emails := emails r; social_media := social_media r;
     issues := issues r; recommendations := recommendations r;
     seo_score := seo_score r; score_breakdown := score_breakdown r;
     error := error r |}.

Definition set_emails (r : AnalysisResult) v :=
  {| url := url r; timestamp := timestamp r; basic_info := basic_info r;
     seo_analysis := seo_analysis r; technical_seo := technical_seo r;
     content_quality := content_quality r; open_graph := open_graph r;
     emails := v; social_media := social_media r;
     issues := issues r; recommendations := recommendations r;
     seo_score := seo_score r; score_breakdown := score_breakdown r;
     error := error r |}.

Definition set_social_media (r : AnalysisResult) v :=
  {| url := url r; timestamp := timestamp r; basic_info := basic_info r;
     seo_analysis := seo_analysis r; technical_seo := technical_seo r;
     content_quality := content_quality r; open_graph := open_graph r;
     emails := emails r; social_media := v;
     issues := issues r; recommendations := recommendations r;
     seo_score := seo_score r; score_breakdown := score_breakdown r;
     error := error r |}.

(** [result['issues'].append(i)] and [result['recommendations'].append(c)] *)
Definition append_issue (r : AnalysisResult) (i : string) :=
  {| url := url r; timestamp := timestamp r; basic_info := basic_info r;
     seo_analysis := seo_analysis r; technical_seo := technical_seo r;
     content_quality := content_quality r; open_graph := open_graph r;
     emails := emails r; social_media := social_media r;
     issues := issues r ++ [i]; recommendations := recommendations r;
     seo_score := seo_score r; score_breakdown := score_breakdown r;
     error := error r |}.

Definition append_recommendation (r : AnalysisResult) (c : string) :=
  {| url := url r; timestamp := timestamp r; basic_info := basic_info r;
     seo_analysis := seo_analysis r; technical_seo := technical_seo r;
     content_quality := content_quality r; open_graph := open_graph r;
     emails := emails r; social_media := social_media r;
     issues := issues r; recommendations := recommendations r ++ [c];
     seo_score := seo_score r; score_breakdown := score_breakdown r;
     error := error r |}.

(** An issue together with its recommendation, as every check appends them. *)
Definition flag (r : AnalysisResult) (i c : string) :=
  append_recommendation (append_issue r i) c.

Definition set_seo_score (r : AnalysisResult) (s : Z) :=
  {| url := url r; timestamp := timestamp r; basic_info := basic_info r;
     seo_analysis := seo_analysis r; technical_seo := technical_seo r;
     content_quality := content_quality r; open_graph := open_graph r;
     emails := emails r; social_media := social_media r;
     issues := issues r; recommendations := recommendations r;
     seo_score := Some s; score_breakdown := score_breakdown r;
     error := error r |}.

Definition set_score_breakdown (r : AnalysisResult) (b : list (string * Z)) :=
  {| url := url r; timestamp := timestamp r; basic_info := basic_info r;
     seo_analysis := seo_analysis r; technical_seo := technical_seo r;
     content_quality := content_quality r; open_graph := open_graph r;
     emails := emails r; social_media := social_media r;
     issues := issues r; recommendations := recommendations r;
     seo_score := seo_score r; score_breakdown := Some b;
     error := error r |}.

Definition set_error (r : AnalysisResult) (m : string) :=
  {| url := url r; timestamp := timestamp r; basic_info := basic_info r;
     seo_analysis := seo_analysis r; technical_seo := technical_seo r;
     content_quality := content_quality r; open_graph := open_graph r;
     emails := emails r; social_media := social_media r;
     issues := issues r; recommendations := recommendations r;
     seo_score := seo_score r; score_breakdown := score_breakdown r;
     error := Some m |}.

(* ------------------------------------------------------------------ *)
(** ** analyzer.py: [_check_seo_issues] and [calculate_seo_score] *)
(* ------------------------------------------------------------------ *)

Definition key_error (k : string) : exn :=
  mk_exn KeyError ("'" ++ k ++ "'")%string.

(** The title checks of [_check_seo_issues]. *)
Definition check_title (seo : SeoAnalysis) (r : AnalysisResult) : AnalysisResult :=
  if negb (truthy (title seo)) then
    flag r "Missing title tag"
           "Add a unique, descriptive title tag (30-60 characters)"
  else if title_length seo <? 30 then
    flag r "Title too short (< 30 chars)"
           "Expand title to 30-60 characters with relevant keywords"
  else if title_length seo >? 60 then
    flag r "Title too long (> 60 chars)"
           "Shorten title to under 60 characters"
  else r.

Definition check_meta_description (seo : SeoAnalysis) (r : AnalysisResult) :=
  if negb (truthy (meta_description seo)) then
    flag r "Missing meta description"
           "Add a compelling meta description (120-160 characters)"
  else if meta_desc_length seo <? 120 then
    flag r "Meta description too short (< 120 chars)"
           "Expand meta description to 120-160 characters"
  else if meta_desc_length seo >? 160 then
    flag r "Meta description too long (> 160 chars)"
           "Shorten meta description to under 160 characters"
  else r.

Definition check_headers (seo : SeoAnalysis) (r : AnalysisResult) :=
  let h1_count := dict_get (headers seo) "h1" 0 in
  if h1_count =? 0 then
    flag r "Missing H1 tag" "Add one H1 tag with main keyword"
  else if h1_count >? 1 then
    flag r ("Multiple H1 tags (" ++ str h1_count ++ ")")%string
           "Use only one H1 tag per page"
  else r.

Definition check_images (seo : SeoAnalysis) (r : AnalysisResult) :=
  let r :=
    if without_alt (images seo) >? 0 then
      flag r (str (without_alt (images seo)) ++ " images missing alt text")%string
             "Add descriptive alt text to all images"
    else r in
  if without_lazy_loading (images seo) >? 5 then
    append_recommendation r "Implement lazy loading for images"
  else r.

Definition check_schema_and_open_graph (seo : SeoAnalysis) (r : AnalysisResult) :=
  let r :=
    if negb (has_schema seo) then
      append_recommendation r "Add Schema.org structured data"
    else r in
  if negb (nonempty (open_graph r)) then
    append_recommendation r "Add Open Graph tags for better social sharing"
  else r.

(** [_check_seo_issues(result)]: appends to [issues] and [recommendations]
    of the shared result. *)
Definition _check_seo_issues (result : AnalysisResult) : Exc AnalysisResult :=
  match seo_analysis result with
  | None =>
      (* [seo.get('title')] and [seo.get('meta_description')] are [None] on
         the empty dictionary, then [seo['headers']] raises *)
      Raise (key_error "headers")
  | Some seo =>
      let r := check_title seo result in
      let r := check_meta_description seo r in
      let r := check_headers seo r in
      let r := check_images seo r in
      Return (check_schema_and_open_graph seo r)
  end.

(** The local variables [score] and [penalties] of [calculate_seo_score]. *)
Record ScoreState := { score : Z; penalties : list (string * Z) }.

(** [score -= p; penalties.append((label, -p))] *)
Definition penalize (st : ScoreState) (label : string) (p : Z) : ScoreState :=
  {| score := score st - p; penalties := penalties st ++ [(label, - p)] |}.

Definition title_penalties (seo : SeoAnalysis) (st : ScoreState) :=
  if negb (truthy (title seo)) then penalize st "Missing title tag" 15
  else if title_length seo <? 30 then penalize st "Title too short" 5
  else if title_length seo >? 60 then penalize st "Title too long" 5
  else st.

Definition meta_description_penalties (seo : SeoAnalysis) (st : ScoreState) :=
  if negb (truthy (meta_description seo)) then
    penalize st "Missing meta description" 10
  else if meta_desc_length seo <? 120 then
    penalize st "Meta description too short" 5
  else if meta_desc_length seo >? 160 then
    penalize st "Meta description too long" 5
  else st.

Definition h1_penalties (seo : SeoAnalysis) (st : ScoreState) :=
  let h1_count := dict_get (headers seo) "h1" 0 in
  if h1_count =? 0 then penalize st "Missing H1 tag" 10
  else if h1_count >? 1 then penalize st "Multiple H1 tags" 5
  else st.

Definition image_penalties (seo : SeoAnalysis) (st : ScoreState) :=
  if without_alt (images seo) >? 0 then
    let penalty := Z.min 10 (without_alt (images seo) * 2) in
    penalize st (str (without_alt (images seo)) ++ " images without alt text")%string
             penalty
  else st.

Definition technical_penalties (result : AnalysisResult) (st : ScoreState) :=
  let tech := technical_seo result in
  let st := if negb (truthy_bool (https tech))
            then penalize st "Not using HTTPS" 10 else st in
  let st := if negb (truthy (viewport tech))
            then penalize st "Not mobile-friendly" 10 else st in
  let st := if negb (truthy_bool (robots_txt tech))
            then penalize st "Missing robots.txt" 5 else st in
  if negb (truthy_bool (sitemap_xml tech))
  then penalize st "Missing sitemap.xml" 5 else st.

(** [result.get('basic_info', {}).get('load_time_score', 100)] *)
Definition get_load_time_score (result : AnalysisResult) : Z :=
  match basic_info result with
  | Some b => load_time_score b
  | None => 100
  end.

Definition performance_penalties (result : AnalysisResult) (st : ScoreState) :=
  if get_load_time_score result <? 50
  then penalize st "Slow load time" 10 else st.

(** [score = min(100, score + 5); penalties.append(("Has Schema markup", +5))] *)
Definition schema_bonus (seo : SeoAnalysis) (st : ScoreState) :=
  if has_schema seo then
    {| score := Z.min 100 (score st + 5);
       penalties := penalties st ++ [("Has Schema markup", 5)] |}
  else st.

Definition calculate_seo_score (result : AnalysisResult)
  : Exc (Z * list (string * Z)) :=
  let st := {| score := 100; penalties := [] |} in
  match seo_analysis result with
  | None => Raise (key_error "headers")
  | Some seo =>
      let st := title_penalties seo st in
      let st := meta_description_penalties seo st in
      let st := h1_penalties seo st in
      let st := image_penalties seo st in
      let st := technical_penalties result st in
      let st := performance_penalties result st in
      let st := schema_bonus seo st in
      Return (Z.max 0 (score st), penalties st)
  end.

(* ------------------------------------------------------------------ *)
(** ** analyzer.py: extraction *)
(* ------------------------------------------------------------------ *)

(** What [requests.get] returns, as far as the program reads it; [elapsed]
    is the wall-clock time the caller measures around the call, in
    seconds. *)
Record Response := {
  r_status_code : Z;
  r_text : string;
  r_url : string;
  r_history : Z;          (* len(response.history) *)
  r_content_length : Z;   (* len(response.content) *)
  r_encoding : option string;
  elapsed : Q
}.

Record Img := {
  alt : option string;
  src : option string;
  loading : option string
}.

(** The parsed document, as the answers of BeautifulSoup to the queries
    the program makes.  For a tag looked up by [soup.find], [None] is "no
    such tag" and [Some a] carries the attribute the program reads
    ([a = None] when the tag lacks it).  The results of
    [_check_schema_markup], [_analyze_content_quality],
    [_extract_open_graph], [_extract_social_media] and of
    [re.findall(email_pattern, ...)] on the document are carried as
    computed. *)
Record Soup := {
  title_tag : option string;                  (* title.text *)
  meta_description_tag : option (option string);
  meta_keywords_tag : option (option string);
  canonical_link : option (option string);
  robots_meta_tag : option (option string);
  find_all : string -> list string;           (* texts of the tags named so *)
  img_tags : list Img;
  schema_markup : Exc (list string);
  viewport_tag : option (option string);
  html_tag : option (option string);          (* its lang attribute *)
  charset_tag : option (option string);
  text_quality : ContentQuality;
  og_tags : list (string * string);
  email_matches : list string;
  social_links : list (string * string)
}.

(** The environment of one analysis. *)
Record Env := {
  format_timestamp : string;
  (** [requests.get(url, headers=DEFAULT_HEADERS, timeout=t, ...)] *)
  requests_get : string -> Z -> Exc Response;
  (** [BeautifulSoup(text, 'html.parser')] *)
  BeautifulSoup : string -> Soup;
  urlparse : string -> Exc Utils.ParseResult;
  (** [list(set(l))]: the elements of [l] once each, in an order Python
      does not specify *)
  list_of_set : list string -> list string
}.

(** [list.sort(key=key, reverse=True)] inserts as a stable sort does:
    larger keys first, equal keys in their original order. *)
Fixpoint insert_desc {A} (key : A -> bool) (x : A) (l : list A) : list A :=
  match l with
  | [] => [x]
  | y :: r => if key y && negb (key x) then y :: insert_desc key x r
              else x :: l
  end.

Definition sort_reverse {A} (key : A -> bool) (l : list A) : list A :=
  fold_right (insert_desc key) [] l.

(** [any(keyword in x.lower() for keyword in BUSINESS_EMAIL_KEYWORDS)] *)
Definition is_business (x : string) : bool :=
  existsb (fun keyword => contains keyword (lower x))
          Config.BUSINESS_EMAIL_KEYWORDS.

(** [_extract_emails(html_content)], from the list [matches] that
    [re.findall(email_pattern, html_content)] yields. *)
Definition _extract_emails (env : Env) (matches : list string) : list string :=
  let emails := list_of_set env matches in
  let filtered_emails :=
    Utils.filter_business_emails emails Config.BLACKLIST_DOMAINS
                                 Config.BLACKLIST_EMAIL_PATTERNS in
  let filtered_emails := sort_reverse is_business filtered_emails in
  take 10 filtered_emails.

(** [_analyze_basic_info(response, load_time)] *)
Definition _analyze_basic_info (response : Response) (load_time : Q)
  : BasicInfo :=
  {| status_code := r_status_code response;
     load_time := (format_fixed 2 load_time ++ "s")%string;
     load_time_score :=
       if Qlt_le_dec load_time (Qmake 1 1) then 100
       else if Qlt_le_dec load_time (Qmake 3 1) then 80
       else if Qlt_le_dec load_time (Qmake 5 1) then 50
       else 20;
     final_url := r_url response;
     redirects := r_history response;
     page_size :=
       (format_fixed 1 (Qmake (r_content_length response) 1024) ++ " KB")%string;
     encoding := r_encoding response |}.

(** [tag.get('content', '').strip() if tag else None] *)
Definition stripped_attr (tag : option (option string)) : option string :=
  match tag with
  | Some (Some v) => Some (strip v)
  | Some None => Some (strip "")
  | None => None
  end.

(** [tag.get(attr, '') if tag else None] *)
Definition attr_or_empty (tag : option (option string)) : option string :=
  match tag with
  | Some (Some v) => Some v
  | Some None => Some ""
  | None => None
  end.

Definition count_if {A} (p : A -> bool) (l : list A) : Z :=
  Z.of_nat (List.length (filter p l)).

(** [_analyze_seo(soup)]; it raises what [_check_schema_markup] raises. *)
Definition _analyze_seo (soup : Soup) : Exc SeoAnalysis :=
  let headers_count :=
    map (fun h => (h, Z.of_nat (List.length (find_all soup h))))
        ["h1"; "h2"; "h3"; "h4"; "h5"; "h6"] in
  let h1_text := map strip (take 3 (find_all soup "h1")) in
  let imgs := img_tags soup in
  schema_types <- schema_markup soup ;;
  Return
    {| title := option_map strip (title_tag soup);
       title_length :=
         match title_tag soup with Some t => len (strip t) | None => 0 end;
       meta_description := stripped_attr (meta_description_tag soup);
       meta_desc_length :=
         match stripped_attr (meta_description_tag soup) with
         | Some d => len d
         | None => 0
         end;
       meta_keywords := stripped_attr (meta_keywords_tag soup);
       canonical_url := attr_or_empty (canonical_link soup);
       robots_meta := attr_or_empty (robots_meta_tag soup);
       headers := headers_count;
       h1_text := h1_text;
       images :=
         {| total := Z.of_nat (List.length imgs);
            without_alt := count_if (fun img => negb (truthy (alt img))) imgs;
            without_lazy_loading :=
              count_if (fun img =>
                          truthy (src img) &&
                          negb (match loading img with
                                | Some l => String.eqb l "lazy"
                                | None => false
                                end)) imgs |};
       schema_types := schema_types;
       has_schema := (0 <? Z.of_nat (List.length schema_types)) |}.

Definition name_error (name : string) : exn :=
  mk_exn NameError ("name '" ++ name ++ "' is not defined")%string.

(** Reading a name that is bound neither in the function nor in the
    module. *)
Definition unbound (name : string) : Exc AnalysisResult :=
  Raise (name_error name).

(** [result['issues'].append(i); result['recommendations'].append(c)] in a
    function that has no parameter or local named [result], in a module
    that has no such global: the first read of the name raises. *)
Definition report_on_unbound_result (i c : string) : Exc unit :=
  result <- unbound "result" ;;
  let _ := flag result i c in
  Return tt.

Definition is_some {A} (o : option A) : bool :=
  match o with Some _ => true | None => false end.

(** [_analyze_technical_seo(soup, url, response)] *)
Definition _analyze_technical_seo (soup : Soup) (url : string)
                                  (response : Response) : Exc TechnicalSeo :=
  let viewport := viewport_tag soup in
  let lang := match html_tag soup with Some l => l | None => None end in
  let charset := charset_tag soup in
  let tech_seo :=
    {| Analyzer.viewport := match viewport with Some c => c | None => None end;
       lang_attribute := lang;
       Analyzer.charset := match charset with Some c => c | None => None end;
       https := Some (startswith url "https://");
       www_redirect := Some (contains "www." (r_url response));
       robots_txt := None;
       sitemap_xml := None |} in
  _ <- (if negb (is_some viewport) then
          report_on_unbound_result
            "Missing viewport meta tag (not mobile-friendly)"
            "Add viewport meta tag for mobile responsiveness"
        else Return tt) ;;
  _ <- (if negb (truthy lang) then
          report_on_unbound_result
            "Missing language attribute"
            "Add lang attribute to html tag"
        else Return tt) ;;
  _ <- (if negb (startswith url "https://") then
          report_on_unbound_result
            "Not using HTTPS"
            "Implement SSL certificate for HTTPS"
        else Return tt) ;;
  Return tech_seo.

(** One auxiliary fetch of [_check_important_files]:
    [try: r = requests.get(u, ..., timeout=10); present = r.status_code == 200
     except: present = False] *)
Definition file_present (env : Env) (u : string) : bool :=
  match requests_get env u 10 with
  | Return r => r_status_code r =? 200
  | Raise _ => false
  end.

Definition set_robots_txt (t : TechnicalSeo) (b : bool) : TechnicalSeo :=
  {| viewport := viewport t; lang_attribute := lang_attribute t;
     charset := charset t; https := https t; www_redirect := www_redirect t;
     robots_txt := Some b; sitemap_xml := sitemap_xml t |}.

Definition set_sitemap_xml (t : TechnicalSeo) (b : bool) : TechnicalSeo :=
  {| viewport := viewport t; lang_attribute := lang_attribute t;
     charset := charset t; https := https t; www_redirect := www_redirect t;
     robots_txt := robots_txt t; sitemap_xml := Some b |}.

(** [_check_important_files(url, result)] *)
Definition _check_important_files (env : Env) (url : string)
                                  (result : AnalysisResult)
  : Exc AnalysisResult :=
  p <- urlparse env url ;;
  let domain := (Utils.scheme p ++ "://" ++ Utils.netloc p)%string in
  let result :=
    set_technical_seo result
      (set_robots_txt (technical_seo result)
                      (file_present env (domain ++ "/robots.txt")%string)) in
  let result :=
    set_technical_seo result
      (set_sitemap_xml (technical_seo result)
                       (file_present env (domain ++ "/sitemap.xml")%string)) in
  let result :=
    if negb (truthy_bool (robots_txt (technical_seo result))) then
      flag result "No robots.txt file found" "Create robots.txt file"
    else result in
  let result :=
    if negb (truthy_bool (sitemap_xml (technical_seo result))) then
      flag result "No sitemap.xml file found" "Create XML sitemap"
    else result in
  Return result.

(* ------------------------------------------------------------------ *)
(** ** analyzer.py: [analyze_website] *)
(* ------------------------------------------------------------------ *)

(** Statements of the [try] block: they run on the shared [result], whose
    mutations survive an exception. *)
Definition Stmt (A : Type) : Type := AnalysisResult -> AnalysisResult * Exc A.

Definition then_ {A B} (m : Stmt A) (k : A -> Stmt B) : Stmt B :=
  fun result =>
    match m result with
    | (result, Return a) => k a result
    | (result, Raise e) => (result, Raise e)
    end.

(** A call that does not touch [result]. *)
Definition call {A} (m : Exc A) : Stmt A := fun result => (result, m).

(** [result[k] = v] *)
Definition assign (f : AnalysisResult -> AnalysisResult) : Stmt unit :=
  fun result => (f result, Return tt).

(** A call that mutates [result] in place; when it raises, the model keeps
    the state at the call. *)
Definition mutate (f : AnalysisResult -> Exc AnalysisResult) : Stmt unit :=
  fun result =>
    match f result with
    | Return result' => (result', Return tt)
    | Raise e => (result, Raise e)
    end.

(** A call that reads [result]. *)
Definition read {A} (f : AnalysisResult -> Exc A) : Stmt A :=
  fun result => (result, f result).

Notation "x <~ m ;; k" := (then_ m (fun x => k))
  (at level 61, m at next level, right associativity).

Definition try_block (env : Env) (url : string) : Stmt unit :=
  response <~ call (requests_get env url 30) ;;
  let load_time := elapsed response in
  let soup := BeautifulSoup env (r_text response) in
  _ <~ assign (fun r =>
         set_basic_info r (Some (_analyze_basic_info response load_time))) ;;
  seo <~ call (_analyze_seo soup) ;;
  _ <~ assign (fun r => set_seo_analysis r (Some seo)) ;;
  _ <~ mutate _check_seo_issues ;;
  tech <~ call (_analyze_technical_seo soup url response) ;;
  _ <~ assign (fun r => set_technical_seo r tech) ;;
  _ <~ assign (fun r => set_content_quality r (Some (text_quality soup))) ;;
  _ <~ assign (fun r => set_open_graph r (og_tags soup)) ;;
  _ <~ assign (fun r =>
         set_emails r (_extract_emails env (email_matches soup))) ;;
  _ <~ assign (fun r => set_social_media r (social_links soup)) ;;
  _ <~ mutate (_check_important_files env url) ;;
  sb <~ read calculate_seo_score ;;
  assign (fun r => set_score_breakdown (set_seo_score r (fst sb)) (snd sb)).

Definition initial_result (env : Env) (url : string) : AnalysisResult :=
  {| url := url;
     timestamp := format_timestamp env;
     basic_info := None;
     seo_analysis := None;
     technical_seo := empty_technical_seo;
     content_quality := None;
     open_graph := [];
     emails := [];
     social_media := [];
     issues := [];
     recommendations := [];
     seo_score := None;
     score_breakdown := None;
     error := None |}.

(** [result['error'] = m; result['issues'].append(i); result['seo_score'] = 0] *)
Definition fail_with (result : AnalysisResult) (m i : string) : AnalysisResult :=
  set_seo_score (append_issue (set_error result m) i) 0.

(** [analyze_website(url)] *)
Definition analyze_website (env : Env) (url : string) : Exc AnalysisResult :=
  let result := initial_result env url in
  match try_block env url result with
  | (result, Return _) => Return result
  | (result, Raise e) =>
      if isinstance_Timeout e then
        Return (fail_with result "Website took too long to respond"
                          "Timeout error")
      else if isinstance_ConnectionError e then
        Return (fail_with result "Could not connect to website"
                          "Connection error")
      else
        Return (fail_with result (exn_msg e)
                          ("Analysis error: " ++ exn_msg e)%string)
  end.

(** The sum of the signed deltas of a breakdown. *)
Definition sum_deltas (b : list (string * Z)) : Z :=
  fold_right (fun p acc => snd p + acc) 0 b.

End Analyzer.

(* ------------------------------------------------------------------ *)
(** ** ai_module.py *)
(* ------------------------------------------------------------------ *)

Module AI.

Import Analyzer.

(** The fields of [AIModule] the generation code reads and writes.  A model
    is named by the position of its key at initialisation. *)
Record AIModule := {
  gemini_models : list nat;
  current_key_index : nat;
  is_initialized : bool
}.

(** What [model.generate_content] returns: reading [response.text] may
    itself raise. *)
Record GenResponse := { text : Exc string }.

(** What [tldextract.extract] yields. *)
Record ExtractResult := { domain : string; suffix : string }.

(** The capabilities the module calls.  [generate_content] may answer
    differently each time it is called, so it is indexed by the number of
    calls made before.  [search] yields the listed results and then, when
    the second component is an exception, raises it. *)
Record Env := {
  GOOGLE_SEARCH_AVAILABLE : bool;
  generate_content : nat -> nat -> string -> Exc GenResponse;
  json_loads : string -> Exc json;
  strip_code_fences : string -> string;
  extract : string -> Exc ExtractResult;
  search : string -> list string * option exn;
  urlparse : string -> Exc Utils.ParseResult
}.

(** What a request does, in order: the instrumentation the temporal
    statements are about. *)
Inductive Event :=
| Attempt (key_index : nat) (prompt : string)
                                 (* generate_content(prompt) on that model *)
| RateLimited (key_index : nat)  (* that attempt raised a rate-limit error *)
| Failed (key_index : nat)       (* that attempt raised another error *)
| Slept (seconds : Z).           (* time.sleep *)

Record Run := {
  module : AIModule;
  calls : nat;
  trace : list Event
}.

Definition log (st : Run) (ev : Event) : Run :=
  {| module := module st; calls := calls st; trace := trace st ++ [ev] |}.

(** [get_current_model()]; the subscript raises [IndexError] out of range. *)
Definition get_current_model (m : AIModule) : Exc (option nat) :=
  if negb (is_initialized m) || negb (nonempty (gemini_models m)) then
    Return None
  else
    match nth_error (gemini_models m) (current_key_index m) with
    | Some model => Return (Some model)
    | None => Raise (mk_exn (OtherError "IndexError")
                            "list index out of range")
    end.

(** [rotate_key()] *)
Definition rotate_key (m : AIModule) : AIModule * bool :=
  if (1 <? List.length (gemini_models m))%nat then
    ({| gemini_models := gemini_models m;
        current_key_index :=
          Nat.modulo (current_key_index m + 1) (List.length (gemini_models m));
        is_initialized := is_initialized m |}, true)
  else (m, false).

(** The [try] block of the loop: the current model, then one call. *)
Definition attempt (env : Env) (prompt : string) (st : Run)
  : Run * Exc (option GenResponse) :=
  match get_current_model (module st) with
  | Raise e => (st, Raise e)
  | Return None => (st, Return None)
  | Return (Some model) =>
      let st' := {| module := module st; calls := S (calls st);
                    trace := trace st
                             ++ [Attempt (current_key_index (module st))
                                         prompt] |} in
      match generate_content env (calls st) model prompt with
      | Return response => (st', Return (Some response))
      | Raise e => (st', Raise e)
      end
  end.

Definition is_rate_limit (error_msg : string) : bool :=
  contains "RATE_LIMIT_EXCEEDED" error_msg || contains "429" error_msg.

(** The [while] loop of [generate_with_retry], by recursion on [fuel];
    [None] when the fuel runs out before the loop ends. *)
Fixpoint retry_loop (fuel : nat) (env : Env) (prompt : string)
                    (max_retries : nat) (st : Run) (retries keys_tried : nat)
  : option (Run * Exc (option GenResponse)) :=
  match fuel with
  | O => None
  | S fuel =>
      if (retries <? max_retries)%nat
         && (keys_tried <? List.length (gemini_models (module st)))%nat
      then
        match attempt env prompt st with
        | (st, Return r) => Some (st, Return r)
        | (st, Raise e) =>
            let error_msg := exn_msg e in
            let k := current_key_index (module st) in
            if is_rate_limit error_msg then
              let st := log st (RateLimited k) in
              match rotate_key (module st) with
              | (m, true) =>
                  retry_loop fuel env prompt max_retries
                             {| module := m; calls := calls st;
                                trace := trace st |}
                             retries (S keys_tried)
              | (_, false) =>
                  Some (st, Raise (mk_exn (OtherError "Exception")
                                      "All API keys have hit rate limits"))
              end
            else
              let st := log st (Failed k) in
              let retries := S retries in
              if (retries <? max_retries)%nat then
                retry_loop fuel env prompt max_retries
                           (log st (Slept (2 ^ Z.of_nat retries)))
                           retries keys_tried
              else Some (st, Raise e)
        end
      else Some (st, Return None)
  end.

(** [generate_with_retry(prompt, max_retries=3)].  Every turn of the loop
    that does not leave it increases [retries] or [keys_tried], so
    [max_retries + len(gemini_models)] turns are enough: the loop never
    runs out of fuel ([retry_loop_pass]) and the last branch below is
    never taken. *)
Definition generate_with_retry (env : Env) (prompt : string)
                               (max_retries : nat) (st : Run)
  : Run * Exc (option GenResponse) :=
  if negb (is_initialized (module st)) then (st, Return None)
  else
    match retry_loop (max_retries + List.length (gemini_models (module st)))
                     env prompt max_retries st 0 0 with
    | Some out => out
    | None => (st, Return None)
    end.

Definition default_max_retries : nat := 3.

(* --- requests on threads --- *)

(** [find_all_competitors] and [generate_all_outreach] of app.py start one
    thread per site, and every thread calls [generate_with_retry] on the
    one [AIModule] of the application: [gemini_models] and
    [current_key_index] are shared and written without a lock, while
    [retries] and [keys_tried] are locals of each call.  A request in
    flight is its locals, its outcome once it has one, and the events it
    has emitted. *)
Record Request := {
  rq_prompt : string;
  rq_max_retries : nat;
  retries : nat;
  keys_tried : nat;
  outcome : option (Exc (option GenResponse));
  events : list Event
}.

(** The call up to its loop: [if not self.is_initialized: return None],
    [retries = 0], [keys_tried = 0]. *)
Definition start (m : AIModule) (prompt : string) (max_retries : nat)
  : Request :=
  {| rq_prompt := prompt; rq_max_retries := max_retries;
     retries := 0; keys_tried := 0;
     outcome := if negb (is_initialized m) then Some (Return None) else None;
     events := [] |}.

(** The events the shared trace gained between two states. *)
Definition since (st st' : Run) : list Event :=
  skipn (List.length (trace st)) (trace st').

Definition finish (rq : Request) (st st' : Run)
                  (out : Exc (option GenResponse)) : Request :=
  {| rq_prompt := rq_prompt rq; rq_max_retries := rq_max_retries rq;
     retries := retries rq; keys_tried := keys_tried rq;
     outcome := Some out; events := events rq ++ since st st' |}.

Definition continue (rq : Request) (st st' : Run)
                    (retries keys_tried : nat) : Request :=
  {| rq_prompt := rq_prompt rq; rq_max_retries := rq_max_retries rq;
     retries := retries; keys_tried := keys_tried;
     outcome := None; events := events rq ++ since st st' |}.

(** One turn of the [while] loop of a request, on the shared state: the
    loop test and, when it holds, the loop body up to [continue], [return]
    or [raise].  A request that has ended does nothing. *)
Definition turn (env : Env) (rq : Request) (st : Run) : Request * Run :=
  match outcome rq with
  | Some _ => (rq, st)
  | None =>
      if (retries rq <? rq_max_retries rq)%nat
         && (keys_tried rq <? List.length (gemini_models (module st)))%nat
      then
        match attempt env (rq_prompt rq) st with
        | (st1, Return r) => (finish rq st st1 (Return r), st1)
        | (st1, Raise e) =>
            let error_msg := exn_msg e in
            let k := current_key_index (module st1) in
            if is_rate_limit error_msg then
              let st2 := log st1 (RateLimited k) in
              match rotate_key (module st2) with
              | (m, true) =>
                  let st3 := {| module := m; calls := calls st2;
                                trace := trace st2 |} in
                  (continue rq st st3 (retries rq) (S (keys_tried rq)), st3)
              | (_, false) =>
                  (finish rq st st2
                          (Raise (mk_exn (OtherError "Exception")
                                     "All API keys have hit rate limits")),
                   st2)
              end
            else
              let st2 := log st1 (Failed k) in
              let retries' := S (retries rq) in
              if (retries' <? rq_max_retries rq)%nat then
                let st3 := log st2 (Slept (2 ^ Z.of_nat retries')) in
                (continue rq st st3 retries' (keys_tried rq), st3)
              else (finish rq st st2 (Raise e), st2)
        end
      else (finish rq st st (Return None), st)
  end.

(** [j] turns of one request with no other request running. *)
Fixpoint turns (env : Env) (j : nat) (rq : Request) (st : Run)
  : Request * Run :=
  match j with
  | O => (rq, st)
  | S j => let (rq, st) := turn env rq st in turns env j rq st
  end.

(** Two requests in flight on the shared module.  A thread may be
    interrupted anywhere, in particular while it blocks in
    [generate_content] or in [time.sleep]; the schedules below let the
    threads take whole turns, which are among the executions the
    program has. *)
Inductive Thread := ThreadA | ThreadB.

Record Threads := {
  request_a : Request;
  request_b : Request;
  shared : Run
}.

Definition step (env : Env) (s : Threads) (t : Thread) : Threads :=
  match t with
  | ThreadA =>
      let (rq, st) := turn env (request_a s) (shared s) in
      {| request_a := rq; request_b := request_b s; shared := st |}
  | ThreadB =>
      let (rq, st) := turn env (request_b s) (shared s) in
      {| request_a := request_a s; request_b := rq; shared := st |}
  end.

Definition run_schedule (env : Env) (schedule : list Thread) (s : Threads)
  : Threads :=
  fold_left (step env) schedule s.

(* --- competitor finding --- *)

Definition attribute_error (ty attr : string) : exn :=
  mk_exn AttributeError
         ("'" ++ ty ++ "' object has no attribute '" ++ attr ++ "'")%string.

Definition type_name (v : json) : string :=
  match v with
  | JNull => "NoneType" | JBool _ => "bool" | JNum _ => "int"
  | JStr _ => "str" | JArr _ => "list" | JObj _ => "dict"
  end.

(** [v.get(k, default)]: only a dictionary has [get]. *)
Definition py_get (v : json) (k : string) (default : json) : Exc json :=
  match v with
  | JObj d => Return (dict_get d k default)
  | _ => Raise (attribute_error (type_name v) "get")
  end.

(** [for x in v]: a list yields its items, a dictionary its keys, a string
    its characters; anything else is not iterable. *)
Definition iterate (v : json) : Exc (list json) :=
  match v with
  | JArr l => Return l
  | JObj d => Return (map (fun kv => JStr (fst kv)) d)
  | JStr s =>
      Return (map (fun c => JStr (String c EmptyString)) (list_ascii_of_string s))
  | _ => Raise (mk_exn TypeError
                  ("'" ++ type_name v ++ "' object is not iterable")%string)
  end.

Definition json_truthy (v : json) : bool :=
  match v with
  | JNull => false
  | JBool b => b
  | JNum n => negb (n =? 0)
  | JStr s => negb (String.eqb s "")
  | JArr l => nonempty l
  | JObj d => nonempty d
  end.

(** The loop [for comp in data.get('competitors', [])] with its
    accumulator. *)
Fixpoint collect_urls (comps : list json) (competitors : list string)
  : Exc (list string) :=
  match comps with
  | [] => Return competitors
  | comp :: rest =>
      url <- py_get comp "url" (JStr "") ;;
      if json_truthy url then
        match url with
        | JStr u =>
            let u := if negb (startswith u "http://" || startswith u "https://")
                     then ("https://" ++ u)%string else u in
            collect_urls rest (competitors ++ [u])
        | _ => Raise (attribute_error (type_name url) "startswith")
        end
      else collect_urls rest competitors
  end.

(** The inner loop of the fallback, over the results one query yields.
    The flag of the result is [true] when the loop was left by [break]. *)
Fixpoint scan_results (env : Env) (own : string) (results : list string)
                      (found_domains competitors : list string)
  : list string * list string * Exc bool :=
  match results with
  | [] => (found_domains, competitors, Return false)
  | result :: rest =>
      match extract env result with
      | Raise e => (found_domains, competitors, Raise e)
      | Return result_ext =>
          let result_domain :=
            (domain result_ext ++ "." ++ suffix result_ext)%string in
          if negb (String.eqb result_domain own)
             && negb (mem result_domain found_domains)
             && negb (String.eqb (domain result_ext) "")
             && negb (String.eqb (suffix result_ext) "")
          then
            let found_domains := result_domain :: found_domains in
            let competitors :=
              competitors ++ [("https://" ++ result_domain)%string] in
            if (3 <=? List.length competitors)%nat
            then (found_domains, competitors, Return true)
            else scan_results env own rest found_domains competitors
          else scan_results env own rest found_domains competitors
      end
  end.

(** One query: the results the search yields, then the exception it ends
    with, if any. *)
Definition run_query (env : Env) (own query : string)
                     (found_domains competitors : list string)
  : list string * list string * Exc bool :=
  let '(results, failure) := search env query in
  match scan_results env own results found_domains competitors with
  | (f, c, Return false) =>
      match failure with
      | Some e => (f, c, Raise e)
      | None => (f, c, Return false)
      end
  | other => other
  end.

(** The outer loop [for query in search_queries[:2]]; the pauses between
    queries are not modelled. *)
Fixpoint query_loop (env : Env) (own : string) (queries : list string)
                    (found_domains competitors : list string) : list string :=
  match queries with
  | [] => competitors
  | query :: rest =>
      match run_query env own query found_domains competitors with
      | (f, c, Return _) =>
          if (3 <=? List.length c)%nat then c
          else query_loop env own rest f c
      | (f, c, Raise _) => query_loop env own rest f c
      end
  end.

(** [find_competitors_fallback(domain)] *)
Definition find_competitors_fallback (env : Env) (domain_arg : string)
  : Exc (list string) :=
  if negb (GOOGLE_SEARCH_AVAILABLE env) then Return []
  else
    let competitors :=
      match extract env domain_arg with
      | Raise _ => []
      | Return ext =>
          let domain_name := domain ext in
          let search_queries :=
            [ (domain_name ++ " competitors")%string;
              ("sites like " ++ domain_name)%string;
              (domain_name ++ " alternatives")%string ] in
          query_loop env (domain ext ++ "." ++ suffix ext)%string
                     (take 2 search_queries) [] []
      end in
    Return (take 3 competitors).

Definition dq : string := String (ascii_of_nat 34) EmptyString.
Definition quoted (s : string) : string := (dq ++ s ++ dq)%string.

Definition competitor_example (n : string) : string :=
  ("  {" ++ quoted "url" ++ ": " ++ quoted ("https://competitor" ++ n ++ ".com")
   ++ ", " ++ quoted "reason" ++ ": "
   ++ quoted "Brief reason why they compete" ++ "}")%string.

(** The prompt of [find_competitors_with_gemini]. *)
Definition competitor_prompt (website_url : string) : string :=
  String.concat newline
    [ ("Analyze the website " ++ website_url
       ++ " and identify its top 3 direct competitors.")%string;
      "";
      "IMPORTANT: Return ONLY a JSON object with no markdown formatting, no backticks, no explanations.";
      "The response must be EXACTLY in this format:";
      "";
      ("{" ++ quoted "competitors" ++ ": [")%string;
      (competitor_example "1" ++ ",")%string;
      (competitor_example "2" ++ ",")%string;
      competitor_example "3";
      "]}";
      "";
      "Focus on:";
      "1. Companies in the same industry/niche";
      "2. Similar target audience";
      "3. Competing for same keywords/services";
      "4. Similar business model";
      "";
      "Return ONLY the JSON object, nothing else." ].

(** The inner [try] of [find_competitors_with_gemini]: parse and collect. *)
Definition parse_competitors (env : Env) (response_text : string)
  : Exc (list string) :=
  data <- json_loads env response_text ;;
  listed <- py_get data "competitors" (JArr []) ;;
  comps <- iterate listed ;;
  competitors <- collect_urls comps [] ;;
  Return (take 3 competitors).

(** [find_competitors_with_gemini(website_url)].  Every path that does not
    return the parsed list returns what the fallback returns. *)
Definition find_competitors_with_gemini (env : Env) (st : Run)
                                        (website_url : string)
  : Run * Exc (list string) :=
  if negb (is_initialized (module st)) then
    (st, find_competitors_fallback env website_url)
  else
    match urlparse env website_url with
    | Raise _ => (st, find_competitors_fallback env website_url)
    | Return _ =>
        match generate_with_retry env (competitor_prompt website_url)
                                  default_max_retries st with
        | (st, Raise _) => (st, find_competitors_fallback env website_url)
        | (st, Return None) => (st, find_competitors_fallback env website_url)
        | (st, Return (Some response)) =>
            match text response with
            | Raise _ => (st, find_competitors_fallback env website_url)
            | Return t =>
                let response_text := strip_code_fences env (strip t) in
                match parse_competitors env response_text with
                | Return competitors => (st, Return competitors)
                | Raise _ => (st, find_competitors_fallback env website_url)
                end
            end
        end
    end.

(* --- outreach fallback --- *)

(** [c.get('seo_score', 0)] *)
Definition get_seo_score (c : AnalysisResult) : Z :=
  match seo_score c with Some s => s | None => 0 end.

(** [c.get('error')] as a truth value *)
Definition has_error (c : AnalysisResult) : bool := truthy (error c).

(** [sum(comp_scores) / len(comp_scores) if comp_scores else 0] *)
Definition average (comp_scores : list Z) : Q :=
  match comp_scores with
  | [] => Qmake 0 1
  | _ => Qmake (fold_right Z.add 0 comp_scores)
               (Pos.of_nat (List.length comp_scores))
  end.

Definition call_to_action : string :=
  ("Our analysis shows fixing these could increase organic traffic by 25-40% within 3 months. "
   ++ newline
   ++ "Interested in seeing the full competitive analysis report?")%string.

Definition opening_behind (domain : string) (gap : Q) : string :=
  ("Your competitors are outranking " ++ domain ++ " with "
   ++ format_fixed 0 gap ++ " points higher SEO scores.")%string.

Definition opening_ahead (domain : string) : string :=
  ("While " ++ domain
   ++ " performs well, there are opportunities to extend your lead.")%string.

(** [generate_fallback_outreach(main_site_data, competitor_data)] *)
Definition generate_fallback_outreach (env : Env)
                                      (main_site_data : AnalysisResult)
                                      (competitor_data : list AnalysisResult)
  : Exc string :=
  let main_score := get_seo_score main_site_data in
  let main_issues := issues main_site_data in
  p <- urlparse env (url main_site_data) ;;
  let domain := Utils.netloc p in
  let comp_scores :=
    map get_seo_score (filter (fun c => negb (has_error c)) competitor_data) in
  let avg_comp_score := average comp_scores in
  let opening :=
    if Qlt_le_dec (inject_Z main_score) avg_comp_score then
      opening_behind domain (Qminus avg_comp_score (inject_Z main_score))
    else opening_ahead domain in
  let issues_text :=
    if nonempty main_issues then
      ("Key issues: " ++ join ", " (take 2 main_issues))%string
    else "Several technical improvements needed" in
  Return (opening ++ " " ++ issues_text ++ ". " ++ newline
          ++ call_to_action)%string.


(* --- key management --- *)

(** [add_key(api_key)] on the list [api_keys]; writing the list to the
    keys file is not modelled. *)
Definition add_key (api_keys : list string) (api_key : string)
  : list string * bool :=
  if negb (String.eqb api_key "") && negb (mem api_key api_keys)
  then (api_keys ++ [api_key], true)
  else (api_keys, false).

(** [list.remove(x)]: the first occurrence goes. *)
Fixpoint remove_first (x : string) (l : list string) : list string :=
  match l with
  | [] => []
  | y :: r => if String.eqb x y then r else y :: remove_first x r
  end.

(** [remove_key(api_key)] *)
Definition remove_key (api_keys : list string) (api_key : string)
  : list string * bool :=
  if mem api_key api_keys then (remove_first api_key api_keys, true)
  else (api_keys, false).

(** The keys and the module state [initialize] works on. *)
Record Keyed := {
  api_keys : list string;
  state : AIModule
}.

(** [initialize(primary_key)].  [available] is [GEMINI_AVAILABLE];
    [probe key] tells whether configuring the key, creating its model and
    generating the test content all succeed.  The state is returned also
    when the function raises: the models are reset before the last
    check. *)
Definition initialize (available : bool) (probe : string -> bool)
                      (primary_key : option string) (k : Keyed)
  : Keyed * Exc bool :=
  if negb available then
    (k, Raise (mk_exn (OtherError "ImportError")
                      "google-generativeai library not installed"))
  else
    let keys :=
      match primary_key with
      | Some key =>
          if negb (String.eqb key "") && negb (mem key (api_keys k))
          then key :: api_keys k else api_keys k
      | None => api_keys k
      end in
    if negb (nonempty keys) then
      ({| api_keys := keys; state := state k |},
       Raise (mk_exn ValueError "No API keys available"))
    else
      let valid_keys := filter probe keys in
      let models := seq 0 (List.length valid_keys) in
      if negb (nonempty models) then
        ({| api_keys := keys;
            state := {| gemini_models := [];
                        current_key_index := current_key_index (state k);
                        is_initialized := is_initialized (state k) |} |},
         Raise (mk_exn (OtherError "Exception")
                       "No valid API keys could be initialized"))
      else
        ({| api_keys := valid_keys;
            state := {| gemini_models := models;
                        current_key_index := 0;
                        is_initialized := true |} |},
         Return true).

End AI.

(* ------------------------------------------------------------------ *)
(** ** app.py: the pipeline *)
(* ------------------------------------------------------------------ *)

Module App.

Import Analyzer.

(** A result as the pipeline stores it: the analyzer's dictionary with the
    keys [is_competitor] and [main_site] that [analysis_callback] adds
    ([main_site] stays absent for a competitor no seed lists). *)
Record SiteResult := {
  analysis : AnalysisResult;
  is_competitor : bool;
  main_site : option string
}.

Record Env := {
  analyzer_env : Analyzer.Env;
  ai_env : AI.Env
}.

Definition newline_char : ascii := ascii_of_nat 10.

(** [parse_websites()], from the text of the input box. *)
Definition parse_websites (env : Env) (text : string) : list string :=
  let is_valid := Utils.is_valid_url (Analyzer.urlparse (analyzer_env env)) in
  fold_left
    (fun websites line =>
       let url := strip line in
       if negb (String.eqb url "") then
         let url := Utils.ensure_url_protocol url in
         if is_valid url then websites ++ [url] else websites
       else websites)
    (split newline_char (strip text)) [].

(** [find_competitors_async]'s worker: the AI path, and the fallback when
    it raises. *)
Definition find_competitors (env : Env) (st : AI.Run) (website : string)
  : AI.Run * Exc (list string) :=
  match AI.find_competitors_with_gemini (ai_env env) st website with
  | (st, Return comps) => (st, Return comps)
  | (st, Raise _) => (st, AI.find_competitors_fallback (ai_env env) website)
  end.

(** [find_all_competitors()]: one lookup per entry of [websites], each
    storing [competitors[site] = comps].  The lookups run on threads; the
    model runs them in the order they are started. *)
Fixpoint find_all_competitors (env : Env) (st : AI.Run)
                              (websites : list string)
                              (competitors : list (string * list string))
  : AI.Run * list (string * list string) :=
  match websites with
  | [] => (st, competitors)
  | website :: rest =>
      match find_competitors env st website with
      | (st, Return comps) =>
          find_all_competitors env st rest (dict_set competitors website comps)
      | (st, Raise _) => find_all_competitors env st rest competitors
      end
  end.

(** [for comp in comps: if comp not in all_sites: all_sites.append(comp)] *)
Definition add_unique (all_sites comps : list string) : list string :=
  fold_left (fun all_sites comp =>
               if negb (mem comp all_sites) then all_sites ++ [comp]
               else all_sites)
            comps all_sites.

(** The list of sites [run_analysis] hands to [analyze_all_sites]. *)
Definition sites_to_analyze (websites : list string)
                            (competitors : list (string * list string))
  : list string :=
  fold_left (fun all_sites item => add_unique all_sites (snd item))
            competitors websites.

(** [analyze_website_async]'s worker with [analysis_callback]: the result
    of the analysis, or the error result when the analysis raises, marked
    as main site or competitor. *)
Definition error_result (env : Env) (url : string) (e : exn) : AnalysisResult :=
  {| url := url;
     timestamp := format_timestamp (analyzer_env env);
     basic_info := None; seo_analysis := None;
     technical_seo := empty_technical_seo; content_quality := None;
     open_graph := []; emails := []; social_media := [];
     issues := [("Analysis error: " ++ exn_msg e)%string];
     recommendations := [];
     seo_score := Some 0; score_breakdown := None;
     error := Some (exn_msg e) |}.

(** [for main, comps in competitor_map.items(): if url in comps: ...; break] *)
Fixpoint main_site_of (competitor_map : list (string * list string))
                      (u : string) : option string :=
  match competitor_map with
  | [] => None
  | (main, comps) :: rest =>
      if mem u comps then Some main else main_site_of rest u
  end.

Definition analysis_callback (websites : list string)
                             (competitor_map : list (string * list string))
                             (result : AnalysisResult) : SiteResult :=
  if negb (mem (url result) websites) then
    {| analysis := result; is_competitor := true;
       main_site := main_site_of competitor_map (url result) |}
  else
    {| analysis := result; is_competitor := false;
       main_site := Some (url result) |}.

Definition analyze_one (env : Env) (websites : list string)
                       (competitor_map : list (string * list string))
                       (site : string) : SiteResult :=
  match analyze_website (analyzer_env env) site with
  | Return result => analysis_callback websites competitor_map result
  | Raise e =>
      analysis_callback websites competitor_map (error_result env site e)
  end.

(** [analyze_all_sites(sites)] with [handle_analysis_result]: one worker per
    entry of [sites], each putting one result on the queue, which the
    consumer appends to [results].  The workers run on threads; the model
    takes the results in the order the workers are started. *)
Definition analyze_all_sites (env : Env) (websites : list string)
                             (competitor_map : list (string * list string))
                             (sites : list string) : list SiteResult :=
  map (analyze_one env websites competitor_map) sites.

(** [run_analysis()] up to the end of the analysis phase: the competitor
    map and the result list of the run. *)
Definition run_analysis (env : Env) (st : AI.Run) (include_competitors : bool)
                        (websites : list string)
  : list (string * list string) * list SiteResult :=
  let competitor_map :=
    if include_competitors
    then snd (find_all_competitors env st websites [])
    else [] in
  let all_sites := sites_to_analyze websites competitor_map in
  (competitor_map, analyze_all_sites env websites competitor_map all_sites).

End App.

(* ================================================================== *)
(** * Specification-side definitions *)
(* ================================================================== *)

Import Analyzer.

(** What a run of penalty steps does to the state: it subtracts some
    amount [d] between 0 and [bound] from the score and records deltas of
    the same total. *)
Definition lowers (bound : Z) (st st' : ScoreState) : Prop :=
  exists d, 0 <= d <= bound
            /\ score st' = score st - d
            /\ sum_deltas (penalties st') = sum_deltas (penalties st) - d.

(** The state before the schema bonus. *)
Definition after_penalties (result : AnalysisResult) (seo : SeoAnalysis)
  : ScoreState :=
  performance_penalties result
    (technical_penalties result
       (image_penalties seo
          (h1_penalties seo
             (meta_description_penalties seo
                (title_penalties seo {| score := 100; penalties := [] |}))))).

(* ------------------------------------------------------------------ *)
(** ** The rubric, as the specification words it *)
(* ------------------------------------------------------------------ *)

Module Rubric.

(** Title: -15 missing, -5 if the length is below 30, -5 if above 60. *)
Definition title_deltas (seo : SeoAnalysis) : list (string * Z) :=
  if negb (truthy (title seo)) then [("Missing title tag", -15)]
  else if title_length seo <? 30 then [("Title too short", -5)]
  else if 60 <? title_length seo then [("Title too long", -5)]
  else [].

(** Meta description: -10 missing, -5 below 120, -5 above 160. *)
Definition meta_deltas (seo : SeoAnalysis) : list (string * Z) :=
  if negb (truthy (meta_description seo)) then [("Missing meta description", -10)]
  else if meta_desc_length seo <? 120 then [("Meta description too short", -5)]
  else if 160 <? meta_desc_length seo then [("Meta description too long", -5)]
  else [].

(** H1: -10 if the count is 0, -5 if it is above 1. *)
Definition h1_deltas (seo : SeoAnalysis) : list (string * Z) :=
  let n := dict_get (headers seo) "h1" 0 in
  if n =? 0 then [("Missing H1 tag", -10)]
  else if 1 <? n then [("Multiple H1 tags", -5)]
  else [].

(** Images without alt: -2 per image, capped at -10. *)
Definition image_deltas (seo : SeoAnalysis) : list (string * Z) :=
  let n := without_alt (images seo) in
  if 0 <? n
  then [((str n ++ " images without alt text")%string, Z.max (-10) (-2 * n))]
  else [].

Definition when (c : bool) (label : string) (delta : Z) : list (string * Z) :=
  if c then [(label, delta)] else [].

(** HTTPS absent -10, viewport absent -10, robots.txt absent -5,
    sitemap.xml absent -5, slow load (load_time_score < 50) -10, schema
    present +5. *)
Definition deltas (result : AnalysisResult) (seo : SeoAnalysis)
  : list (string * Z) :=
  let tech := technical_seo result in
  title_deltas seo ++ meta_deltas seo ++ h1_deltas seo ++ image_deltas seo
  ++ when (negb (truthy_bool (https tech))) "Not using HTTPS" (-10)
  ++ when (negb (truthy (viewport tech))) "Not mobile-friendly" (-10)
  ++ when (negb (truthy_bool (robots_txt tech))) "Missing robots.txt" (-5)
  ++ when (negb (truthy_bool (sitemap_xml tech))) "Missing sitemap.xml" (-5)
  ++ when (get_load_time_score result <? 50) "Slow load time" (-10)
  ++ when (has_schema seo) "Has Schema markup" 5.

(** The total: 100 plus the deltas, never above 100 and never below 0. *)
Definition total (result : AnalysisResult) (seo : SeoAnalysis) : Z :=
  Z.max 0 (Z.min 100 (100 + sum_deltas (deltas result seo))).

(** The three issues about the title. *)
Definition title_issues : list string :=
  [ "Missing title tag"; "Title too short (< 30 chars)";
    "Title too long (> 60 chars)" ].

End Rubric.

(** The last character of a string. *)
Fixpoint last_char (s : string) : option ascii :=
  match s with
  | EmptyString => None
  | String c EmptyString => Some c
  | String _ t => last_char t
  end.

(** The issues the checks after the title check append. *)
Definition later_issues (seo : SeoAnalysis) : list string :=
  (if negb (truthy (meta_description seo)) then ["Missing meta description"]
   else if meta_desc_length seo <? 120
        then ["Meta description too short (< 120 chars)"]
   else if 160 <? meta_desc_length seo
        then ["Meta description too long (> 160 chars)"]
   else [])
  ++ (let n := dict_get (headers seo) "h1" 0 in
      if n =? 0 then ["Missing H1 tag"]
      else if 1 <? n then [("Multiple H1 tags (" ++ str n ++ ")")%string]
      else [])
  ++ (if 0 <? without_alt (images seo)
      then [(str (without_alt (images seo)) ++ " images missing alt text")%string]
      else []).

(** The state of the result when the technical analysis starts, for a
    fetched page whose SEO signals are [seo]. *)
Definition before_technical (env : Analyzer.Env) (url : string)
                            (response : Response) (seo : SeoAnalysis)
  : AnalysisResult :=
  check_schema_and_open_graph seo
    (check_images seo (check_headers seo (check_meta_description seo
       (check_title seo
          (set_seo_analysis
             (set_basic_info (initial_result env url)
                (Some (_analyze_basic_info response (elapsed response))))
             (Some seo)))))).

(** [Subsequence s l]: [s] is [l] with some elements removed, the others
    unchanged and in their order. *)
Inductive Subsequence {A : Type} : list A -> list A -> Prop :=
| Subsequence_nil : Subsequence [] []
| Subsequence_skip x s l : Subsequence s l -> Subsequence s (x :: l)
| Subsequence_keep x s l : Subsequence s l -> Subsequence (x :: s) (x :: l).

(** The address of the specification's example. *)
Definition sample_emails : list string :=
  [ "contact@acme.com"; "a1b2c3d4e5f6a1b2c3d4e5f6a1b2c3d4@acme.com";
    "noreply@acme.com"; "sales@acme.com" ].

(** The matches that pass the filter, in the order the set of matches is
    listed. *)
Definition passing (env : Analyzer.Env) (matches : list string) : list string :=
  filter (Utils.keeps Config.BLACKLIST_DOMAINS Config.BLACKLIST_EMAIL_PATTERNS)
         (list_of_set env matches).

(** [same_signals r r']: [r'] differs from [r] in its issues and
    recommendations at most. *)
Definition same_signals (r r' : AnalysisResult) : Prop :=
  Analyzer.url r' = Analyzer.url r
  /\ basic_info r' = basic_info r
  /\ seo_analysis r' = seo_analysis r
  /\ technical_seo r' = technical_seo r
  /\ open_graph r' = open_graph r
  /\ seo_score r' = seo_score r
  /\ score_breakdown r' = score_breakdown r
  /\ error r' = error r.

(** The statements of the [try] block that follow the SEO checks. *)
Definition after_checks (env : Analyzer.Env) (url : string)
                        (response : Response) : Stmt unit :=
  let soup := BeautifulSoup env (r_text response) in
  tech <~ call (_analyze_technical_seo soup url response) ;;
  _ <~ assign (fun r => set_technical_seo r tech) ;;
  _ <~ assign (fun r => set_content_quality r (Some (text_quality soup))) ;;
  _ <~ assign (fun r => set_open_graph r (og_tags soup)) ;;
  _ <~ assign (fun r =>
         set_emails r (_extract_emails env (email_matches soup))) ;;
  _ <~ assign (fun r => set_social_media r (social_links soup)) ;;
  _ <~ mutate (_check_important_files env url) ;;
  sb <~ read calculate_seo_score ;;
  assign (fun r => set_score_breakdown (set_seo_score r (fst sb)) (snd sb)).

(* ------------------------------------------------------------------ *)
(** ** The shape of one request's events *)
(* ------------------------------------------------------------------ *)

(** How a request ends. *)
Inductive Ending := Responded | NoResponse | Raised.

Definition ending_of {A} (out : Exc (option A)) : Ending :=
  match out with
  | Return (Some _) => Responded
  | Return None => NoResponse
  | Raise _ => Raised
  end.

(** [Pass n max prompt i r k events i' e]: from credential [i], with [r]
    retries and [k] rotations behind it, the loop over [n] credentials
    emits [events], leaves the index at [i'] and ends as [e]. *)
Inductive Pass (n max : nat) (prompt : string)
  : nat -> nat -> nat -> list AI.Event -> nat -> Ending -> Prop :=
| Pass_stop i r k :
    ~ (r < max /\ k < n)%nat ->
    Pass n max prompt i r k [] i NoResponse
| Pass_success i r k :
    (r < max)%nat -> (k < n)%nat ->
    Pass n max prompt i r k [AI.Attempt i prompt] i Responded
| Pass_rotate i r k events i' e :
    (r < max)%nat -> (k < n)%nat -> (1 < n)%nat ->
    Pass n max prompt (Nat.modulo (i + 1) n) r (S k) events i' e ->
    Pass n max prompt i r k
         (AI.Attempt i prompt :: AI.RateLimited i :: events) i' e
| Pass_exhausted i r k :
    (r < max)%nat -> (k < n)%nat -> (n <= 1)%nat ->
    Pass n max prompt i r k [AI.Attempt i prompt; AI.RateLimited i] i Raised
| Pass_retry i r k events i' e :
    (r < max)%nat -> (k < n)%nat -> (S r < max)%nat ->
    Pass n max prompt i (S r) k events i' e ->
    Pass n max prompt i r k
         (AI.Attempt i prompt :: AI.Failed i
          :: AI.Slept (2 ^ Z.of_nat (S r)) :: events) i' e
| Pass_give_up i r k :
    (r < max)%nat -> (k < n)%nat -> ~ (S r < max)%nat ->
    Pass n max prompt i r k [AI.Attempt i prompt; AI.Failed i] i Raised.

(** The credentials that were rate-limited, the pauses, and the number of
    other failures of a trace. *)
Fixpoint rate_limited (events : list AI.Event) : list nat :=
  match events with
  | [] => []
  | AI.RateLimited i :: rest => i :: rate_limited rest
  | _ :: rest => rate_limited rest
  end.

Fixpoint pauses (events : list AI.Event) : list Z :=
  match events with
  | [] => []
  | AI.Slept s :: rest => s :: pauses rest
  | _ :: rest => pauses rest
  end.

Fixpoint failures (events : list AI.Event) : nat :=
  match events with
  | [] => 0
  | AI.Failed _ :: rest => S (failures rest)
  | _ :: rest => failures rest
  end.

Fixpoint attempts (events : list AI.Event) : list (nat * string) :=
  match events with
  | [] => []
  | AI.Attempt i p :: rest => (i, p) :: attempts rest
  | _ :: rest => attempts rest
  end.

(** Every pause is twice the one before it. *)
Fixpoint doubling (l : list Z) : Prop :=
  match l with
  | a :: ((b :: _) as rest) => b = 2 * a /\ doubling rest
  | _ => True
  end.

(** What follows each event of a kind in a trace: [follows P events] when
    every event satisfying [is_ev] is last or followed by events starting
    as [P] says. *)
Fixpoint each_followed (is_ev : AI.Event -> option nat)
                       (next : nat -> list AI.Event -> Prop)
                       (events : list AI.Event) : Prop :=
  match events with
  | [] => True
  | ev :: rest =>
      match is_ev ev with
      | Some i => rest = [] \/ next i rest
      | None => True
      end /\ each_followed is_ev next rest
  end.

Definition is_rate_limited (ev : AI.Event) : option nat :=
  match ev with AI.RateLimited i => Some i | _ => None end.

Definition is_failed (ev : AI.Event) : option nat :=
  match ev with AI.Failed i => Some i | _ => None end.

(** The invariant of an initialised module. *)
Definition ready (m : AI.AIModule) : Prop :=
  AI.is_initialized m = true
  /\ (AI.current_key_index m < List.length (AI.gemini_models m))%nat.

(** A competitor URL the fallback may return for a seed whose registered
    domain is [own]: [https://] and a domain other than [own]. *)
Definition foreign (own c : string) : Prop :=
  exists d, c = ("https://" ++ d)%string /\ d <> own.

(* ------------------------------------------------------------------ *)
(** ** Definitions for the properties of the helpers *)
(* ------------------------------------------------------------------ *)

(** The dictionary that holds [v] under the path [keys], and nothing
    else. *)
Fixpoint nest (keys : list string) (v : json) : json :=
  match keys with
  | [] => v
  | key :: rest => JObj [(key, nest rest v)]
  end.

Definition is_dict (v : json) : bool :=
  match v with JObj _ => true | _ => false end.

(** A URL with a protocol, as [ensure_url_protocol] tests it. *)
Definition has_protocol (u : string) : bool :=
  startswith u "http://" || startswith u "https://".

(** One rotation of the credentials. *)
Definition rotate (m : AI.AIModule) : AI.AIModule := fst (AI.rotate_key m).

Fixpoint rotations (j : nat) (m : AI.AIModule) : AI.AIModule :=
  match j with
  | O => m
  | S j => rotate (rotations j m)
  end.


(** What the fallback has collected: one URL per domain found, in the
    order they were found. *)
Definition collected (found competitors : list string) : Prop :=
  competitors = map (String.append "https://") (rev found) /\ NoDup found.


(* ------------------------------------------------------------------ *)
(** ** Sample inputs *)
(* ------------------------------------------------------------------ *)

Module Sample.

(** A stand-in for [urllib.parse.urlparse] on inputs of the shape
    [scheme://host/path]: the scheme is what precedes the first [://], the
    network location runs to the next [/], [?] or [#]; a bracket that is
    not closed raises [ValueError], as urllib does. *)
Fixpoint until_delimiter (s : string) : string :=
  match s with
  | EmptyString => EmptyString
  | String c t =>
      if Ascii.eqb c "/" || Ascii.eqb c "?" || Ascii.eqb c "#"
      then EmptyString else String c (until_delimiter t)
  end.

Fixpoint split_scheme (s acc : string) : option (string * string) :=
  match s with
  | EmptyString => None
  | String c t =>
      if String.prefix "://" s then Some (acc, until_delimiter (String.substring 3 (String.length s) s))
      else split_scheme t (acc ++ String c EmptyString)%string
  end.

Definition urlparse (u : string) : Exc Utils.ParseResult :=
  match split_scheme u "" with
  | None => Return {| Utils.scheme := ""; Utils.netloc := "" |}
  | Some (s, n) =>
      if contains "[" n && negb (contains "]" n)
      then Raise (mk_exn ValueError "Invalid IPv6 URL")
      else Return {| Utils.scheme := s; Utils.netloc := n |}
  end.

Definition quality : ContentQuality :=
  {| word_count := Some 12; readability := [];
     cq_error := Some "Not enough content for analysis" |}.

(** A page with a 45-character title, a viewport tag and a language. *)
Definition page : Soup :=
  {| title_tag := Some "Acme Widgets: quality widgets for every home ";
     meta_description_tag := Some (Some "Widgets.");
     meta_keywords_tag := None;
     canonical_link := None;
     robots_meta_tag := None;
     find_all := fun name => if String.eqb name "h1" then ["Acme"] else [];
     img_tags := [ {| alt := None; src := Some "/a.png"; loading := None |} ];
     schema_markup := Return [];
     viewport_tag := Some (Some "width=device-width");
     html_tag := Some (Some "en");
     charset_tag := None;
     text_quality := quality;
     og_tags := [];
     email_matches := ["contact@acme.com"; "noreply@acme.com"];
     social_links := [] |}.

(** The same page without its viewport tag. *)
Definition page_without_viewport : Soup :=
  {| title_tag := title_tag page;
     meta_description_tag := meta_description_tag page;
     meta_keywords_tag := None; canonical_link := None;
     robots_meta_tag := None;
     find_all := find_all page; img_tags := img_tags page;
     schema_markup := Return [];
     viewport_tag := None;
     html_tag := html_tag page; charset_tag := None;
     text_quality := quality; og_tags := [];
     email_matches := email_matches page; social_links := [] |}.

Definition response (u body : string) (status : Z) : Response :=
  {| r_status_code := status; r_text := body; r_url := u; r_history := 0;
     r_content_length := 2048; r_encoding := Some "utf-8";
     elapsed := Qmake 1 2 |}.

(** A network with three hosts: [acme.com] answers (its [/robots.txt]
    exists, its [/sitemap.xml] does not), [slow.com] times out, everything
    else refuses the connection. *)
Definition requests_get (u : string) (timeout : Z) : Exc Response :=
  if String.eqb u "https://acme.com" then Return (response u "full" 200)
  else if String.eqb u "http://acme.com" then Return (response u "full" 200)
  else if String.eqb u "https://acme.com/bare" then Return (response u "bare" 200)
  else if String.eqb u "https://acme.com/robots.txt" then Return (response u "" 200)
  else if String.eqb u "https://acme.com/sitemap.xml" then Return (response u "" 404)
  else if String.prefix "https://slow.com" u
       then Raise (mk_exn ReadTimeout "Read timed out.")
  else Raise (mk_exn ConnectionError "Connection refused").

Definition env : Analyzer.Env :=
  {| format_timestamp := "2024-01-01 00:00:00";
     Analyzer.requests_get := requests_get;
     BeautifulSoup := fun body =>
       if String.eqb body "bare" then page_without_viewport else page;
     Analyzer.urlparse := urlparse;
     list_of_set := nodup string_dec |}.

(** SEO signals with a title of a given recorded length. *)
Definition signals (t : option string) (n : Z) : SeoAnalysis :=
  {| title := t; title_length := n;
     meta_description := None; meta_desc_length := 0;
     meta_keywords := None; canonical_url := None; robots_meta := None;
     headers := [("h1", 0)]; h1_text := [];
     images := {| total := 9; without_alt := 9; without_lazy_loading := 9 |};
     schema_types := []; has_schema := false |}.

Definition result_with (seo : SeoAnalysis) : AnalysisResult :=
  set_seo_analysis (initial_result env "http://acme.com") (Some seo).

(** A result on which every penalty applies: no title, no description, no
    H1, nine images without alt text, no HTTPS, no viewport, no robots.txt,
    no sitemap.xml and a load of six seconds. *)
Definition worst_result : AnalysisResult :=
  set_basic_info (result_with (signals None 0))
    (Some (_analyze_basic_info (response "http://acme.com" "" 200) (Qmake 6 1))).

End Sample.

Module SampleAI.

(** A module initialised with two keys. *)
Definition two_keys : AI.AIModule :=
  {| AI.gemini_models := [0%nat; 1%nat];
     AI.current_key_index := 0%nat;
     AI.is_initialized := true |}.

Definition fresh (m : AI.AIModule) : AI.Run :=
  {| AI.module := m; AI.calls := 0%nat; AI.trace := [] |}.

Definition not_initialized : AI.AIModule :=
  {| AI.gemini_models := []; AI.current_key_index := 0%nat;
     AI.is_initialized := false |}.

Definition answer (t : string) : Exc AI.GenResponse :=
  Return {| AI.text := Return t |}.

(** The first call is rate-limited, the second fails otherwise, the third
    answers with a list of four competitors. *)
Definition generate_content (call model : nat) (prompt : string)
  : Exc AI.GenResponse :=
  match call with
  | O => Raise (mk_exn (OtherError "ResourceExhausted")
                       "429 RATE_LIMIT_EXCEEDED")
  | S O => Raise (mk_exn (OtherError "ServiceUnavailable") "503 unavailable")
  | _ => answer "four competitors"
  end.

(** Every call is rate-limited. *)
Definition always_rate_limited (call model : nat) (prompt : string)
  : Exc AI.GenResponse :=
  Raise (mk_exn (OtherError "ResourceExhausted") "429 RATE_LIMIT_EXCEEDED").

Definition competitor (u : string) : json :=
  JObj [("url", JStr u); ("reason", JStr "same market")].

Definition json_loads (t : string) : Exc json :=
  if String.eqb t "four competitors" then
    Return (JObj [("competitors",
                   JArr [ competitor "https://a.com"; competitor "b.com";
                          competitor "http://c.com"; competitor "d.com" ])])
  else Raise (mk_exn JSONDecodeError "Expecting value").

(** A stand-in for [tldextract.extract]: the last two labels of the host. *)
Definition extract (u : string) : Exc AI.ExtractResult :=
  match Sample.urlparse u with
  | Raise e => Raise e
  | Return p =>
      match rev (split "."%char (Utils.netloc p)) with
      | sfx :: dom :: _ => Return {| AI.domain := dom; AI.suffix := sfx |}
      | _ => Return {| AI.domain := ""; AI.suffix := "" |}
      end
  end.

(** A search that finds the seed itself, one site twice and three others,
    and fails on the second query. *)
Definition search (query : string) : list string * option exn :=
  if String.eqb query "acme competitors" then
    ([ "https://www.acme.com/about"; "https://widgets.io/";
       "https://shop.widgets.io/x"; "https://gadgets.net/";
       "https://things.org/"; "https://more.dev/" ], None)
  else ([], Some (mk_exn (OtherError "HTTPError") "429 Too Many Requests")).

Definition env (gen : nat -> nat -> string -> Exc AI.GenResponse)
               (search_available : bool) : AI.Env :=
  {| AI.GOOGLE_SEARCH_AVAILABLE := search_available;
     AI.generate_content := gen;
     AI.json_loads := json_loads;
     AI.strip_code_fences := fun t => t;
     AI.extract := extract;
     AI.search := search;
     AI.urlparse := Sample.urlparse |}.

(** Two requests starting on a module with two keys, as two seeds with
    the competitor search enabled start them. *)
Definition two_requests : AI.Threads :=
  {| AI.request_a := AI.start two_keys "competitors of a.com" 3;
     AI.request_b := AI.start two_keys "competitors of b.com" 3;
     AI.shared := fresh two_keys |}.

End SampleAI.

Module SampleApp.

Definition env : App.Env :=
  {| App.analyzer_env := Sample.env;
     App.ai_env := SampleAI.env SampleAI.generate_content true |}.

(** The input box holding the same site on two lines. *)
Definition same_site_twice : string :=
  ("acme.com" ++ newline ++ "acme.com")%string.

(** Two distinct sites: the first answers, the second times out. *)
Definition two_sites : string :=
  ("acme.com" ++ newline ++ "slow.com")%string.

End SampleApp.

(* ================================================================== *)
(** * Properties *)
(* ================================================================== *)

(* ------------------------------------------------------------------ *)
(** ** The scorer *)
(* ------------------------------------------------------------------ *)

Section Scorer.

Lemma sum_deltas_app (a b : list (string * Z)) :
  sum_deltas (a ++ b) = sum_deltas a + sum_deltas b.
Proof.
  induction a as [|x a IH]; simpl.
  - reflexivity.
  - unfold sum_deltas in *. simpl. rewrite IH. lia.
Qed.


Lemma lowers_refl st bound : 0 <= bound -> lowers bound st st.
Proof. intros; exists 0; repeat split; lia. Qed.

Lemma lowers_penalize st label p bound :
  0 <= p <= bound -> lowers bound st (penalize st label p).
Proof.
  intros; exists p; repeat split; try lia.
  unfold penalize; simpl. rewrite sum_deltas_app. unfold sum_deltas; simpl. lia.
Qed.

Lemma lowers_trans b1 b2 st1 st2 st3 :
  lowers b1 st1 st2 -> lowers b2 st2 st3 -> lowers (b1 + b2) st1 st3.
Proof.
  intros (d1 & ? & ? & ?) (d2 & ? & ? & ?).
  exists (d1 + d2); repeat split; lia.
Qed.

Lemma lowers_if (c : bool) st label p :
  0 <= p -> lowers p st (if c then penalize st label p else st).
Proof.
  intros; destruct c; [apply lowers_penalize | apply lowers_refl]; lia.
Qed.

Create HintDb score.
#[local] Hint Resolve lowers_refl lowers_penalize : score.

Lemma title_penalties_lowers seo st : lowers 15 st (title_penalties seo st).
Proof.
  unfold title_penalties.
  repeat match goal with |- context [if ?c then _ else _] => destruct c end;
    auto with score zarith.
Qed.

Lemma meta_description_penalties_lowers seo st :
  lowers 10 st (meta_description_penalties seo st).
Proof.
  unfold meta_description_penalties.
  repeat match goal with |- context [if ?c then _ else _] => destruct c end;
    auto with score zarith.
Qed.

Lemma h1_penalties_lowers seo st : lowers 10 st (h1_penalties seo st).
Proof.
  unfold h1_penalties; cbv zeta.
  repeat match goal with |- context [if ?c then _ else _] => destruct c end;
    auto with score zarith.
Qed.

Lemma image_penalties_lowers seo st : lowers 10 st (image_penalties seo st).
Proof.
  unfold image_penalties.
  destruct (without_alt (images seo) >? 0) eqn:E.
  - apply lowers_penalize. lia.
  - apply lowers_refl; lia.
Qed.

Lemma technical_penalties_lowers result st :
  lowers 30 st (technical_penalties result st).
Proof.
  unfold technical_penalties; cbv zeta.
  change 30 with (10 + (10 + (5 + 5))).
  eapply lowers_trans; [apply lowers_if; lia|].
  eapply lowers_trans; [apply lowers_if; lia|].
  eapply lowers_trans; [apply lowers_if; lia|].
  apply lowers_if; lia.
Qed.

Lemma performance_penalties_lowers result st :
  lowers 10 st (performance_penalties result st).
Proof.
  unfold performance_penalties.
  destruct (_ <? _); auto with score zarith.
Qed.


Lemma after_penalties_lowers result seo :
  exists d, 0 <= d <= 85
            /\ score (after_penalties result seo) = 100 - d
            /\ sum_deltas (penalties (after_penalties result seo)) = - d.
Proof.
  assert (L : lowers 85 {| score := 100; penalties := [] |}
                     (after_penalties result seo)).
  { unfold after_penalties.
    change 85 with (15 + (10 + (10 + (10 + (30 + 10))))).
    eapply lowers_trans; [apply title_penalties_lowers|].
    eapply lowers_trans; [apply meta_description_penalties_lowers|].
    eapply lowers_trans; [apply h1_penalties_lowers|].
    eapply lowers_trans; [apply image_penalties_lowers|].
    eapply lowers_trans; [apply technical_penalties_lowers|].
    apply performance_penalties_lowers. }
  destruct L as (d & Hd & Hs & Hp).
  exists d. repeat split; try lia.
  - exact Hs.
  - rewrite Hp. reflexivity.
Qed.

Lemma calculate_seo_score_unfold result seo :
  seo_analysis result = Some seo ->
  calculate_seo_score result =
  Return (Z.max 0 (score (schema_bonus seo (after_penalties result seo))),
          penalties (schema_bonus seo (after_penalties result seo))).
Proof. intros H. unfold calculate_seo_score. rewrite H. reflexivity. Qed.

(** The score never goes below 15: the penalties add up to 85 at most. *)
Lemma calculate_seo_score_at_least_15 result seo s b :
  seo_analysis result = Some seo ->
  calculate_seo_score result = Return (s, b) -> 15 <= s.
Proof.
  intros H E. rewrite (calculate_seo_score_unfold _ _ H) in E.
  inversion E; subst; clear E.
  destruct (after_penalties_lowers result seo) as (d & Hd & Hs & _).
  unfold schema_bonus. destruct (has_schema seo); cbn [score]; lia.
Qed.

(** The scorer returns on populated signals, with a score from 15 to 100. *)
Lemma calculate_seo_score_range result seo :
  seo_analysis result = Some seo ->
  exists s b, calculate_seo_score result = Return (s, b) /\ 15 <= s <= 100.
Proof.
  intros H. rewrite (calculate_seo_score_unfold _ _ H).
  eexists. eexists. split; [reflexivity|].
  destruct (after_penalties_lowers result seo) as (d & Hd & Hs & _).
  unfold schema_bonus. destruct (has_schema seo); cbn [score]; lia.
Qed.

End Scorer.

(** C1.  For every analysis result whose SEO signals are populated,
    [calculate_seo_score] returns a pair [(score, breakdown)] with
    [score = max(0, min(100, 100 + sum of the deltas of breakdown))]; the
    function reads nothing but its argument, and the score lies in
    [0, 100]. *)
Theorem calculate_seo_score_clamped (result : AnalysisResult) (seo : SeoAnalysis) :
  seo_analysis result = Some seo ->
  exists s breakdown,
    calculate_seo_score result = Return (s, breakdown)
    /\ s = Z.max 0 (Z.min 100 (100 + sum_deltas breakdown))
    /\ 0 <= s <= 100.
Proof.
  intros H. rewrite (calculate_seo_score_unfold _ _ H).
  eexists; eexists; split; [reflexivity|].
  destruct (after_penalties_lowers result seo) as (d & Hd & Hs & Hp).
  unfold schema_bonus. destruct (has_schema seo); cbn [score penalties].
  - rewrite sum_deltas_app, Hs, Hp.
    change (sum_deltas [("Has Schema markup", 5)]) with 5. lia.
  - rewrite Hs, Hp. lia.
Qed.

Lemma calculate_seo_score_clamped_witness :
  exists s breakdown,
    calculate_seo_score (Sample.result_with (Sample.signals None 0))
    = Return (s, breakdown)
    /\ s = Z.max 0 (Z.min 100 (100 + sum_deltas breakdown))
    /\ 0 <= s <= 100.
Proof.
  apply (calculate_seo_score_clamped
           (Sample.result_with (Sample.signals None 0))
           (Sample.signals None 0)).
  reflexivity.
Defined.


Section RubricRefinement.

Lemma penalties_penalize st label p :
  penalties (penalize st label p) = penalties st ++ [(label, - p)].
Proof. reflexivity. Qed.

Lemma penalties_if (c : bool) st label p :
  penalties (if c then penalize st label p else st)
  = penalties st ++ Rubric.when c label (- p).
Proof. destruct c; simpl; [reflexivity | now rewrite app_nil_r]. Qed.

Lemma title_penalties_deltas seo st :
  penalties (title_penalties seo st) = penalties st ++ Rubric.title_deltas seo.
Proof.
  unfold title_penalties, Rubric.title_deltas.
  rewrite (Z.gtb_ltb (title_length seo) 60).
  repeat match goal with |- context [if ?c then _ else _] => destruct c end;
    simpl; rewrite ?app_nil_r; reflexivity.
Qed.

Lemma meta_description_penalties_deltas seo st :
  penalties (meta_description_penalties seo st)
  = penalties st ++ Rubric.meta_deltas seo.
Proof.
  unfold meta_description_penalties, Rubric.meta_deltas.
  rewrite (Z.gtb_ltb (meta_desc_length seo) 160).
  repeat match goal with |- context [if ?c then _ else _] => destruct c end;
    simpl; rewrite ?app_nil_r; reflexivity.
Qed.

Lemma h1_penalties_deltas seo st :
  penalties (h1_penalties seo st) = penalties st ++ Rubric.h1_deltas seo.
Proof.
  unfold h1_penalties, Rubric.h1_deltas; cbv zeta.
  rewrite (Z.gtb_ltb (dict_get (headers seo) "h1" 0) 1).
  repeat match goal with |- context [if ?c then _ else _] => destruct c end;
    simpl; rewrite ?app_nil_r; reflexivity.
Qed.

Lemma image_penalties_deltas seo st :
  penalties (image_penalties seo st) = penalties st ++ Rubric.image_deltas seo.
Proof.
  unfold image_penalties, Rubric.image_deltas; cbv zeta.
  rewrite (Z.gtb_ltb (without_alt (images seo)) 0).
  destruct (0 <? without_alt (images seo)).
  - rewrite penalties_penalize. do 3 f_equal. lia.
  - now rewrite app_nil_r.
Qed.

Lemma technical_penalties_deltas result st :
  penalties (technical_penalties result st)
  = penalties st
    ++ Rubric.when (negb (truthy_bool (https (technical_seo result))))
                   "Not using HTTPS" (-10)
    ++ Rubric.when (negb (truthy (viewport (technical_seo result))))
                   "Not mobile-friendly" (-10)
    ++ Rubric.when (negb (truthy_bool (robots_txt (technical_seo result))))
                   "Missing robots.txt" (-5)
    ++ Rubric.when (negb (truthy_bool (sitemap_xml (technical_seo result))))
                   "Missing sitemap.xml" (-5).
Proof.
  unfold technical_penalties; cbv zeta.
  rewrite !penalties_if, <- !app_assoc. reflexivity.
Qed.

Lemma breakdown_is_rubric result seo :
  penalties (schema_bonus seo (after_penalties result seo))
  = Rubric.deltas result seo.
Proof.
  unfold Rubric.deltas; cbv zeta.
  assert (S : forall st, penalties (schema_bonus seo st)
                         = penalties st ++ Rubric.when (has_schema seo)
                                                       "Has Schema markup" 5).
  { intros st. unfold schema_bonus. destruct (has_schema seo); simpl;
      [reflexivity | now rewrite app_nil_r]. }
  rewrite S. unfold after_penalties, performance_penalties.
  rewrite penalties_if, technical_penalties_deltas, image_penalties_deltas,
    h1_penalties_deltas, meta_description_penalties_deltas,
    title_penalties_deltas.
  cbn [penalties app]. rewrite <- !app_assoc. reflexivity.
Qed.

End RubricRefinement.

Section TitleBanding.

Lemma last_char_app (a b : string) :
  b <> EmptyString -> last_char (a ++ b) = last_char b.
Proof.
  intros Hb. induction a as [|c a IH]; [reflexivity|].
  change (last_char (String c (a ++ b)) = last_char b).
  simpl. destruct (a ++ b)%string eqn:E.
  - destruct a; simpl in E; [congruence | discriminate].
  - exact IH.
Qed.

Lemma issues_flag r i c : issues (flag r i c) = issues r ++ [i].
Proof. reflexivity. Qed.

Lemma issues_append_recommendation r c :
  issues (append_recommendation r c) = issues r.
Proof. reflexivity. Qed.

Lemma check_title_issues seo r :
  issues (check_title seo r)
  = issues r ++
    (if negb (truthy (title seo)) then ["Missing title tag"]
     else if title_length seo <? 30 then ["Title too short (< 30 chars)"]
     else if 60 <? title_length seo then ["Title too long (> 60 chars)"]
     else []).
Proof.
  unfold check_title. rewrite (Z.gtb_ltb (title_length seo) 60).
  repeat match goal with |- context [if ?c then _ else _] => destruct c end;
    rewrite ?issues_flag, ?app_nil_r; reflexivity.
Qed.

Lemma later_checks_issues seo r :
  issues (check_schema_and_open_graph seo
            (check_images seo (check_headers seo
               (check_meta_description seo r))))
  = issues r ++ later_issues seo.
Proof.
  unfold check_schema_and_open_graph, check_images, check_headers,
    check_meta_description, later_issues; cbv zeta.
  rewrite (Z.gtb_ltb (meta_desc_length seo) 160),
    (Z.gtb_ltb (dict_get (headers seo) "h1" 0) 1),
    (Z.gtb_ltb (without_alt (images seo)) 0).
  repeat match goal with |- context [if ?c then _ else _] => destruct c end;
    repeat (rewrite ?issues_append_recommendation, ?issues_flag);
    cbn [app]; rewrite <- ?app_assoc, ?app_nil_r; reflexivity.
Qed.

Lemma later_issues_not_title seo i :
  In i (later_issues seo) -> ~ In i Rubric.title_issues.
Proof.
  unfold later_issues, Rubric.title_issues; cbv zeta.
  intros H T. apply in_app_or in H. destruct H as [H | H].
  - repeat match type of H with context [if ?c then _ else _] => destruct c end;
      simpl in H, T; intuition (subst; discriminate).
  - apply in_app_or in H. destruct H as [H | H].
    + repeat match type of H with context [if ?c then _ else _] => destruct c end;
        simpl in H, T; intuition (subst; discriminate).
    + destruct (0 <? without_alt (images seo)); [|contradiction].
      destruct H as [H | []]. subst i.
      assert (L : last_char (str (without_alt (images seo))
                             ++ " images missing alt text")
                  = Some "t"%char).
      { rewrite last_char_app; [reflexivity | discriminate]. }
      destruct T as [T | [T | [T | []]]];
        rewrite <- T in L; discriminate L.
Qed.

End TitleBanding.

(** C2.  [calculate_seo_score] starts at 100 and applies exactly the
    deltas of the rubric, in its order: the breakdown it returns is the
    rubric's list and the score is the rubric's total.  [_check_seo_issues]
    appends the title issue of the same band first and no other title
    issue: a title of length 10 gets "too short" and -5, length 45 nothing,
    length 90 "too long" and -5, an absent title "missing" and -15 whatever
    the recorded length. *)
Theorem calculate_seo_score_rubric (result : AnalysisResult) (seo : SeoAnalysis) :
  seo_analysis result = Some seo ->
  calculate_seo_score result
  = Return (Rubric.total result seo, Rubric.deltas result seo)
  /\ exists result' band,
       _check_seo_issues result = Return result'
       /\ issues result' = issues result ++ band ++ later_issues seo
       /\ (forall i, In i (later_issues seo) -> ~ In i Rubric.title_issues)
       /\ (truthy (title seo) = true -> title_length seo = 10 ->
           band = ["Title too short (< 30 chars)"]
           /\ Rubric.title_deltas seo = [("Title too short", -5)])
       /\ (truthy (title seo) = true -> title_length seo = 45 ->
           band = [] /\ Rubric.title_deltas seo = [])
       /\ (truthy (title seo) = true -> title_length seo = 90 ->
           band = ["Title too long (> 60 chars)"]
           /\ Rubric.title_deltas seo = [("Title too long", -5)])
       /\ (truthy (title seo) = false ->
           band = ["Missing title tag"]
           /\ Rubric.title_deltas seo = [("Missing title tag", -15)]).
Proof.
  intros H. split.
  - rewrite (calculate_seo_score_unfold _ _ H).
    unfold Rubric.total. rewrite <- breakdown_is_rubric.
    do 2 f_equal.
    destruct (after_penalties_lowers result seo) as (d & Hd & Hs & Hp).
    unfold schema_bonus. destruct (has_schema seo); cbn [score penalties].
    + rewrite sum_deltas_app, Hs, Hp.
      change (sum_deltas [("Has Schema markup", 5)]) with 5. lia.
    + rewrite Hs, Hp. lia.
  - unfold _check_seo_issues. rewrite H.
    eexists. eexists. split; [reflexivity|].
    split; [|split; [apply later_issues_not_title|]].
    + rewrite later_checks_issues, check_title_issues, <- app_assoc.
      reflexivity.
    + unfold Rubric.title_deltas.
      split; [|split; [|split]].
      * intros T L. rewrite T, L. split; reflexivity.
      * intros T L. rewrite T, L. split; reflexivity.
      * intros T L. rewrite T, L. split; reflexivity.
      * intros T. rewrite T. split; reflexivity.
Qed.

Lemma calculate_seo_score_rubric_witness :
  calculate_seo_score (Sample.result_with (Sample.signals (Some "Acme shop.") 10))
  = Return (Rubric.total (Sample.result_with (Sample.signals (Some "Acme shop.") 10))
                         (Sample.signals (Some "Acme shop.") 10),
            Rubric.deltas (Sample.result_with (Sample.signals (Some "Acme shop.") 10))
                          (Sample.signals (Some "Acme shop.") 10)).
Proof.
  apply (calculate_seo_score_rubric
           (Sample.result_with (Sample.signals (Some "Acme shop.") 10))
           (Sample.signals (Some "Acme shop.") 10)).
  reflexivity.
Defined.

(** The input that triggers every penalty scores 15. *)
Example every_penalty_scores_15 :
  calculate_seo_score Sample.worst_result
  = Return (15, [ ("Missing title tag", -15); ("Missing meta description", -10);
                  ("Missing H1 tag", -10); ("9 images without alt text", -10);
                  ("Not using HTTPS", -10); ("Not mobile-friendly", -10);
                  ("Missing robots.txt", -5); ("Missing sitemap.xml", -5);
                  ("Slow load time", -10) ]).
Proof. vm_compute. reflexivity. Qed.

(* ------------------------------------------------------------------ *)
(** ** The site analyzer *)
(* ------------------------------------------------------------------ *)

Section SiteAnalyzer.

Variable env : Analyzer.Env.
Variable url : string.

Lemma try_block_fetch_raises e :
  requests_get env url 30 = Raise e ->
  try_block env url (initial_result env url) = (initial_result env url, Raise e).
Proof.
  intros H. unfold try_block, then_, call. rewrite H. reflexivity.
Qed.

Lemma analyze_website_cases :
  (exists result, try_block env url (initial_result env url) = (result, Return tt)
                  /\ analyze_website env url = Return result)
  \/ (exists result e,
        try_block env url (initial_result env url) = (result, Raise e)
        /\ analyze_website env url =
           Return (if isinstance_Timeout e then
                     fail_with result "Website took too long to respond"
                               "Timeout error"
                   else if isinstance_ConnectionError e then
                     fail_with result "Could not connect to website"
                               "Connection error"
                   else fail_with result (exn_msg e)
                                  ("Analysis error: " ++ exn_msg e)%string)).
Proof.
  unfold analyze_website.
  destruct (try_block env url (initial_result env url)) as [result [[]|e]].
  - left. eauto.
  - right. exists result, e. split; [reflexivity|].
    destruct (isinstance_Timeout e); [reflexivity|].
    destruct (isinstance_ConnectionError e); reflexivity.
Qed.

(** [_analyze_technical_seo] returns only for a page with a viewport tag
    and a language, fetched over HTTPS; otherwise it raises [NameError]. *)
Lemma _analyze_technical_seo_cases soup response :
  (is_some (viewport_tag soup)
   && truthy (match html_tag soup with Some l => l | None => None end)
   && startswith url "https://" = true
   /\ exists tech, _analyze_technical_seo soup url response = Return tech
                   /\ robots_txt tech = None /\ sitemap_xml tech = None
                   /\ https tech = Some true)
  \/ (is_some (viewport_tag soup)
      && truthy (match html_tag soup with Some l => l | None => None end)
      && startswith url "https://" = false
      /\ _analyze_technical_seo soup url response = Raise (name_error "result")).
Proof.
  unfold _analyze_technical_seo, report_on_unbound_result, unbound.
  destruct (viewport_tag soup) as [v|]; cbn [is_some negb andb bind];
    [|right; split; reflexivity].
  destruct (truthy _); cbn [negb andb bind]; [|right; split; reflexivity].
  destruct (startswith url "https://"); cbn [negb andb bind];
    [|right; split; reflexivity].
  left. split; [reflexivity|]. eexists. split; [reflexivity|].
  repeat split.
Qed.

Lemma before_technical_issues response seo :
  issues (before_technical env url response seo)
  = (if negb (truthy (title seo)) then ["Missing title tag"]
     else if title_length seo <? 30 then ["Title too short (< 30 chars)"]
     else if 60 <? title_length seo then ["Title too long (> 60 chars)"]
     else []) ++ later_issues seo.
Proof.
  unfold before_technical.
  rewrite later_checks_issues, check_title_issues. reflexivity.
Qed.

(** Flagging and the checks leave the other keys alone. *)
Lemma same_signals_refl r : same_signals r r.
Proof. repeat split. Qed.

Lemma same_signals_trans r1 r2 r3 :
  same_signals r1 r2 -> same_signals r2 r3 -> same_signals r1 r3.
Proof.
  unfold same_signals. intros H1 H2.
  decompose [and] H1. decompose [and] H2.
  repeat split; congruence.
Qed.

Lemma same_signals_flag r i c : same_signals r (flag r i c).
Proof. repeat split. Qed.

Lemma same_signals_append_recommendation r c :
  same_signals r (append_recommendation r c).
Proof. repeat split. Qed.

Create HintDb signals.
#[local] Hint Resolve same_signals_refl same_signals_flag
  same_signals_append_recommendation : signals.

Lemma check_title_same seo r : same_signals r (check_title seo r).
Proof.
  unfold check_title.
  repeat match goal with |- context [if ?c then _ else _] => destruct c end;
    auto with signals.
Qed.

Lemma check_meta_description_same seo r :
  same_signals r (check_meta_description seo r).
Proof.
  unfold check_meta_description.
  repeat match goal with |- context [if ?c then _ else _] => destruct c end;
    auto with signals.
Qed.

Lemma check_headers_same seo r : same_signals r (check_headers seo r).
Proof.
  unfold check_headers; cbv zeta.
  repeat match goal with |- context [if ?c then _ else _] => destruct c end;
    auto with signals.
Qed.

Lemma check_images_same seo r : same_signals r (check_images seo r).
Proof.
  unfold check_images; cbv zeta.
  destruct (without_alt (images seo) >? 0);
    destruct (without_lazy_loading (images seo) >? 5);
    first [ solve [auto with signals]
          | eapply same_signals_trans;
            [apply same_signals_flag
            |apply same_signals_append_recommendation] ].
Qed.

Lemma check_schema_and_open_graph_same seo r :
  same_signals r (check_schema_and_open_graph seo r).
Proof.
  unfold check_schema_and_open_graph; cbv zeta.
  destruct (negb (has_schema seo)).
  - destruct (negb (nonempty (open_graph (append_recommendation r _))));
      first [ solve [auto with signals]
            | eapply same_signals_trans;
              apply same_signals_append_recommendation ].
  - destruct (negb (nonempty (open_graph r))); auto with signals.
Qed.

Lemma before_technical_keeps response seo :
  let r := before_technical env url response seo in
  seo_analysis r = Some seo /\ seo_score r = None
  /\ score_breakdown r = None /\ error r = None
  /\ technical_seo r = empty_technical_seo
  /\ Analyzer.url r = url
  /\ basic_info r = Some (_analyze_basic_info response (elapsed response)).
Proof.
  cbv zeta. unfold before_technical.
  set (r0 := set_seo_analysis _ _).
  assert (S : same_signals r0
                (check_schema_and_open_graph seo
                   (check_images seo (check_headers seo
                      (check_meta_description seo (check_title seo r0)))))).
  { eapply same_signals_trans; [apply check_title_same|].
    eapply same_signals_trans; [apply check_meta_description_same|].
    eapply same_signals_trans; [apply check_headers_same|].
    eapply same_signals_trans; [apply check_images_same|].
    apply check_schema_and_open_graph_same. }
  destruct S as (Su & Sb & Ss & St & _ & Sc & Sk & Se).
  rewrite Ss, Sc, Sk, Se, St, Su, Sb. subst r0. repeat split.
Qed.

Lemma try_block_technical_raises response seo e :
  requests_get env url 30 = Return response ->
  _analyze_seo (BeautifulSoup env (r_text response)) = Return seo ->
  _analyze_technical_seo (BeautifulSoup env (r_text response)) url response
  = Raise e ->
  try_block env url (initial_result env url)
  = (before_technical env url response seo, Raise e).
Proof.
  intros Hf Hs Ht. unfold try_block, then_, call, assign, mutate.
  rewrite Hf, Hs. unfold _check_seo_issues.
  cbn [set_seo_analysis seo_analysis]. rewrite Ht. reflexivity.
Qed.

Lemma try_block_after_checks response seo :
  requests_get env url 30 = Return response ->
  _analyze_seo (BeautifulSoup env (r_text response)) = Return seo ->
  try_block env url (initial_result env url)
  = after_checks env url response (before_technical env url response seo).
Proof.
  intros Hf Hs. unfold try_block, then_, call, assign, mutate.
  rewrite Hf, Hs. reflexivity.
Qed.

Lemma analyze_website_name_error response seo :
  requests_get env url 30 = Return response ->
  _analyze_seo (BeautifulSoup env (r_text response)) = Return seo ->
  is_some (viewport_tag (BeautifulSoup env (r_text response)))
  && truthy (match html_tag (BeautifulSoup env (r_text response)) with
             | Some l => l | None => None end)
  && startswith url "https://" = false ->
  analyze_website env url
  = Return (fail_with (before_technical env url response seo)
                      "name 'result' is not defined"
                      "Analysis error: name 'result' is not defined").
Proof.
  intros Hf Hs Hc.
  destruct (_analyze_technical_seo_cases (BeautifulSoup env (r_text response))
              response) as [[Hc' _] | [_ Ht]]; [congruence|].
  unfold analyze_website.
  rewrite (try_block_technical_raises _ _ _ Hf Hs Ht). reflexivity.
Qed.

Lemma try_block_succeeds response seo p :
  requests_get env url 30 = Return response ->
  _analyze_seo (BeautifulSoup env (r_text response)) = Return seo ->
  is_some (viewport_tag (BeautifulSoup env (r_text response)))
  && truthy (match html_tag (BeautifulSoup env (r_text response)) with
             | Some l => l | None => None end)
  && startswith url "https://" = true ->
  Analyzer.urlparse env url = Return p ->
  exists result s b,
    try_block env url (initial_result env url) = (result, Return tt)
    /\ Analyzer.url result = url
    /\ error result = None
    /\ seo_score result = Some s /\ 15 <= s <= 100
    /\ score_breakdown result = Some b
    /\ seo_analysis result = Some seo
    /\ basic_info result
       = Some (_analyze_basic_info response (elapsed response))
    /\ exists rb sm, robots_txt (technical_seo result) = Some rb
                     /\ sitemap_xml (technical_seo result) = Some sm.
Proof.
  intros Hf Hs Hc Hp.
  destruct (_analyze_technical_seo_cases (BeautifulSoup env (r_text response))
              response) as [[_ (tech & Ht & _)] | [Hc' _]]; [|congruence].
  rewrite (try_block_after_checks _ _ Hf Hs).
  destruct (before_technical_keeps response seo)
    as (Kseo & _ & _ & Kerr & _ & Kurl & Kbi).
  generalize dependent (before_technical env url response seo). intros r1.
  intros Kseo Kerr Kurl Kbi.
  unfold after_checks, then_, call, assign, mutate, read.
  rewrite Ht. unfold _check_important_files. rewrite Hp. cbn [bind].
  cbn [technical_seo set_technical_seo robots_txt sitemap_xml set_robots_txt
       set_sitemap_xml set_content_quality set_open_graph set_emails
       set_social_media truthy_bool].
  destruct (file_present env _); destruct (file_present env _);
    cbn [negb];
    match goal with
    | |- context [calculate_seo_score ?r] => set (r4 := r)
    end;
    assert (Hseo : seo_analysis r4 = Some seo) by (subst r4; exact Kseo);
    destruct (calculate_seo_score_range r4 seo Hseo) as (s & b & E & Hlo);
    rewrite E;
    exists (set_score_breakdown (set_seo_score r4 s) b), s, b;
    (split; [reflexivity|]);
    repeat split; try assumption; try lia;
    eexists; eexists; split; reflexivity.
Qed.

End SiteAnalyzer.

(** C3.  [analyze_website] never raises: for every environment and URL it
    returns a result.  When the fetch times out the result carries the
    timeout message as [error], score 0 and the single issue
    "Timeout error"; when the connection fails, the same with the
    connection message; on any other exception raised in the [try] block
    the exception's message is the [error], the score is 0, and the issue
    naming the message is appended last. *)
Theorem analyze_website_never_raises (env : Analyzer.Env) (url : string) :
  exists result,
    analyze_website env url = Return result
    /\ (forall e, requests_get env url 30 = Raise e ->
                  isinstance_Timeout e = true ->
                  error result = Some "Website took too long to respond"
                  /\ seo_score result = Some 0
                  /\ issues result = ["Timeout error"])
    /\ (forall e, requests_get env url 30 = Raise e ->
                  isinstance_Timeout e = false ->
                  isinstance_ConnectionError e = true ->
                  error result = Some "Could not connect to website"
                  /\ seo_score result = Some 0
                  /\ issues result = ["Connection error"])
    /\ (forall partial e,
          try_block env url (initial_result env url) = (partial, Raise e) ->
          isinstance_Timeout e = false ->
          isinstance_ConnectionError e = false ->
          error result = Some (exn_msg e)
          /\ seo_score result = Some 0
          /\ issues result
             = issues partial ++ [("Analysis error: " ++ exn_msg e)%string]).
Proof.
  destruct (analyze_website_cases env url)
    as [(result & Ht & Ha) | (result & e & Ht & Ha)].
  - exists result. split; [exact Ha|].
    split; [|split].
    + intros e He _. rewrite (try_block_fetch_raises _ _ _ He) in Ht.
      discriminate.
    + intros e He _ _. rewrite (try_block_fetch_raises _ _ _ He) in Ht.
      discriminate.
    + intros partial e He. rewrite Ht in He. discriminate.
  - eexists. split; [exact Ha|].
    split; [|split].
    + intros e' He T. rewrite (try_block_fetch_raises _ _ _ He) in Ht.
      inversion Ht; subst. rewrite T. repeat split.
    + intros e' He T C. rewrite (try_block_fetch_raises _ _ _ He) in Ht.
      inversion Ht; subst. rewrite T, C. repeat split.
    + intros partial e' He T C. rewrite Ht in He.
      inversion He; subst. rewrite T, C. repeat split.
Qed.

(** C4, at a page that is fetched successfully over HTTPS and has no
    viewport tag: the analysis stops in [_analyze_technical_seo] with a
    [NameError]; the result carries that error and score 0, no breakdown,
    no technical signals, and not the viewport issue. *)
Theorem analyze_website_missing_viewport_is_error :
  exists result,
    analyze_website Sample.env "https://acme.com/bare" = Return result
    /\ requests_get Sample.env "https://acme.com/bare" 30
       = Return (Sample.response "https://acme.com/bare" "bare" 200)
    /\ error result = Some "name 'result' is not defined"
    /\ seo_score result = Some 0
    /\ score_breakdown result = None
    /\ technical_seo result = empty_technical_seo
    /\ ~ In "Missing viewport meta tag (not mobile-friendly)" (issues result)
    /\ issues result
       = [ "Meta description too short (< 120 chars)";
           "1 images missing alt text";
           "Analysis error: name 'result' is not defined" ].
Proof.
  eexists. split; [vm_compute; reflexivity|].
  repeat split.
  simpl. intros [H | [H | [H | []]]]; discriminate H.
Qed.

(** The same over plain HTTP, on a page that has a viewport tag and a
    language. *)
Example analyze_website_http_is_error :
  exists result,
    analyze_website Sample.env "http://acme.com" = Return result
    /\ error result = Some "name 'result' is not defined"
    /\ seo_score result = Some 0
    /\ ~ In "Not using HTTPS" (issues result).
Proof.
  eexists. split; [vm_compute; reflexivity|].
  repeat split.
  simpl. intros [H | [H | [H | []]]]; discriminate H.
Qed.

(** A page with a viewport tag and a language, fetched over HTTPS, is
    analysed to the end. *)
Example analyze_website_full_page :
  exists result,
    analyze_website Sample.env "https://acme.com" = Return result
    /\ error result = None
    /\ seo_score result = Some 88
    /\ issues result = [ "Meta description too short (< 120 chars)";
                         "1 images missing alt text";
                         "No sitemap.xml file found" ]
    /\ emails result = ["contact@acme.com"].
Proof.
  eexists. split; [vm_compute; reflexivity|]. repeat split.
Qed.

(* ------------------------------------------------------------------ *)
(** ** E-mail filtering *)
(* ------------------------------------------------------------------ *)

Section Emails.

Variables (blacklist_domains : list string) (blacklist_patterns : list regex).

Let keep := Utils.keeps blacklist_domains blacklist_patterns.

Lemma filter_loop_filter emails acc :
  Utils.filter_loop blacklist_domains blacklist_patterns emails acc
  = acc ++ filter keep emails.
Proof.
  revert acc. induction emails as [|e rest IH]; intros acc; simpl.
  - now rewrite app_nil_r.
  - subst keep. destruct (Utils.keeps _ _ e); rewrite IH.
    + now rewrite <- app_assoc.
    + reflexivity.
Qed.

Lemma filter_business_emails_filter emails :
  Utils.filter_business_emails emails blacklist_domains blacklist_patterns
  = filter keep emails.
Proof. unfold Utils.filter_business_emails. now rewrite filter_loop_filter. Qed.

Lemma Subsequence_filter {A} (p : A -> bool) (l : list A) :
  Subsequence (filter p l) l.
Proof.
  induction l as [|x l IH]; simpl.
  - constructor.
  - destruct (p x); now constructor.
Qed.

Lemma Subsequence_In {A} (s l : list A) :
  Subsequence s l -> forall x, In x s -> In x l.
Proof.
  induction 1; intros y Hy; simpl in *; intuition.
Qed.

End Emails.

(** C10.  For every list of addresses and every blacklist configuration,
    what [filter_business_emails] returns is a subsequence of its input:
    each returned address is an element of the input, unchanged, and the
    returned addresses are in the input's order. *)
Theorem filter_business_emails_subsequence
        (emails blacklist_domains : list string) (blacklist_patterns : list regex) :
  Subsequence
    (Utils.filter_business_emails emails blacklist_domains blacklist_patterns)
    emails
  /\ forall e,
       In e (Utils.filter_business_emails emails blacklist_domains
                                          blacklist_patterns) ->
       In e emails.
Proof.
  rewrite filter_business_emails_filter. split.
  - apply Subsequence_filter.
  - intros e. apply Subsequence_In, Subsequence_filter.
Qed.

Section Lists.

Context {A : Type}.

Lemma NoDup_filter_app (p : A -> bool) l :
  NoDup l -> NoDup (filter p l ++ filter (fun x => negb (p x)) l).
Proof.
  intros H. induction H as [|x l Hx H IH]; simpl; [constructor|].
  destruct (p x) eqn:E; simpl.
  - constructor; [|exact IH].
    rewrite in_app_iff, !filter_In. tauto.
  - apply NoDup_Add with (a := x) (l := filter p l ++ filter (fun x => negb (p x)) l).
    + apply Add_app.
    + split; [exact IH|]. rewrite in_app_iff, !filter_In. tauto.
Qed.

Lemma In_firstn_incl n (l : list A) x : In x (firstn n l) -> In x l.
Proof.
  intros H. rewrite <- (firstn_skipn n l). apply in_or_app. now left.
Qed.

Lemma NoDup_firstn n (l : list A) : NoDup l -> NoDup (firstn n l).
Proof.
  intros H. rewrite <- (firstn_skipn n l) in H.
  now apply NoDup_app_remove_r in H.
Qed.

(** A prefix of a list split in two groups is split the same way. *)
Lemma firstn_split_groups n (front back : list A) :
  exists front' back',
    firstn n (front ++ back) = front' ++ back'
    /\ (forall x, In x front' -> In x front)
    /\ (forall x, In x back' -> In x back).
Proof.
  rewrite firstn_app.
  exists (firstn n front), (firstn (n - List.length front) back).
  split; [reflexivity|]. split; intros x Hx; eapply In_firstn_incl; eauto.
Qed.

End Lists.

Section Ranking.

Context {A : Type} (key : A -> bool).

Lemma insert_desc_true x l : key x = true -> insert_desc key x l = x :: l.
Proof.
  intros H. destruct l as [|y r]; simpl; [reflexivity|].
  rewrite H, andb_false_r. reflexivity.
Qed.

Lemma insert_desc_false x front back :
  key x = false ->
  Forall (fun y => key y = true) front ->
  Forall (fun y => key y = false) back ->
  insert_desc key x (front ++ back) = front ++ x :: back.
Proof.
  intros Hx Hf Hb. induction Hf as [|y front Hy Hf IH]; simpl.
  - destruct back as [|z back]; simpl; [reflexivity|].
    inversion Hb; subst. now replace (key z) with false.
  - rewrite Hy, Hx. simpl. now rewrite IH.
Qed.

(** Sorting on a boolean key, larger first and stable, puts the elements
    with the key before the others and keeps both groups in order. *)
Lemma sort_reverse_partition l :
  sort_reverse key l = filter key l ++ filter (fun x => negb (key x)) l.
Proof.
  induction l as [|x l IH]; [reflexivity|].
  unfold sort_reverse in *. simpl. rewrite IH.
  destruct (key x) eqn:E; simpl.
  - now apply insert_desc_true.
  - apply insert_desc_false; [exact E| |].
    + apply Forall_forall. intros y Hy. apply filter_In in Hy. tauto.
    + apply Forall_forall. intros y Hy. apply filter_In in Hy.
      destruct Hy as [_ Hy]. now apply negb_true_iff.
Qed.

Lemma sort_reverse_In l x : In x (sort_reverse key l) <-> In x l.
Proof.
  rewrite sort_reverse_partition, in_app_iff, !filter_In.
  destruct (key x); simpl; intuition.
Qed.

Lemma sort_reverse_NoDup l : NoDup l -> NoDup (sort_reverse key l).
Proof. rewrite sort_reverse_partition. apply (NoDup_filter_app key l). Qed.

Lemma sort_reverse_length l : List.length (sort_reverse key l) = List.length l.
Proof.
  rewrite sort_reverse_partition, length_app.
  induction l as [|x l IH]; simpl; [reflexivity|].
  destruct (key x); simpl; lia.
Qed.

End Ranking.

Section ExtractEmails.

Import Utils Config.

Lemma keeps_sound bd bp e :
  keeps bd bp e = true ->
  looks_like_email e = true
  /\ (forall b, In b bd -> contains b (domain_of e) = false)
  /\ (forall p, In p bp -> re_match p (lower e) = false)
  /\ len (local_part_of e) <= 30
  /\ digits_only (local_part_of e) = false
  /\ 10 * count_chars is_digit (local_part_of e) <= 7 * len (local_part_of e)
  /\ looks_like_hash (local_part_of e) = false.
Proof.
  unfold keeps. intros H.
  destruct (looks_like_email e); [|discriminate].
  destruct (existsb _ bd) eqn:Ed; [discriminate|].
  destruct (existsb _ bp) eqn:Ep; [discriminate|].
  destruct ((30 <? len (local_part_of e)) || digits_only (local_part_of e))
    eqn:El; [discriminate|].
  destruct (mostly_digits (local_part_of e)) eqn:Em; [discriminate|].
  destruct (looks_like_hash (local_part_of e)) eqn:Eh; [discriminate|].
  apply orb_false_iff in El. destruct El as [El Eo].
  split; [reflexivity|].
  split; [|split; [|split; [|split; [|split]]]].
  - intros b Hb.
    destruct (contains b (domain_of e)) eqn:C; [|reflexivity].
    assert (existsb (fun blacklist => contains blacklist (domain_of e)) bd
            = true) by (apply existsb_exists; eauto).
    congruence.
  - intros p Hp.
    destruct (re_match p (lower e)) eqn:C; [|reflexivity].
    assert (existsb (fun pattern => re_match pattern (lower e)) bp = true)
      by (apply existsb_exists; eauto).
    congruence.
  - apply Z.ltb_ge. exact El.
  - exact Eo.
  - unfold mostly_digits in Em. apply Z.ltb_ge. exact Em.
  - reflexivity.
Qed.

Variable env : Analyzer.Env.
Variable matches : list string.

Hypothesis set_once : NoDup (list_of_set env matches).
Hypothesis set_same :
  forall e, In e (list_of_set env matches) <-> In e matches.

Let kept :=
  filter (keeps BLACKLIST_DOMAINS BLACKLIST_EMAIL_PATTERNS)
         (list_of_set env matches).

Lemma _extract_emails_unfold :
  _extract_emails env matches
  = firstn 10 (filter is_business kept
               ++ filter (fun x => negb (is_business x)) kept).
Proof.
  unfold _extract_emails, take.
  rewrite filter_business_emails_filter, sort_reverse_partition.
  reflexivity.
Qed.

Lemma _extract_emails_In e :
  In e (_extract_emails env matches) ->
  In e matches /\ keeps BLACKLIST_DOMAINS BLACKLIST_EMAIL_PATTERNS e = true.
Proof.
  rewrite _extract_emails_unfold. intros H.
  apply In_firstn_incl in H. rewrite in_app_iff, !filter_In in H.
  subst kept.
  assert (In e (filter (keeps BLACKLIST_DOMAINS BLACKLIST_EMAIL_PATTERNS)
                       (list_of_set env matches))) as K by tauto.
  apply filter_In in K. destruct K as [K1 K2].
  split; [now apply set_same | exact K2].
Qed.

Lemma _extract_emails_NoDup : NoDup (_extract_emails env matches).
Proof.
  rewrite _extract_emails_unfold.
  apply NoDup_firstn. apply (NoDup_filter_app is_business kept). subst kept.
  apply NoDup_filter. exact set_once.
Qed.

Lemma _extract_emails_ranked :
  exists business others,
    _extract_emails env matches = business ++ others
    /\ Forall (fun e => is_business e = true) business
    /\ Forall (fun e => is_business e = false) others.
Proof.
  rewrite _extract_emails_unfold.
  destruct (firstn_split_groups 10 (filter is_business kept)
              (filter (fun x => negb (is_business x)) kept))
    as (b & o & E & Hb & Ho).
  exists b, o. split; [exact E|]. split; apply Forall_forall; intros x Hx.
  - apply Hb, filter_In in Hx. tauto.
  - apply Ho, filter_In in Hx. destruct Hx as [_ Hx].
    now apply negb_true_iff.
Qed.

Lemma _extract_emails_length :
  (List.length (_extract_emails env matches) <= 10)%nat.
Proof. unfold _extract_emails, take. apply firstn_le_length. Qed.

(** Nothing that passes the filter is lost while at most ten pass. *)
Lemma _extract_emails_complete e :
  (List.length matches <= 10)%nat ->
  In e matches -> keeps BLACKLIST_DOMAINS BLACKLIST_EMAIL_PATTERNS e = true ->
  In e (_extract_emails env matches).
Proof.
  intros L Hm Hk. rewrite _extract_emails_unfold.
  assert (Lk : (List.length kept <= 10)%nat).
  { subst kept. etransitivity; [apply filter_length_le|].
    etransitivity; [|exact L].
    apply NoDup_incl_length; [exact set_once|].
    intros x Hx. now apply set_same. }
  rewrite firstn_all2.
  - rewrite in_app_iff, !filter_In. subst kept.
    assert (In e (filter (keeps BLACKLIST_DOMAINS BLACKLIST_EMAIL_PATTERNS)
                         (list_of_set env matches)))
      by (apply filter_In; split; [now apply set_same | exact Hk]).
    destruct (is_business e); simpl; tauto.
  - rewrite <- (sort_reverse_partition is_business kept), sort_reverse_length.
    exact Lk.
Qed.

(** Nothing that passes the filter is lost while at most ten pass. *)
Lemma _extract_emails_passing_kept e :
  In e matches -> keeps BLACKLIST_DOMAINS BLACKLIST_EMAIL_PATTERNS e = true ->
  (List.length kept <= 10)%nat ->
  In e (_extract_emails env matches).
Proof.
  intros Hm Hk Lk. rewrite _extract_emails_unfold.
  rewrite firstn_all2.
  - rewrite in_app_iff, !filter_In. subst kept.
    assert (In e (filter (keeps BLACKLIST_DOMAINS BLACKLIST_EMAIL_PATTERNS)
                         (list_of_set env matches)))
      by (apply filter_In; split; [now apply set_same | exact Hk]).
    destruct (is_business e); simpl; tauto.
  - rewrite <- (sort_reverse_partition is_business kept), sort_reverse_length.
    exact Lk.
Qed.

Lemma _extract_emails_length_exact :
  List.length (_extract_emails env matches)
  = Nat.min 10 (List.length kept).
Proof.
  rewrite _extract_emails_unfold, length_firstn.
  rewrite <- (sort_reverse_partition is_business kept), sort_reverse_length.
  reflexivity.
Qed.

(** A business address that passes the filter is returned, unless ten
    business addresses fill the result. *)
Lemma _extract_emails_business_first e :
  In e matches -> keeps BLACKLIST_DOMAINS BLACKLIST_EMAIL_PATTERNS e = true ->
  is_business e = true ->
  In e (_extract_emails env matches)
  \/ (List.length (_extract_emails env matches) = 10%nat
      /\ Forall (fun a => is_business a = true) (_extract_emails env matches)).
Proof.
  intros Hm Hk Hb. rewrite _extract_emails_unfold, firstn_app.
  assert (He : In e (filter is_business kept)).
  { apply filter_In. split; [|exact Hb]. subst kept.
    apply filter_In. split; [now apply set_same | exact Hk]. }
  destruct (Nat.le_gt_cases (List.length (filter is_business kept)) 10)
    as [Hle | Hgt].
  - left. apply in_or_app. left. rewrite firstn_all2 by exact Hle. exact He.
  - right.
    replace (10 - List.length (filter is_business kept))%nat with 0%nat by lia.
    rewrite firstn_O, app_nil_r. split.
    + rewrite length_firstn. lia.
    + apply Forall_forall. intros a Ha. apply In_firstn_incl in Ha.
      apply filter_In in Ha. tauto.
Qed.

End ExtractEmails.

(** C6.  Whatever order the set of regex matches is listed in,
    [_extract_emails] returns the first ten of: the matches that pass the
    filter and contain a business keyword, followed by the other matches
    that pass, each group in the order of the listing.  So the addresses
    returned are pairwise distinct matches; none has a domain containing a
    blacklisted substring, a lowercased form matching a blacklist pattern,
    a local part longer than 30 characters or with more than 70% digits, or
    a local part that is a bare hex string of 32, 40 or 64 characters; the
    business addresses come before all the others; their number is ten or
    the number of matches that pass, whichever is smaller; no match that
    passes is dropped while at most ten pass, and a business address that
    passes is dropped only when ten business addresses are returned.  On
    the example's four matches the result consists of [contact@acme.com]
    and [sales@acme.com], both business addresses, and neither the
    hash-like nor the noreply address. *)
Theorem _extract_emails_filters_and_ranks
        (env : Analyzer.Env) (matches : list string) :
  NoDup (list_of_set env matches) ->
  (forall e, In e (list_of_set env matches) <-> In e matches) ->
  _extract_emails env matches
  = firstn 10 (filter is_business (passing env matches)
               ++ filter (fun e => negb (is_business e))
                         (passing env matches))
  /\ NoDup (_extract_emails env matches)
  /\ (forall e, In e (_extract_emails env matches) ->
        In e matches
        /\ (forall b, In b Config.BLACKLIST_DOMAINS ->
                      contains b (Utils.domain_of e) = false)
        /\ (forall p, In p Config.BLACKLIST_EMAIL_PATTERNS ->
                      re_match p (lower e) = false)
        /\ len (Utils.local_part_of e) <= 30
        /\ 10 * count_chars is_digit (Utils.local_part_of e)
           <= 7 * len (Utils.local_part_of e)
        /\ ~ (all_chars is_lower_hex (Utils.local_part_of e) = true
              /\ In (len (Utils.local_part_of e)) [32; 40; 64]))
  /\ (exists business others,
        _extract_emails env matches = business ++ others
        /\ Forall (fun e => is_business e = true) business
        /\ Forall (fun e => is_business e = false) others)
  /\ (List.length (_extract_emails env matches) <= 10)%nat
  /\ List.length (_extract_emails env matches)
     = Nat.min 10 (List.length (passing env matches))
  /\ (forall e,
        In e matches ->
        Utils.keeps Config.BLACKLIST_DOMAINS Config.BLACKLIST_EMAIL_PATTERNS e
        = true ->
        ((List.length (passing env matches) <= 10)%nat ->
         In e (_extract_emails env matches))
        /\ (is_business e = true ->
            In e (_extract_emails env matches)
            \/ (List.length (_extract_emails env matches) = 10%nat
                /\ Forall (fun a => is_business a = true)
                          (_extract_emails env matches))))
  /\ (matches = sample_emails ->
      (forall e, In e (_extract_emails env matches) <->
                 e = "contact@acme.com" \/ e = "sales@acme.com")
      /\ is_business "contact@acme.com" = true
      /\ is_business "sales@acme.com" = true).
Proof.
  intros Hn Hs.
  split; [apply _extract_emails_unfold|].
  split; [now apply _extract_emails_NoDup|].
  split; [|split; [now apply _extract_emails_ranked|
                   split; [apply _extract_emails_length|
                           split; [apply _extract_emails_length_exact|
                                   split]]]].
  - intros e He.
    destruct (_extract_emails_In env matches Hs e He) as [Hm Hk].
    destruct (keeps_sound _ _ _ Hk) as (_ & Hd & Hp & Hl & _ & Hg & _).
    repeat (split; [assumption|]).
    intros [_ Hlen]. simpl in Hlen. lia.
  - intros e Hm Hk. split.
    + intros Hten. apply (_extract_emails_passing_kept env matches Hs);
        assumption.
    + intros Hb. apply (_extract_emails_business_first env matches Hs);
        assumption.
  - intros ->. split; [|split; reflexivity].
    intros e. split.
    + intros He.
      destruct (_extract_emails_In env sample_emails Hs e He) as [Hm Hk].
      unfold sample_emails in Hm. simpl in Hm.
      destruct Hm as [<- | [<- | [<- | [<- | []]]]];
        try (left; reflexivity); try (right; reflexivity);
        vm_compute in Hk; discriminate Hk.
    + intros [-> | ->];
        apply (_extract_emails_complete env sample_emails Hn Hs);
        try (simpl; lia); try (simpl; tauto); vm_compute; reflexivity.
Qed.

Lemma _extract_emails_filters_and_ranks_witness :
  NoDup (_extract_emails Sample.env sample_emails)
  /\ (List.length (_extract_emails Sample.env sample_emails) <= 10)%nat.
Proof.
  destruct (_extract_emails_filters_and_ranks Sample.env sample_emails)
    as (_ & H1 & _ & _ & H4 & _).
  - apply NoDup_nodup.
  - intros e. apply nodup_In.
  - split; assumption.
Defined.

(** The example, with the matches listed in the order given. *)
Example _extract_emails_sample :
  _extract_emails Sample.env sample_emails
  = ["contact@acme.com"; "sales@acme.com"].
Proof. vm_compute. reflexivity. Qed.

(* ------------------------------------------------------------------ *)
(** ** Credential rotation and retries *)
(* ------------------------------------------------------------------ *)

Section Retry.

Import AI.

Variable env : AI.Env.
Variable prompt : string.
Variable max_retries : nat.

Lemma ready_current_model m :
  ready m ->
  exists model, get_current_model m = Return (Some model)
                /\ nth_error (gemini_models m) (current_key_index m)
                   = Some model.
Proof.
  intros [Hi Hk]. unfold get_current_model. rewrite Hi.
  destruct (gemini_models m) as [|a l] eqn:E; [simpl in Hk; lia|].
  cbn [negb nonempty orb].
  destruct (nth_error (a :: l) (current_key_index m)) as [model|] eqn:N.
  - exists model. split; reflexivity.
  - apply nth_error_None in N. lia.
Qed.

Lemma ready_rotate m :
  ready m ->
  ready (fst (rotate_key m))
  /\ gemini_models (fst (rotate_key m)) = gemini_models m
  /\ (if (1 <? List.length (gemini_models m))%nat
      then snd (rotate_key m) = true
           /\ current_key_index (fst (rotate_key m))
              = Nat.modulo (current_key_index m + 1)
                           (List.length (gemini_models m))
      else rotate_key m = (m, false)).
Proof.
  intros [Hi Hk]. unfold rotate_key.
  destruct (1 <? List.length (gemini_models m))%nat eqn:E; cbn [fst snd].
  - split; [|split; [reflexivity|split; reflexivity]].
    split; [exact Hi|]. cbn [current_key_index gemini_models].
    apply Nat.mod_upper_bound. lia.
  - repeat split; assumption.
Qed.

(** The loop ends within its fuel, and its events have the shape of a
    pass. *)
Lemma retry_loop_pass fuel :
  forall st r k,
    ready (module st) ->
    (1 <= fuel)%nat ->
    ((max_retries - r) + (List.length (gemini_models (module st)) - k)
     <= fuel)%nat ->
    exists st' out events,
      retry_loop fuel env prompt max_retries st r k = Some (st', out)
      /\ trace st' = trace st ++ events
      /\ gemini_models (module st') = gemini_models (module st)
      /\ ready (module st')
      /\ Pass (List.length (gemini_models (module st))) max_retries prompt
              (current_key_index (module st)) r k events
              (current_key_index (module st')) (ending_of out).
Proof.
  induction fuel as [|fuel IH]; intros st r k Hready Hfuel Hm; [lia|].
  cbn [retry_loop].
  set (n := List.length (gemini_models (module st))) in *.
  destruct ((r <? max_retries)%nat && (k <? n)%nat) eqn:Hc.
  2: { exists st, (Return None), []. rewrite app_nil_r.
       repeat split; try apply Hready.
       apply Pass_stop. intros [H1 H2].
       apply Nat.ltb_lt in H1. apply Nat.ltb_lt in H2.
       rewrite H1, H2 in Hc. discriminate. }
  apply andb_true_iff in Hc. destruct Hc as [Hr Hk].
  apply Nat.ltb_lt in Hr. apply Nat.ltb_lt in Hk.
  destruct (ready_current_model _ Hready) as (model & Hmodel & _).
  unfold attempt. rewrite Hmodel.
  destruct (generate_content env (calls st) model prompt) as [response|e].
  - (* the call answers *)
    eexists _, (Return (Some response)), [_].
    split; [reflexivity|]. cbn [trace module].
    repeat split; try apply Hready.
    apply Pass_success; assumption.
  - cbn [module log trace calls].
    destruct (is_rate_limit (exn_msg e)).
    + (* rate limit *)
      destruct (ready_rotate _ Hready) as (Hready' & Hmodels & Hrot).
      fold n in Hrot.
      destruct (1 <? n)%nat eqn:Hn.
      * destruct Hrot as [Hb Hidx].
        destruct (rotate_key (module st)) as [m b] eqn:Erot.
        cbn [fst snd] in *. subst b.
        edestruct (IH {| module := m; calls := S (calls st);
                         trace := (trace st
                                   ++ [Attempt (current_key_index (module st))
                                               prompt])
                                  ++ [RateLimited
                                        (current_key_index (module st))] |}
                      r (S k))
          as (st' & out & events & Hrun & Htr & Hmod & Hrd & Hpass).
        { exact Hready'. }
        { lia. }
        { cbn [module]. rewrite Hmodels. fold n. lia. }
        exists st', out, (Attempt (current_key_index (module st)) prompt
                          :: RateLimited (current_key_index (module st))
                          :: events).
        split; [exact Hrun|].
        cbn [module trace] in *.
        split; [rewrite Htr, <- !app_assoc; reflexivity|].
        split; [congruence|]. split; [exact Hrd|].
        apply Nat.ltb_lt in Hn.
        apply Pass_rotate; try assumption.
        rewrite Hmodels in Hpass. fold n in Hpass.
        rewrite Hidx in Hpass. exact Hpass.
      * rewrite Hrot.
        eexists _, (Raise _), [_; _].
        split; [reflexivity|]. cbn [trace module log].
        split; [rewrite <- app_assoc; reflexivity|].
        repeat split; try apply Hready.
        apply Nat.ltb_ge in Hn.
        apply Pass_exhausted; assumption.
    + (* another error *)
      destruct (S r <? max_retries)%nat eqn:Hs.
      * apply Nat.ltb_lt in Hs.
        edestruct (IH (log (log {| module := module st; calls := S (calls st);
                                   trace := trace st
                                     ++ [Attempt (current_key_index (module st))
                                                 prompt] |}
                                (Failed (current_key_index (module st))))
                           (Slept (2 ^ Z.of_nat (S r))))
                      (S r) k)
          as (st' & out & events & Hrun & Htr & Hmod & Hrd & Hpass).
        { exact Hready. }
        { lia. }
        { cbn [module log]. fold n. lia. }
        exists st', out, (Attempt (current_key_index (module st)) prompt
                          :: Failed (current_key_index (module st))
                          :: Slept (2 ^ Z.of_nat (S r)) :: events).
        split; [exact Hrun|].
        cbn [module trace log] in *.
        split; [rewrite Htr, <- !app_assoc; reflexivity|].
        split; [exact Hmod|]. split; [exact Hrd|].
        apply Pass_retry; assumption.
      * eexists _, (Raise e), [_; _].
        split; [reflexivity|]. cbn [trace module log].
        split; [rewrite <- app_assoc; reflexivity|].
        repeat split; try apply Hready.
        apply Nat.ltb_ge in Hs.
        apply Pass_give_up; try assumption. lia.
Qed.

End Retry.

Section PassShape.

Import AI.

Variables (n max_retries : nat) (prompt : string).

Lemma Pass_head i r k events i' e :
  Pass n max_retries prompt i r k events i' e ->
  events = [] \/ exists rest, events = Attempt i prompt :: rest.
Proof. destruct 1; [left; reflexivity | right; eauto ..]. Qed.

Lemma Pass_head_running i r k events i' e :
  Pass n max_retries prompt i r k events i' e ->
  (r < max_retries)%nat -> (k < n)%nat ->
  exists rest, events = Attempt i prompt :: rest.
Proof. destruct 1; intros; eauto. tauto. Qed.

Lemma Pass_same_request i r k events i' e :
  Pass n max_retries prompt i r k events i' e ->
  Forall (fun a => snd a = prompt) (attempts events).
Proof.
  induction 1; cbn [attempts]; repeat constructor; assumption.
Qed.

Lemma Pass_rotation i r k events i' e :
  Pass n max_retries prompt i r k events i' e ->
  each_followed is_rate_limited
    (fun j rest =>
       exists rest', rest = Attempt (Nat.modulo (j + 1) n) prompt :: rest')
    events.
Proof.
  induction 1 as [| |i r k events i' e Hr Hk Hn Hp IH| |
                  i r k events i' e Hr Hk Hs Hp IH|];
    cbn [each_followed is_rate_limited]; repeat split; auto.
  destruct (Pass_head _ _ _ _ _ _ Hp) as [-> | [rest ->]]; eauto.
Qed.

Lemma Pass_same_credential i r k events i' e :
  Pass n max_retries prompt i r k events i' e ->
  each_followed is_failed
    (fun j rest => exists s rest', rest = Slept s :: Attempt j prompt :: rest')
    events.
Proof.
  induction 1 as [| |i r k events i' e Hr Hk Hn Hp IH| |
                  i r k events i' e Hr Hk Hs Hp IH|];
    cbn [each_followed is_failed]; repeat split; auto.
  destruct (Pass_head_running _ _ _ _ _ _ Hp Hs Hk) as [rest ->].
  right. eauto.
Qed.

(** The rate-limited credentials are consecutive from the first one, and
    with the rotations already made they are at most [n]. *)
Lemma Pass_rate_limited i r k events i' e :
  Pass n max_retries prompt i r k events i' e ->
  (i < n)%nat ->
  rate_limited events
  = map (fun t => Nat.modulo (i + t) n)
        (seq 0 (List.length (rate_limited events)))
  /\ (k <= n -> List.length (rate_limited events) + k <= n)%nat.
Proof.
  induction 1 as [| |i r k events i' e Hr Hk Hn Hp IH|i r k Hr Hk Hn|
                  i r k events i' e Hr Hk Hs Hp IH|];
    intros Hi; cbn [rate_limited List.length seq map].
  - split; [reflexivity | lia].
  - split; [reflexivity | lia].
  - destruct IH as [IH1 IH2]; [apply Nat.mod_upper_bound; lia|].
    split; [|lia].
    rewrite Nat.add_0_r, (Nat.mod_small i n Hi). f_equal.
    rewrite IH1 at 1. rewrite <- seq_shift, map_map.
    apply map_ext. intros t.
    rewrite Nat.Div0.add_mod_idemp_l. f_equal. lia.
  - split; [|lia].
    rewrite Nat.add_0_r, (Nat.mod_small i n Hi). reflexivity.
  - exact (IH Hi).
  - split; [reflexivity | lia].
Qed.

Lemma mod_shift_injective i t t' :
  (t < t' < n)%nat -> Nat.modulo (i + t) n <> Nat.modulo (i + t') n.
Proof.
  intros Ht E.
  pose proof (Nat.div_mod_eq (i + t) n) as D1.
  pose proof (Nat.div_mod_eq (i + t') n) as D2.
  rewrite E in D1.
  assert (Hq : (n * ((i + t') / n) = n * ((i + t) / n) + (t' - t))%nat) by lia.
  assert (Hd : ((i + t) / n <= (i + t') / n)%nat)
    by (apply Nat.Div0.div_le_mono; lia).
  assert (Hcases : ((i + t') / n = (i + t) / n
                    \/ (i + t) / n + 1 <= (i + t') / n)%nat) by lia.
  destruct Hcases as [Hc | Hc].
  - rewrite Hc in Hq. lia.
  - assert (n * ((i + t) / n + 1) <= n * ((i + t') / n))%nat
      by (apply Nat.mul_le_mono_l; exact Hc).
    lia.
Qed.

Lemma NoDup_shifted i j :
  (j <= n)%nat -> NoDup (map (fun t => Nat.modulo (i + t) n) (seq 0 j)).
Proof.
  intros Hj.
  assert (G : forall a b, (a + b <= n)%nat ->
                NoDup (map (fun t => Nat.modulo (i + t) n) (seq a b))).
  { intros a b. revert a. induction b as [|b IH]; intros a Hab; cbn [seq map].
    - constructor.
    - constructor; [|apply IH; lia].
      intros Hin. apply in_map_iff in Hin. destruct Hin as (t & Et & Ht).
      apply in_seq in Ht.
      apply (mod_shift_injective i a t); [lia | congruence]. }
  apply G. lia.
Qed.

(** The pauses are [2^(r+1)], [2^(r+2)], ..., one per failure that is
    retried, and the failures stay within the retry count. *)
Lemma Pass_pauses i r k events i' e :
  Pass n max_retries prompt i r k events i' e ->
  pauses events
  = map (fun t => 2 ^ Z.of_nat (S r + t)) (seq 0 (List.length (pauses events)))
  /\ (List.length (pauses events) = 0
      \/ r + List.length (pauses events) < max_retries)%nat
  /\ (r <= max_retries -> failures events + r <= max_retries)%nat
  /\ (List.length (pauses events) <= failures events)%nat.
Proof.
  induction 1 as [| |i r k events i' e Hr Hk Hn Hp IH| |
                  i r k events i' e Hr Hk Hs Hp IH|];
    cbn [pauses failures List.length seq map].
  - repeat split; auto; lia.
  - repeat split; auto; lia.
  - destruct IH as (I1 & I2 & I3 & I4). repeat split; auto.
  - repeat split; auto; lia.
  - destruct IH as (I1 & I2 & I3 & I4).
    split; [|split; [right; lia | split; lia]].
    rewrite Nat.add_0_r. f_equal.
    rewrite I1 at 1. rewrite <- seq_shift, map_map.
    apply map_ext. intros t. f_equal. lia.
  - repeat split; auto; lia.
Qed.

Lemma doubling_powers a j :
  doubling (map (fun t => 2 ^ Z.of_nat (a + t)) (seq 0 j)).
Proof.
  assert (G : forall b, doubling (map (fun t => 2 ^ Z.of_nat (a + t)) (seq b j))).
  { induction j as [|j IH]; intros b; cbn [seq map doubling]; [exact I|].
    destruct j as [|j]; cbn [seq map]; [exact I|].
    split; [|exact (IH (S b))].
    replace (Z.of_nat (a + S b)) with (Z.succ (Z.of_nat (a + b))) by lia.
    rewrite Z.pow_succ_r by lia. reflexivity. }
  apply G.
Qed.

(** Once every credential has been rate-limited the request does not end
    with a response. *)
Lemma Pass_exhausted_no_response i r k events i' e :
  Pass n max_retries prompt i r k events i' e ->
  (n <= List.length (rate_limited events) + k)%nat ->
  e <> Responded.
Proof.
  induction 1 as [| |i r k events i' e Hr Hk Hn Hp IH| |
                  i r k events i' e Hr Hk Hs Hp IH|];
    cbn [rate_limited List.length]; intros Hall; try discriminate.
  - lia.
  - apply IH. lia.
  - apply IH. exact Hall.
Qed.

End PassShape.

Section FirstTurn.

Import AI.

Variable env : AI.Env.
Variable prompt : string.
Variable max_retries : nat.

(** What the first attempt's answer decides. *)
Lemma generate_with_retry_first_turn st model st' out events :
  ready (module st) ->
  (0 < max_retries)%nat ->
  nth_error (gemini_models (module st)) (current_key_index (module st))
  = Some model ->
  generate_with_retry env prompt max_retries st = (st', out) ->
  trace st' = trace st ++ events ->
  let i := current_key_index (module st) in
  let n := List.length (gemini_models (module st)) in
  match generate_content env (calls st) model prompt with
  | Return response =>
      out = Return (Some response) /\ events = [Attempt i prompt]
  | Raise e =>
      if is_rate_limit (exn_msg e) then
        if (1 <? n)%nat then
          exists rest,
            events = Attempt i prompt :: RateLimited i
                     :: Attempt (Nat.modulo (i + 1) n) prompt :: rest
        else
          out = Raise (mk_exn (OtherError "Exception")
                              "All API keys have hit rate limits")
          /\ events = [Attempt i prompt; RateLimited i]
      else
        if (1 <? max_retries)%nat then
          exists rest,
            events = Attempt i prompt :: Failed i :: Slept 2
                     :: Attempt i prompt :: rest
        else out = Raise e /\ events = [Attempt i prompt; Failed i]
  end.
Proof.
  intros Hready Hmax Hnth Hrun Htr. cbv zeta.
  destruct (ready_current_model _ Hready) as (model' & Hmodel & Hnth').
  assert (model' = model) by congruence. subst model'.
  set (n := List.length (gemini_models (module st))) in *.
  set (i := current_key_index (module st)) in *.
  assert (Hn : (1 <= n)%nat) by (destruct Hready as [_ H]; subst n i; lia).
  unfold generate_with_retry in Hrun.
  destruct Hready as [Hi Hk]. rewrite Hi in Hrun. cbn [negb] in Hrun.
  fold n in Hrun.
  replace (max_retries + n)%nat with (S (max_retries + n - 1)) in Hrun by lia.
  cbn [retry_loop] in Hrun. fold n in Hrun.
  assert (Hc : ((0 <? max_retries)%nat && (0 <? n)%nat) = true).
  { apply andb_true_iff. split; apply Nat.ltb_lt; lia. }
  rewrite Hc in Hrun. unfold attempt in Hrun. rewrite Hmodel in Hrun.
  fold i in Hrun.
  destruct (generate_content env (calls st) model prompt) as [response|e].
  - injection Hrun as <- <-. cbn [trace] in Htr.
    apply app_inv_head in Htr. split; [reflexivity | symmetry; exact Htr].
  - cbv zeta in Hrun. cbn [module log trace calls] in Hrun. fold i in Hrun.
    destruct (is_rate_limit (exn_msg e)).
    + destruct (ready_rotate _ (conj Hi Hk)) as (Hready' & Hmodels & Hrot).
      fold n in Hrot. fold i in Hrot.
      destruct (1 <? n)%nat eqn:E1.
      * destruct Hrot as [Hb Hidx].
        destruct (rotate_key (module st)) as [m b] eqn:Erot.
        cbn [fst snd] in *. subst b.
        edestruct (retry_loop_pass env prompt max_retries
                     (max_retries + n - 1)
                     {| module := m; calls := S (calls st);
                        trace := (trace st ++ [Attempt i prompt])
                                 ++ [RateLimited i] |} 0 1)
          as (st2 & out2 & events2 & Hrun2 & Htr2 & _ & _ & Hpass).
        { exact Hready'. }
        { lia. }
        { cbn [module]. rewrite Hmodels. fold n. lia. }
        rewrite Hrun2 in Hrun. injection Hrun as <- <-.
        cbn [module trace] in *. rewrite Hmodels, Hidx in Hpass. fold n in Hpass.
        apply Nat.ltb_lt in E1.
        destruct (Pass_head_running _ _ _ _ _ _ _ _ _ Hpass Hmax E1)
          as [rest Hrest].
        exists rest. rewrite Htr2, <- !app_assoc in Htr.
        apply app_inv_head in Htr. rewrite <- Htr, Hrest. reflexivity.
      * rewrite Hrot in Hrun. injection Hrun as <- <-.
        cbn [trace log] in Htr. rewrite <- app_assoc in Htr.
        apply app_inv_head in Htr. split; [reflexivity | symmetry; exact Htr].
    + destruct (1 <? max_retries)%nat eqn:E1.
      * apply Nat.ltb_lt in E1.
        edestruct (retry_loop_pass env prompt max_retries
                     (max_retries + n - 1)
                     (log (log {| module := module st; calls := S (calls st);
                                  trace := trace st ++ [Attempt i prompt] |}
                               (Failed i))
                          (Slept (2 ^ Z.of_nat 1))) 1 0)
          as (st2 & out2 & events2 & Hrun2 & Htr2 & _ & _ & Hpass).
        { split; assumption. }
        { lia. }
        { cbn [module log]. fold n. lia. }
        rewrite Hrun2 in Hrun. injection Hrun as <- <-.
        cbn [module trace log] in *. fold n in Hpass. fold i in Hpass.
        destruct (Pass_head_running _ _ _ _ _ _ _ _ _ Hpass E1 Hn)
          as [rest Hrest].
        exists rest. rewrite Htr2, <- !app_assoc in Htr.
        apply app_inv_head in Htr. rewrite <- Htr, Hrest. reflexivity.
      * injection Hrun as <- <-.
        cbn [trace log] in Htr. rewrite <- app_assoc in Htr.
        apply app_inv_head in Htr. split; [reflexivity | symmetry; exact Htr].
Qed.

End FirstTurn.

(** X21.  A [generate_with_retry] request that runs alone on an
    initialised module, no other request touching the shared index: every
    attempt sends the same prompt; what the first attempt is answered
    decides the outcome: a response ends the request with that response;
    a rate-limit error is followed by an attempt on the next credential,
    or by the error "All API keys have hit rate limits" when there is one
    credential only; another error is followed by a pause of two seconds
    and an attempt on the same credential, or re-raised when
    [max_retries] is 1.  Each rate-limited attempt is the last event or is
    followed by an attempt on the next credential; the rate-limited
    credentials are pairwise distinct; each other failure is the last
    event or is followed by a pause and an attempt on the same credential;
    there are at most [max_retries] such failures, and the pauses are 2,
    4, ..., each twice the one before; and when every credential has been
    rate-limited the request does not end with a response. *)
Theorem generate_with_retry_rotates_and_backs_off
        (env : AI.Env) (prompt : string) (max_retries : nat) (st : AI.Run) :
  ready (AI.module st) ->
  exists st' out events,
    AI.generate_with_retry env prompt max_retries st = (st', out)
    /\ AI.trace st' = AI.trace st ++ events
    /\ ready (AI.module st')
    /\ Forall (fun a => snd a = prompt) (attempts events)
    /\ each_followed is_rate_limited
         (fun j rest =>
            exists rest',
              rest = AI.Attempt
                       (Nat.modulo (j + 1)
                          (List.length (AI.gemini_models (AI.module st))))
                       prompt :: rest')
         events
    /\ NoDup (rate_limited events)
    /\ (List.length (rate_limited events)
        <= List.length (AI.gemini_models (AI.module st)))%nat
    /\ each_followed is_failed
         (fun j rest =>
            exists s rest', rest = AI.Slept s :: AI.Attempt j prompt :: rest')
         events
    /\ (failures events <= max_retries)%nat
    /\ pauses events
       = map (fun t => 2 ^ Z.of_nat (1 + t))
             (seq 0 (List.length (pauses events)))
    /\ (List.length (pauses events) <= max_retries - 1)%nat
    /\ doubling (pauses events)
    /\ (List.length (rate_limited events)
        = List.length (AI.gemini_models (AI.module st)) ->
        ending_of out <> Responded)
    /\ ((0 < max_retries)%nat ->
        forall model,
          nth_error (AI.gemini_models (AI.module st))
                    (AI.current_key_index (AI.module st)) = Some model ->
          let i := AI.current_key_index (AI.module st) in
          let n := List.length (AI.gemini_models (AI.module st)) in
          match AI.generate_content env (AI.calls st) model prompt with
          | Return response =>
              out = Return (Some response)
              /\ events = [AI.Attempt i prompt]
          | Raise e =>
              if AI.is_rate_limit (exn_msg e) then
                if (1 <? n)%nat then
                  exists rest,
                    events = AI.Attempt i prompt :: AI.RateLimited i
                             :: AI.Attempt (Nat.modulo (i + 1) n) prompt
                             :: rest
                else
                  out = Raise (mk_exn (OtherError "Exception")
                                      "All API keys have hit rate limits")
                  /\ events = [AI.Attempt i prompt; AI.RateLimited i]
              else
                if (1 <? max_retries)%nat then
                  exists rest,
                    events = AI.Attempt i prompt :: AI.Failed i
                             :: AI.Slept 2 :: AI.Attempt i prompt :: rest
                else out = Raise e
                     /\ events = [AI.Attempt i prompt; AI.Failed i]
          end).
Proof.
  intros Hready.
  set (n := List.length (AI.gemini_models (AI.module st))).
  assert (Hn : (1 <= n)%nat) by (destruct Hready as [_ H]; subst n; lia).
  destruct (retry_loop_pass env prompt max_retries (max_retries + n) st 0 0
                            Hready)
    as (st' & out & events & Hrun & Htr & _ & Hrd & Hpass); [lia | fold n; lia |].
  fold n in Hpass.
  assert (Hgwr : AI.generate_with_retry env prompt max_retries st = (st', out)).
  { unfold AI.generate_with_retry. destruct Hready as [Hi _]. rewrite Hi.
    cbn [negb]. fold n. rewrite Hrun. reflexivity. }
  exists st', out, events.
  split; [exact Hgwr|].
  split; [exact Htr|]. split; [exact Hrd|].
  split; [eapply Pass_same_request; eassumption|].
  split; [eapply Pass_rotation; eassumption|].
  destruct (Pass_rate_limited _ _ _ _ _ _ _ _ _ Hpass) as [Hrl Hlen];
    [apply Hready|].
  specialize (Hlen (Nat.le_0_l n)).
  split; [rewrite Hrl; apply NoDup_shifted; lia|].
  split; [lia|].
  split; [eapply Pass_same_credential; eassumption|].
  destruct (Pass_pauses _ _ _ _ _ _ _ _ _ Hpass) as (Hp1 & Hp2 & Hp3 & Hp4).
  split; [lia|]. split; [exact Hp1|]. split; [lia|].
  split; [rewrite Hp1; apply doubling_powers|].
  split.
  { intros Hall. eapply Pass_exhausted_no_response; [eassumption | lia]. }
  intros Hmax model Hnth.
  exact (generate_with_retry_first_turn env prompt max_retries st model
           st' out events Hready Hmax Hnth Hgwr Htr).
Qed.

Lemma generate_with_retry_rotates_and_backs_off_witness :
  exists st' out events,
    AI.generate_with_retry (SampleAI.env SampleAI.generate_content true)
                           "prompt" 3 (SampleAI.fresh SampleAI.two_keys)
    = (st', out)
    /\ AI.trace st' = [] ++ events
    /\ ready (AI.module st').
Proof.
  destruct (generate_with_retry_rotates_and_backs_off
              (SampleAI.env SampleAI.generate_content true) "prompt" 3
              (SampleAI.fresh SampleAI.two_keys))
    as (st' & out & events & H1 & H2 & H3 & _).
  - split; [reflexivity | simpl; lia].
  - exists st', out, events.
    split; [exact H1 | split; [exact H2 | exact H3]].
Defined.

(** A rate limit on the first key, another failure on the second, then an
    answer: rotate, pause two seconds, retry the second key. *)
Example generate_with_retry_sample_trace :
  AI.trace (fst (AI.generate_with_retry
                   (SampleAI.env SampleAI.generate_content true) "prompt" 3
                   (SampleAI.fresh SampleAI.two_keys)))
  = [ AI.Attempt 0 "prompt"; AI.RateLimited 0;
      AI.Attempt 1 "prompt"; AI.Failed 1; AI.Slept 2;
      AI.Attempt 1 "prompt" ].
Proof. vm_compute. reflexivity. Qed.

(** With every call rate-limited, each of the two keys is tried once and
    no response comes back. *)
Example generate_with_retry_all_rate_limited :
  let run := AI.generate_with_retry
               (SampleAI.env SampleAI.always_rate_limited true) "prompt" 3
               (SampleAI.fresh SampleAI.two_keys) in
  AI.trace (fst run)
  = [ AI.Attempt 0 "prompt"; AI.RateLimited 0;
      AI.Attempt 1 "prompt"; AI.RateLimited 1 ]
  /\ snd run = Return None.
Proof. vm_compute. split; reflexivity. Qed.

(* ------------------------------------------------------------------ *)
(** ** Requests on threads *)
(* ------------------------------------------------------------------ *)

Section Turns.

Import AI.

Variable env : AI.Env.

Lemma since_app st st' evs :
  trace st' = trace st ++ evs -> since st st' = evs.
Proof.
  unfold since. intros ->. induction (trace st) as [|ev l IH]; [reflexivity|].
  exact IH.
Qed.

Lemma attempt_trace prompt st :
  exists evs, trace (fst (attempt env prompt st)) = trace st ++ evs.
Proof.
  unfold attempt.
  destruct (get_current_model (module st)) as [[model|]|e]; cbn [fst].
  - destruct (generate_content env (calls st) model prompt);
      cbn [fst trace]; eauto.
  - exists []. now rewrite app_nil_r.
  - exists []. now rewrite app_nil_r.
Qed.

(** A request that runs alone takes the turns of [retry_loop]. *)
Lemma retry_loop_turns prompt max_retries fuel :
  forall st r k evs0 st' out,
    retry_loop fuel env prompt max_retries st r k = Some (st', out) ->
    exists j rq',
      turns env j {| rq_prompt := prompt; rq_max_retries := max_retries;
                     retries := r; keys_tried := k; outcome := None;
                     events := evs0 |} st
      = (rq', st')
      /\ outcome rq' = Some out
      /\ (exists evs, trace st' = trace st ++ evs
                      /\ events rq' = evs0 ++ evs).
Proof.
  induction fuel as [|fuel IH]; intros st r k evs0 st' out; [discriminate|].
  cbn [retry_loop].
  destruct ((r <? max_retries)%nat
            && (k <? List.length (gemini_models (module st)))%nat) eqn:Hc.
  2: { intros H. injection H as <- <-. exists 1%nat. eexists.
       cbn [turns turn outcome retries keys_tried rq_max_retries].
       rewrite Hc. split; [reflexivity|]. split; [reflexivity|].
       exists []. rewrite app_nil_r. split; [reflexivity|].
       cbn [finish events]. rewrite (since_app st st []), app_nil_r;
         [reflexivity | now rewrite app_nil_r]. }
  destruct (attempt_trace prompt st) as (e1 & He1).
  destruct (attempt env prompt st) as [st1 [resp|e]] eqn:Ha; cbn [fst] in He1.
  - intros H. injection H as <- <-. exists 1%nat. eexists.
    cbn [turns turn outcome retries keys_tried rq_max_retries rq_prompt].
    rewrite Hc, Ha. split; [reflexivity|]. split; [reflexivity|].
    exists e1. split; [exact He1|].
    cbn [finish events]. now rewrite (since_app st st1 e1 He1).
  - cbv zeta. destruct (is_rate_limit (exn_msg e)) eqn:Hrl.
    + destruct (rotate_key (module (log st1 (RateLimited
                  (current_key_index (module st1)))))) as [m [|]] eqn:Hrot.
      * intros H.
        set (st3 := {| module := m;
                       calls := calls (log st1 (RateLimited
                                  (current_key_index (module st1))));
                       trace := trace (log st1 (RateLimited
                                  (current_key_index (module st1)))) |}) in *.
        assert (He3 : trace st3 = trace st
                        ++ e1 ++ [RateLimited (current_key_index (module st1))]).
        { subst st3. cbn [trace log]. rewrite He1, app_assoc. reflexivity. }
        destruct (IH st3 r (S k) (evs0 ++ since st st3) st' out H)
          as (j & rq' & Hrun & Hout & evs & Htr & Hev).
        exists (S j), rq'.
        cbn [turns turn outcome retries keys_tried rq_max_retries rq_prompt].
        rewrite Hc, Ha. cbv zeta. rewrite Hrl, Hrot.
        split; [exact Hrun|]. split; [exact Hout|].
        exists ((e1 ++ [RateLimited (current_key_index (module st1))]) ++ evs).
        split.
        -- rewrite Htr, He3, <- !app_assoc. reflexivity.
        -- rewrite Hev, (since_app st st3 _ He3), <- !app_assoc. reflexivity.
      * intros H. injection H as <- <-. exists 1%nat. eexists.
        cbn [turns turn outcome retries keys_tried rq_max_retries rq_prompt].
        rewrite Hc, Ha. cbv zeta. rewrite Hrl, Hrot.
        split; [reflexivity|]. split; [reflexivity|].
        exists (e1 ++ [RateLimited (current_key_index (module st1))]).
        assert (He2 : trace (log st1 (RateLimited (current_key_index (module st1))))
                      = trace st
                        ++ e1 ++ [RateLimited (current_key_index (module st1))]).
        { cbn [trace log]. rewrite He1, app_assoc. reflexivity. }
        split; [exact He2|].
        cbn [finish events]. now rewrite (since_app _ _ _ He2).
    + destruct (S r <? max_retries)%nat eqn:Hs.
      * intros H.
        set (st3 := log (log st1 (Failed (current_key_index (module st1))))
                        (Slept (2 ^ Z.of_nat (S r)))) in *.
        assert (He3 : trace st3 = trace st
                        ++ e1 ++ [Failed (current_key_index (module st1));
                                  Slept (2 ^ Z.of_nat (S r))]).
        { subst st3. cbn [trace log]. rewrite He1, <- !app_assoc.
          reflexivity. }
        destruct (IH st3 (S r) k (evs0 ++ since st st3) st' out H)
          as (j & rq' & Hrun & Hout & evs & Htr & Hev).
        exists (S j), rq'.
        cbn [turns turn outcome retries keys_tried rq_max_retries rq_prompt].
        rewrite Hc, Ha. cbv zeta. rewrite Hrl, Hs.
        split; [exact Hrun|]. split; [exact Hout|].
        exists ((e1 ++ [Failed (current_key_index (module st1));
                        Slept (2 ^ Z.of_nat (S r))]) ++ evs).
        split.
        -- rewrite Htr, He3, <- !app_assoc. reflexivity.
        -- rewrite Hev, (since_app st st3 _ He3), <- !app_assoc. reflexivity.
      * intros H. injection H as <- <-. exists 1%nat. eexists.
        cbn [turns turn outcome retries keys_tried rq_max_retries rq_prompt].
        rewrite Hc, Ha. cbv zeta. rewrite Hrl, Hs.
        split; [reflexivity|]. split; [reflexivity|].
        exists (e1 ++ [Failed (current_key_index (module st1))]).
        assert (He2 : trace (log st1 (Failed (current_key_index (module st1))))
                      = trace st
                        ++ e1 ++ [Failed (current_key_index (module st1))]).
        { cbn [trace log]. rewrite He1, app_assoc. reflexivity. }
        split; [exact He2|].
        cbn [finish events]. now rewrite (since_app _ _ _ He2).
Qed.

End Turns.

(** A request that runs alone on an initialised module ends, turn by turn,
    as [generate_with_retry] does. *)
Lemma generate_with_retry_alone
      (env : AI.Env) (prompt : string) (max_retries : nat) (st : AI.Run) :
  ready (AI.module st) ->
  exists j rq' events,
    AI.turns env j (AI.start (AI.module st) prompt max_retries) st
    = (rq', fst (AI.generate_with_retry env prompt max_retries st))
    /\ AI.outcome rq'
       = Some (snd (AI.generate_with_retry env prompt max_retries st))
    /\ AI.trace (fst (AI.generate_with_retry env prompt max_retries st))
       = AI.trace st ++ events
    /\ AI.events rq' = events.
Proof.
  intros Hready.
  assert (Hn : (1 <= List.length (AI.gemini_models (AI.module st)))%nat)
    by (destruct Hready as [_ H]; lia).
  destruct (retry_loop_pass env prompt max_retries
              (max_retries + List.length (AI.gemini_models (AI.module st)))
              st 0 0 Hready)
    as (st' & out & events & Hrun & _); [lia | lia |].
  destruct (retry_loop_turns env prompt max_retries _ st 0 0 [] st' out Hrun)
    as (j & rq' & Hturns & Hout & evs & Htr & Hev).
  unfold AI.generate_with_retry, AI.start.
  destruct Hready as [Hi _]. rewrite Hi. cbn [negb]. rewrite Hrun.
  cbn [fst snd]. exists j, rq', evs.
  split; [exact Hturns|]. split; [exact Hout|]. split; [exact Htr | exact Hev].
Qed.

(** C8, at two requests in flight on a module with two credentials that
    are both over their quota, as two seeds with the competitor search
    enabled start them.  The first request is rate-limited on credential 0
    and advances the shared index to 1; the second request then is
    rate-limited on credential 1 and advances the shared index back to 0;
    the first request retries, on credential 0 again, is rate-limited
    again and, having counted two credentials, gives up with no response.
    Within that one request credential 0 was attempted twice on account of
    rate limits and credential 1 was never attempted.  Alone, the same
    request tries credential 0 and then credential 1. *)
Theorem generate_with_retry_threads_repeat_a_credential :
  let env := SampleAI.env SampleAI.always_rate_limited true in
  let final :=
    AI.run_schedule env [AI.ThreadA; AI.ThreadB; AI.ThreadA; AI.ThreadA]
                    SampleAI.two_requests in
  AI.events (AI.request_a final)
  = [ AI.Attempt 0 "competitors of a.com"; AI.RateLimited 0;
      AI.Attempt 0 "competitors of a.com"; AI.RateLimited 0 ]
  /\ AI.outcome (AI.request_a final) = Some (Return None)
  /\ AI.keys_tried (AI.request_a final) = 2%nat
  /\ ~ NoDup (rate_limited (AI.events (AI.request_a final)))
  /\ ~ In 1%nat (map fst (attempts (AI.events (AI.request_a final))))
  /\ AI.events (AI.request_b final)
     = [ AI.Attempt 1 "competitors of b.com"; AI.RateLimited 1 ]
  /\ AI.trace (AI.shared final)
     = [ AI.Attempt 0 "competitors of a.com"; AI.RateLimited 0;
         AI.Attempt 1 "competitors of b.com"; AI.RateLimited 1;
         AI.Attempt 0 "competitors of a.com"; AI.RateLimited 0 ]
  /\ rate_limited
       (AI.trace (fst (AI.generate_with_retry env "competitors of a.com" 3
                         (SampleAI.fresh SampleAI.two_keys))))
     = [0%nat; 1%nat].
Proof.
  cbv zeta.
  assert (E : AI.events
                (AI.request_a
                   (AI.run_schedule
                      (SampleAI.env SampleAI.always_rate_limited true)
                      [AI.ThreadA; AI.ThreadB; AI.ThreadA; AI.ThreadA]
                      SampleAI.two_requests))
              = [ AI.Attempt 0 "competitors of a.com"; AI.RateLimited 0;
                  AI.Attempt 0 "competitors of a.com"; AI.RateLimited 0 ])
    by (vm_compute; reflexivity).
  split; [exact E|].
  split; [vm_compute; reflexivity|].
  split; [vm_compute; reflexivity|].
  rewrite E. cbn [rate_limited attempts map fst].
  split.
  { intros H. inversion H as [|x l Hin _]; subst. apply Hin. left. reflexivity. }
  split.
  { intros [H | [H | []]]; discriminate H. }
  split; [vm_compute; reflexivity|].
  split; vm_compute; reflexivity.
Qed.

(* ------------------------------------------------------------------ *)
(** ** Competitor finding *)
(* ------------------------------------------------------------------ *)

Section Competitors.

Import AI.

Variable env : AI.Env.

Lemma scan_results_foreign own results :
  forall found competitors f c out,
    scan_results env own results found competitors = (f, c, out) ->
    Forall (foreign own) competitors -> Forall (foreign own) c.
Proof.
  induction results as [|result rest IH]; intros found competitors f c out;
    cbn [scan_results].
  - intros E Hc. inversion E; subst. exact Hc.
  - destruct (extract env result) as [result_ext|e].
    2: { intros E Hc. inversion E; subst. exact Hc. }
    cbv zeta.
    destruct (negb (String.eqb (domain result_ext ++ "." ++ suffix result_ext)
                               own)) eqn:Hown; cbn [andb].
    2: { apply IH. }
    destruct (negb (mem _ found) && negb (String.eqb (domain result_ext) "")
              && negb (String.eqb (suffix result_ext) "")).
    2: { apply IH. }
    assert (Hnew : forall cs, Forall (foreign own) cs ->
              Forall (foreign own)
                (cs ++ [("https://" ++ domain result_ext ++ "."
                         ++ suffix result_ext)%string])).
    { intros cs Hcs. apply Forall_app. split; [exact Hcs|].
      constructor; [|constructor].
      eexists. split; [reflexivity|].
      apply negb_true_iff, String.eqb_neq in Hown. exact Hown. }
    destruct (3 <=? List.length _)%nat.
    + intros E Hc. inversion E; subst. apply Hnew, Hc.
    + intros E Hc. eapply IH; [exact E|]. apply Hnew, Hc.
Qed.

Lemma run_query_foreign own query found competitors f c out :
  run_query env own query found competitors = (f, c, out) ->
  Forall (foreign own) competitors -> Forall (foreign own) c.
Proof.
  unfold run_query. destruct (search env query) as [results failure].
  destruct (scan_results env own results found competitors)
    as [[f' c'] out'] eqn:E.
  intros H Hc. pose proof (scan_results_foreign _ _ _ _ _ _ _ E Hc) as Hc'.
  destruct out' as [[|]|e]; try destruct failure;
    inversion H; subst; exact Hc'.
Qed.

Lemma query_loop_foreign own queries :
  forall found competitors,
    Forall (foreign own) competitors ->
    Forall (foreign own) (query_loop env own queries found competitors).
Proof.
  induction queries as [|query rest IH]; intros found competitors Hc;
    cbn [query_loop]; [exact Hc|].
  destruct (run_query env own query found competitors) as [[f c] out] eqn:E.
  pose proof (run_query_foreign _ _ _ _ _ _ _ E Hc) as Hc'.
  destruct out as [b|e]; [destruct (3 <=? List.length c)%nat|]; auto.
Qed.

Lemma find_competitors_fallback_spec seed :
  exists l,
    find_competitors_fallback env seed = Return l
    /\ (List.length l <= 3)%nat
    /\ (GOOGLE_SEARCH_AVAILABLE env = false -> l = [])
    /\ (forall ext, extract env seed = Return ext ->
          Forall (foreign (domain ext ++ "." ++ suffix ext)%string) l).
Proof.
  unfold find_competitors_fallback.
  destruct (GOOGLE_SEARCH_AVAILABLE env); cbn [negb].
  - eexists. split; [reflexivity|].
    split; [apply firstn_le_length|]. split; [discriminate|].
    intros ext Hext. rewrite Hext. unfold take.
    apply Forall_forall. intros c Hc. apply In_firstn_incl in Hc.
    revert c Hc. apply Forall_forall, query_loop_foreign. constructor.
  - exists []. repeat split; auto.
Qed.

Lemma parse_competitors_length response_text l :
  parse_competitors env response_text = Return l -> (List.length l <= 3)%nat.
Proof.
  unfold parse_competitors, bind.
  destruct (json_loads env response_text) as [data|]; [|discriminate].
  destruct (py_get data "competitors" (JArr [])) as [listed|]; [|discriminate].
  destruct (iterate listed) as [comps|]; [|discriminate].
  destruct (collect_urls comps []) as [competitors|]; [|discriminate].
  intros H. injection H as <-. exact (firstn_le_length 3 competitors).
Qed.

(** Whatever the AI path meets, it ends with the parsed list or with what
    the fallback returns. *)
Lemma find_competitors_with_gemini_cases st website_url :
  exists st' l,
    find_competitors_with_gemini env st website_url = (st', Return l)
    /\ (find_competitors_fallback env website_url = Return l
        \/ exists response_text,
             parse_competitors env response_text = Return l).
Proof.
  destruct (find_competitors_fallback_spec website_url) as (fb & Hfb & _).
  unfold find_competitors_with_gemini.
  destruct (negb (is_initialized (module st))); [rewrite Hfb; eauto|].
  destruct (urlparse env website_url); [|rewrite Hfb; eauto].
  destruct (generate_with_retry env (competitor_prompt website_url)
                                default_max_retries st)
    as [st' [[response|]|e]]; try solve [rewrite Hfb; eauto].
  destruct (text response) as [t|e]; [|rewrite Hfb; eauto].
  destruct (parse_competitors env (strip_code_fences env (strip t)))
    as [competitors|e] eqn:E; [|rewrite Hfb; eauto].
  exists st', competitors. split; [reflexivity|]. right. eauto.
Qed.

End Competitors.

(** C7.  Competitor finding returns at most 3 URLs on the AI path and on
    the search fallback, and neither raises; what the fallback returns are
    [https://] URLs of domains other than the seed's registered domain;
    and when the module is not initialised and no search is available the
    result is the empty list. *)
Theorem find_competitors_at_most_three
        (env : AI.Env) (st : AI.Run) (website_url : string) :
  (exists st' l,
     AI.find_competitors_with_gemini env st website_url = (st', Return l)
     /\ (List.length l <= 3)%nat)
  /\ (exists l,
        AI.find_competitors_fallback env website_url = Return l
        /\ (List.length l <= 3)%nat
        /\ (forall ext, AI.extract env website_url = Return ext ->
              Forall (foreign (AI.domain ext ++ "." ++ AI.suffix ext)%string) l))
  /\ (AI.is_initialized (AI.module st) = false ->
      AI.GOOGLE_SEARCH_AVAILABLE env = false ->
      AI.find_competitors_with_gemini env st website_url = (st, Return [])).
Proof.
  destruct (find_competitors_fallback_spec env website_url)
    as (fb & Hfb & Hlen & Hnone & Hforeign).
  split; [|split].
  - destruct (find_competitors_with_gemini_cases env st website_url)
      as (st' & l & Hrun & [Hl | [t Hl]]).
    + exists st', l. split; [exact Hrun|]. congruence.
    + exists st', l. split; [exact Hrun|].
      eapply parse_competitors_length; eassumption.
  - exists fb. repeat split; assumption.
  - intros Hi Hs. unfold AI.find_competitors_with_gemini. rewrite Hi.
    cbn [negb]. rewrite Hfb, (Hnone Hs). reflexivity.
Qed.

(** The search finds the seed, one site twice and four others: three
    distinct foreign sites are returned. *)
Example find_competitors_fallback_sample :
  AI.find_competitors_fallback (SampleAI.env SampleAI.generate_content true)
                               "https://acme.com"
  = Return ["https://widgets.io"; "https://gadgets.net"; "https://things.org"].
Proof. vm_compute. reflexivity. Qed.

(** The model lists four competitors: the first three are returned, each
    with a protocol. *)
Example find_competitors_with_gemini_sample :
  snd (AI.find_competitors_with_gemini
         (SampleAI.env SampleAI.generate_content true)
         (SampleAI.fresh SampleAI.two_keys) "https://acme.com")
  = Return ["https://a.com"; "https://b.com"; "http://c.com"].
Proof. vm_compute. reflexivity. Qed.

(* ------------------------------------------------------------------ *)
(** ** The outreach template *)
(* ------------------------------------------------------------------ *)

Section Outreach.

Import AI.

Lemma append_nonempty (a b : string) (c : ascii) :
  (a ++ String c b)%string <> EmptyString.
Proof. destruct a; discriminate. Qed.

(** The average is below, at or above a score as the sum is against the
    score times the count. *)
Lemma below_average (m : Z) (scores : list Z) :
  scores <> [] ->
  (Qlt (inject_Z m) (average scores)
   <-> m * Z.of_nat (List.length scores) < fold_right Z.add 0 scores).
Proof.
  destruct scores as [|s rest]; [congruence|]. intros _.
  unfold average, Qlt, inject_Z. cbn [Qnum Qden].
  cbn [List.length]. rewrite <- Pos.of_nat_succ, Zpos_P_of_succ_nat.
  rewrite Nat2Z.inj_succ. lia.
Qed.

Lemma is_valid_url_parses (urlparse : string -> Exc Utils.ParseResult) u :
  Utils.is_valid_url urlparse u = true ->
  exists p, urlparse u = Return p /\ Utils.netloc p <> "".
Proof.
  unfold Utils.is_valid_url. destruct (urlparse u) as [p|e]; [|discriminate].
  intros H. exists p. split; [reflexivity|].
  apply andb_true_iff in H. destruct H as [_ H].
  apply negb_true_iff, String.eqb_neq in H. exact H.
Qed.

End Outreach.

(** C9.  For a main-site result (its URL passed [is_valid_url], as every
    entry of [websites] has) and any list of competitor results,
    [generate_fallback_outreach] returns a non-empty message: an opening,
    the issues text and the fixed call to action with its 25-40%
    estimate.  The opening is the "behind" one exactly when the main score
    is strictly below the average score of the competitors without error,
    the "ahead" one otherwise, also when there is no such competitor; the
    issues text names the first two issues at most. *)
Theorem generate_fallback_outreach_total
        (env : AI.Env) (main_site_data : AnalysisResult)
        (competitor_data : list AnalysisResult) :
  Utils.is_valid_url (AI.urlparse env) (Analyzer.url main_site_data) = true ->
  exists p message opening issues_text,
    AI.urlparse env (Analyzer.url main_site_data) = Return p
    /\ AI.generate_fallback_outreach env main_site_data competitor_data
       = Return message
    /\ message <> EmptyString
    /\ message = (opening ++ " " ++ issues_text ++ ". " ++ newline
                  ++ AI.call_to_action)%string
    /\ contains "25-40% within 3 months" AI.call_to_action = true
    /\ (let scores :=
          map AI.get_seo_score
              (filter (fun c => negb (AI.has_error c)) competitor_data) in
        let main_score := AI.get_seo_score main_site_data in
        (scores <> [] ->
         main_score * Z.of_nat (List.length scores) < fold_right Z.add 0 scores ->
         opening = AI.opening_behind
                     (Utils.netloc p)
                     (Qminus (AI.average scores) (inject_Z main_score)))
        /\ (scores <> [] ->
            fold_right Z.add 0 scores
            <= main_score * Z.of_nat (List.length scores) ->
            opening = AI.opening_ahead (Utils.netloc p))
        /\ (scores = [] -> 0 <= main_score ->
            opening = AI.opening_ahead (Utils.netloc p)))
    /\ (issues main_site_data = [] ->
        issues_text = "Several technical improvements needed")
    /\ (issues main_site_data <> [] ->
        issues_text
        = ("Key issues: "
           ++ join ", " (firstn 2 (issues main_site_data)))%string).
Proof.
  intros Hvalid.
  destruct (is_valid_url_parses _ _ Hvalid) as (p & Hp & _).
  unfold AI.generate_fallback_outreach. rewrite Hp. cbn [bind].
  set (scores := map AI.get_seo_score
                     (filter (fun c => negb (AI.has_error c)) competitor_data)).
  set (main_score := AI.get_seo_score main_site_data).
  exists p. eexists. eexists. eexists.
  split; [reflexivity|]. split; [reflexivity|].
  split; [apply append_nonempty|].
  split; [reflexivity|].
  split; [vm_compute; reflexivity|].
  split; [|split].
  - cbv zeta.
    destruct (Qlt_le_dec (inject_Z main_score) (AI.average scores)) as [Hlt|Hge].
    + split; [reflexivity|]. split.
      * intros Hne Hsum. apply (below_average main_score scores Hne) in Hlt.
        lia.
      * intros Hnil Hpos. rewrite Hnil in Hlt.
        unfold AI.average, Qlt, inject_Z in Hlt. cbn in Hlt. lia.
    + split; [|split; reflexivity].
      intros Hne Hsum. apply Qle_not_lt in Hge. exfalso. apply Hge.
      apply (below_average main_score scores Hne). exact Hsum.
  - intros Hnil. rewrite Hnil. reflexivity.
  - intros Hne. destruct (issues main_site_data); [congruence|reflexivity].
Qed.

Lemma generate_fallback_outreach_total_witness :
  exists p message opening issues_text,
    AI.urlparse (SampleAI.env SampleAI.generate_content true)
                (Analyzer.url Sample.worst_result) = Return p
    /\ AI.generate_fallback_outreach
         (SampleAI.env SampleAI.generate_content true)
         Sample.worst_result [] = Return message
    /\ message <> EmptyString
    /\ message = (opening ++ " " ++ issues_text ++ ". " ++ newline
                  ++ AI.call_to_action)%string.
Proof.
  destruct (generate_fallback_outreach_total
              (SampleAI.env SampleAI.generate_content true)
              Sample.worst_result [])
    as (p & message & opening & issues_text & H1 & H2 & H3 & H4 & _).
  - vm_compute. reflexivity.
  - exists p, message, opening, issues_text.
    split; [exact H1 | split; [exact H2 | split; [exact H3 | exact H4]]].
Defined.

(** A main site at 15 against competitors at 88 and 91: the gap of 74.5 is
    printed as 74. *)
Example generate_fallback_outreach_behind :
  AI.generate_fallback_outreach
    (SampleAI.env SampleAI.generate_content true)
    (append_issue (append_issue (append_issue
       (set_seo_score Sample.worst_result 15)
       "Missing title tag") "Missing H1 tag") "Not using HTTPS")
    [ set_seo_score Sample.worst_result 88;
      set_seo_score Sample.worst_result 91;
      set_error (set_seo_score Sample.worst_result 0) "Timeout" ]
  = Return
      ("Your competitors are outranking acme.com with 74 points higher SEO scores."
       ++ " Key issues: Missing title tag, Missing H1 tag. " ++ newline
       ++ AI.call_to_action)%string.
Proof. vm_compute. reflexivity. Qed.

(* ------------------------------------------------------------------ *)
(** ** The pipeline *)
(* ------------------------------------------------------------------ *)

(** C5, at the same site entered on two lines: [parse_websites] keeps both
    lines, the run dispatches the URL twice and its result list holds two
    results for the one URL. *)
Theorem run_analysis_duplicate_seed_analysed_twice :
  App.parse_websites SampleApp.env SampleApp.same_site_twice
  = ["https://acme.com"; "https://acme.com"]
  /\ App.sites_to_analyze
       (App.parse_websites SampleApp.env SampleApp.same_site_twice) []
     = ["https://acme.com"; "https://acme.com"]
  /\ map (fun r => Analyzer.url (App.analysis r))
         (snd (App.run_analysis SampleApp.env
                 (SampleAI.fresh SampleAI.not_initialized) false
                 (App.parse_websites SampleApp.env SampleApp.same_site_twice)))
     = ["https://acme.com"; "https://acme.com"]
  /\ ~ NoDup (map (fun r => Analyzer.url (App.analysis r))
                  (snd (App.run_analysis SampleApp.env
                          (SampleAI.fresh SampleAI.not_initialized) false
                          (App.parse_websites SampleApp.env
                                              SampleApp.same_site_twice)))).
Proof.
  assert (E : map (fun r => Analyzer.url (App.analysis r))
                  (snd (App.run_analysis SampleApp.env
                          (SampleAI.fresh SampleAI.not_initialized) false
                          (App.parse_websites SampleApp.env
                                              SampleApp.same_site_twice)))
              = ["https://acme.com"; "https://acme.com"])
    by (vm_compute; reflexivity).
  split; [vm_compute; reflexivity|].
  split; [vm_compute; reflexivity|].
  split; [exact E|].
  rewrite E. intros H. inversion H as [|x l Hin _]; subst.
  apply Hin. left. reflexivity.
Qed.

(** Two distinct seeds, one answering and one timing out: two results, the
    first scored and without error, the second with the timeout error and
    score 0. *)
Example run_analysis_two_sites :
  map (fun r => (Analyzer.url (App.analysis r), error (App.analysis r),
                 seo_score (App.analysis r), App.is_competitor r,
                 App.main_site r))
      (snd (App.run_analysis SampleApp.env
              (SampleAI.fresh SampleAI.not_initialized) false
              (App.parse_websites SampleApp.env SampleApp.two_sites)))
  = [ ("https://acme.com", None, Some 88, false, Some "https://acme.com");
      ("https://slow.com", Some "Website took too long to respond", Some 0,
       false, Some "https://slow.com") ].
Proof. vm_compute. reflexivity. Qed.

(* ------------------------------------------------------------------ *)
(** ** utils.py: further properties *)
(* ------------------------------------------------------------------ *)

Section Strip.

Lemma lstrip_lstrip s : lstrip (lstrip s) = lstrip s.
Proof.
  induction s as [|c t IH]; [reflexivity|].
  cbn [lstrip]. destruct (is_space c) eqn:E; [exact IH|].
  cbn [lstrip]. rewrite E. reflexivity.
Qed.

Lemma rstrip_cons c u :
  rstrip (String c u)
  = match rstrip u with
    | EmptyString => if is_space c then EmptyString else String c EmptyString
    | r => String c r
    end.
Proof. reflexivity. Qed.

Lemma rstrip_rstrip s : rstrip (rstrip s) = rstrip s.
Proof.
  induction s as [|c t IH]; [reflexivity|].
  rewrite rstrip_cons. destruct (rstrip t) as [|d r] eqn:E.
  - destruct (is_space c) eqn:Ec; [reflexivity|].
    rewrite rstrip_cons. cbn [rstrip]. rewrite Ec. reflexivity.
  - rewrite rstrip_cons, IH. reflexivity.
Qed.

Lemma rstrip_head c t :
  is_space c = false -> exists r, rstrip (String c t) = String c r.
Proof.
  intros E. cbn [rstrip]. destruct (rstrip t); [rewrite E|]; eauto.
Qed.

(** Stripping on the right keeps a string that does not start with a
    space that way. *)
Lemma lstrip_rstrip s : lstrip s = s -> lstrip (rstrip s) = rstrip s.
Proof.
  destruct s as [|c t]; [reflexivity|].
  cbn [lstrip]. destruct (is_space c) eqn:E.
  - intros H. exfalso.
    assert (L : (String.length (lstrip t) <= String.length t)%nat).
    { clear. induction t as [|d t IH]; cbn [lstrip]; [lia|].
      destruct (is_space d); cbn [String.length] in *; lia. }
    rewrite H in L. cbn [String.length] in L. lia.
  - intros _. destruct (rstrip_head c t E) as [r ->].
    cbn [lstrip]. rewrite E. reflexivity.
Qed.

Lemma strip_strip s : strip (strip s) = strip s.
Proof.
  unfold strip.
  rewrite (lstrip_rstrip (lstrip s) (lstrip_lstrip s)).
  apply rstrip_rstrip.
Qed.

Lemma rstrip_app a b :
  rstrip b <> EmptyString -> rstrip (a ++ b) = (a ++ rstrip b)%string.
Proof.
  intros Hb. induction a as [|c a IH]; [reflexivity|].
  change (rstrip (String c (a ++ b)) = String c (a ++ rstrip b)).
  cbn [rstrip]. rewrite IH.
  destruct (a ++ rstrip b)%string eqn:E; [|reflexivity].
  destruct a; cbn in E; [congruence | discriminate].
Qed.

End Strip.

Section EnsureProtocol.

Import Utils.

Lemma nonempty_chars s :
  nonempty (list_ascii_of_string s) = negb (String.eqb s "").
Proof. destruct s; reflexivity. Qed.

Lemma prefix_app p s : String.prefix p (p ++ s) = true.
Proof.
  induction p as [|c p IH]; [destruct s; reflexivity|].
  cbn [String.append String.prefix].
  destruct (ascii_dec c c); [exact IH | congruence].
Qed.

Lemma has_protocol_https s : has_protocol ("https://" ++ s) = true.
Proof.
  unfold has_protocol, startswith. rewrite (prefix_app "https://" s).
  apply orb_true_r.
Qed.

Lemma ensure_url_protocol_cases u :
  (strip u <> "" /\ has_protocol (strip u) = false
   /\ ensure_url_protocol u = ("https://" ++ strip u)%string)
  \/ ((strip u = "" \/ has_protocol (strip u) = true)
      /\ ensure_url_protocol u = strip u).
Proof.
  unfold ensure_url_protocol, has_protocol. rewrite nonempty_chars.
  destruct (String.eqb_spec (strip u) "") as [E|E]; cbn [negb andb].
  - right. auto.
  - destruct (startswith (strip u) "http://" || startswith (strip u) "https://");
      cbn [negb]; [right | left]; auto.
Qed.

End EnsureProtocol.

(** X1.  [ensure_url_protocol] returns the empty string or a URL that
    starts with [http://] or [https://], and applying it twice is the same
    as applying it once. *)
Theorem ensure_url_protocol_idempotent (u : string) :
  (Utils.ensure_url_protocol u = ""
   \/ has_protocol (Utils.ensure_url_protocol u) = true)
  /\ Utils.ensure_url_protocol (Utils.ensure_url_protocol u)
     = Utils.ensure_url_protocol u.
Proof.
  destruct (ensure_url_protocol_cases u) as [(Hne & Hp & E) | ([He | Hp] & E)].
  - assert (S : strip ("https://" ++ strip u) = ("https://" ++ strip u)%string).
    { unfold strip at 1. cbn [lstrip String.append].
      change (rstrip ("https://" ++ strip u) = ("https://" ++ strip u)%string).
      assert (R : rstrip (strip u) = strip u)
        by (unfold strip; apply rstrip_rstrip).
      rewrite rstrip_app; rewrite R; [reflexivity | exact Hne]. }
    split.
    + right. rewrite E. apply has_protocol_https.
    + rewrite E.
      destruct (ensure_url_protocol_cases ("https://" ++ strip u))
        as [(_ & Hp' & _) | (_ & E')].
      * rewrite S, has_protocol_https in Hp'. discriminate Hp'.
      * rewrite E', S. reflexivity.
  - split; [left; congruence|]. rewrite E, He. reflexivity.
  - split; [right; congruence|]. rewrite E.
    destruct (ensure_url_protocol_cases (strip u))
      as [(_ & Hp' & _) | (_ & E')].
    + rewrite strip_strip in Hp'. congruence.
    + rewrite E'. apply strip_strip.
Qed.

Section ParseWebsites.

Lemma fold_left_collect {A B} (p : A -> bool) (f : A -> B) (q : B -> bool)
      (l : list A) (acc : list B) :
  fold_left (fun acc x => if p x then (if q (f x) then acc ++ [f x] else acc)
                          else acc) l acc
  = acc ++ filter q (map f (filter p l)).
Proof.
  revert acc. induction l as [|x l IH]; intros acc; cbn [fold_left filter map].
  - now rewrite app_nil_r.
  - rewrite IH. destruct (p x); cbn [map filter]; [|reflexivity].
    destruct (q (f x)); [now rewrite <- app_assoc | reflexivity].
Qed.

End ParseWebsites.

(** X2.  [parse_websites] keeps, in the order of the lines, the URL of
    every non-blank line that is valid once given a protocol: blank lines
    and invalid URLs are dropped, nothing is reordered and repeated lines
    stay repeated.  Every URL it keeps passed [is_valid_url] and starts
    with [http://] or [https://]. *)
Theorem parse_websites_keeps_valid_lines (env : App.Env) (text : string) :
  App.parse_websites env text
  = filter (Utils.is_valid_url (Analyzer.urlparse (App.analyzer_env env)))
           (map (fun line => Utils.ensure_url_protocol (strip line))
                (filter (fun line => negb (String.eqb (strip line) ""))
                        (split App.newline_char (strip text))))
  /\ forall u, In u (App.parse_websites env text) ->
       Utils.is_valid_url (Analyzer.urlparse (App.analyzer_env env)) u = true
       /\ has_protocol u = true.
Proof.
  assert (E : App.parse_websites env text
              = filter (Utils.is_valid_url
                          (Analyzer.urlparse (App.analyzer_env env)))
                  (map (fun line => Utils.ensure_url_protocol (strip line))
                     (filter (fun line => negb (String.eqb (strip line) ""))
                        (split App.newline_char (strip text))))).
  { unfold App.parse_websites.
    apply (fold_left_collect
             (fun line => negb (String.eqb (strip line) ""))
             (fun line => Utils.ensure_url_protocol (strip line))). }
  split; [exact E|].
  intros u Hu. rewrite E in Hu. apply filter_In in Hu. destruct Hu as [Hu Hv].
  split; [exact Hv|].
  apply in_map_iff in Hu. destruct Hu as (line & <- & Hl).
  apply filter_In in Hl. destruct Hl as [_ Hne].
  apply negb_true_iff, String.eqb_neq in Hne.
  destruct (ensure_url_protocol_cases (strip line))
    as [(_ & _ & ->) | ([He | Hp] & ->)].
  - apply has_protocol_https.
  - rewrite strip_strip in He. contradiction.
  - exact Hp.
Qed.

Section Truncate.

Lemma substring_length n s :
  String.length (String.substring 0 n s) = Nat.min n (String.length s).
Proof.
  revert s. induction n as [|n IH]; intros s.
  - destruct s; reflexivity.
  - destruct s as [|c s]; [reflexivity|].
    cbn [String.substring String.length Nat.min]. rewrite IH. reflexivity.
Qed.

Lemma append_length (a b : string) :
  String.length (a ++ b) = (String.length a + String.length b)%nat.
Proof.
  induction a as [|c a IH]; [reflexivity|].
  cbn [String.append String.length]. rewrite IH. reflexivity.
Qed.

End Truncate.

(** X3.  [truncate_text] leaves [None] and any text of at most
    [max_length] characters unchanged; a longer text becomes its first
    [max_length] characters followed by the suffix, which has exactly
    [max_length + len(suffix)] characters: never more than that, but
    possibly more than the text had. *)
Theorem truncate_text_length (text : string) (max_length : nat) (suffix : string) :
  Utils.truncate_text None max_length suffix = None
  /\ exists r,
       Utils.truncate_text (Some text) max_length suffix = Some r
       /\ ((String.length text <= max_length)%nat -> r = text)
       /\ ((max_length < String.length text)%nat ->
           r = (String.substring 0 max_length text ++ suffix)%string
           /\ String.length r = (max_length + String.length suffix)%nat
           /\ String.prefix (String.substring 0 max_length text) text = true).
Proof.
  split; [reflexivity|]. unfold Utils.truncate_text.
  destruct (String.eqb_spec text "") as [->|Hne]; cbn [negb andb].
  - exists "". split; [reflexivity|]. split; [reflexivity|].
    cbn [String.length]. lia.
  - destruct (max_length <? String.length text)%nat eqn:E.
    + apply Nat.ltb_lt in E. eexists. split; [reflexivity|].
      split; [lia|]. intros _. split; [reflexivity|].
      split.
      * rewrite append_length, substring_length. lia.
      * apply String.prefix_correct.
        rewrite substring_length, Nat.min_l by lia. reflexivity.
    + apply Nat.ltb_ge in E. exists text. split; [reflexivity|].
      split; [reflexivity | lia].
Qed.

Section RetryOnFailure.

Context {A : Type}.
Variables (func : nat -> Exc A) (max_retries : nat) (delay : Z).

Let pause (t : nat) : Z := delay * 2 ^ Z.of_nat t.

Lemma retry_turns_success remaining :
  forall attempt slept k a,
    (attempt + remaining = max_retries)%nat ->
    (attempt <= k < max_retries)%nat ->
    (forall j, (attempt <= j < k)%nat -> exists e, func j = Raise e) ->
    func k = Return a ->
    Utils.retry_turns func max_retries delay remaining attempt slept
    = (Return (Some a), slept ++ map pause (seq attempt (k - attempt))).
Proof.
  induction remaining as [|remaining IH]; intros attempt slept k a Hsum Hk Hfail Hok;
    [lia|].
  cbn [Utils.retry_turns].
  destruct (Nat.eq_dec attempt k) as [->|Hneq].
  - rewrite Hok, Nat.sub_diag. cbn [seq map]. now rewrite app_nil_r.
  - destruct (Hfail attempt) as [e He]; [lia|]. rewrite He.
    destruct (attempt =? max_retries - 1)%nat eqn:E;
      [apply Nat.eqb_eq in E; lia|].
    rewrite (IH (S attempt) _ k a); try lia; try assumption.
    + replace (k - attempt)%nat with (S (k - S attempt)) by lia.
      cbn [seq map]. rewrite <- app_assoc. reflexivity.
    + intros j Hj. apply Hfail. lia.
Qed.

Lemma retry_turns_failure remaining :
  forall attempt slept e,
    (attempt + remaining = max_retries)%nat ->
    (0 < remaining)%nat ->
    (forall j, (attempt <= j < max_retries)%nat -> exists e', func j = Raise e') ->
    func (max_retries - 1)%nat = Raise e ->
    Utils.retry_turns func max_retries delay remaining attempt slept
    = (Raise e, slept ++ map pause (seq attempt (max_retries - 1 - attempt))).
Proof.
  induction remaining as [|remaining IH]; intros attempt slept e Hsum Hpos Hfail Hlast;
    [lia|].
  cbn [Utils.retry_turns].
  destruct (Hfail attempt) as [e' He']; [lia|]. rewrite He'.
  destruct (attempt =? max_retries - 1)%nat eqn:E.
  - apply Nat.eqb_eq in E. rewrite <- E in Hlast.
    assert (e' = e) by congruence. subst e'.
    replace (max_retries - 1 - attempt)%nat with 0%nat by lia.
    cbn [seq map]. now rewrite app_nil_r.
  - apply Nat.eqb_neq in E.
    rewrite (IH (S attempt) _ e); try lia; try assumption.
    + replace (max_retries - 1 - attempt)%nat
        with (S (max_retries - 1 - S attempt)) by lia.
      cbn [seq map]. rewrite <- app_assoc. reflexivity.
    + intros j Hj. apply Hfail. lia.
Qed.

End RetryOnFailure.

(** X4.  [retry_on_failure] returns what the first successful call
    returns, after one pause of [delay * 2^t] for each failed call [t]
    before it; when all [max_retries] calls fail it raises the exception of
    the last one, having paused [max_retries - 1] times; with
    [max_retries = 0] it returns [None] without calling. *)
Theorem retry_on_failure_first_success
        {A : Type} (func : nat -> Exc A) (max_retries : nat) (delay : Z) :
  Utils.retry_on_failure func 0 delay = (Return None, [])
  /\ (forall k a,
        (k < max_retries)%nat ->
        (forall j, (j < k)%nat -> exists e, func j = Raise e) ->
        func k = Return a ->
        Utils.retry_on_failure func max_retries delay
        = (Return (Some a),
           map (fun t => delay * 2 ^ Z.of_nat t) (seq 0 k)))
  /\ (forall e,
        (0 < max_retries)%nat ->
        (forall j, (j < max_retries)%nat -> exists e', func j = Raise e') ->
        func (max_retries - 1)%nat = Raise e ->
        Utils.retry_on_failure func max_retries delay
        = (Raise e,
           map (fun t => delay * 2 ^ Z.of_nat t) (seq 0 (max_retries - 1)))).
Proof.
  split; [reflexivity|]. split.
  - intros k a Hk Hfail Hok. unfold Utils.retry_on_failure.
    rewrite (retry_turns_success func max_retries delay max_retries 0 [] k a);
      try lia; try assumption.
    + now rewrite Nat.sub_0_r.
    + intros j Hj. apply Hfail. lia.
  - intros e Hpos Hfail Hlast. unfold Utils.retry_on_failure.
    rewrite (retry_turns_failure func max_retries delay max_retries 0 [] e);
      try lia; try assumption.
    + now rewrite Nat.sub_0_r.
    + intros j Hj. apply Hfail. lia.
Qed.

(** Two failures, then a value: two pauses, of one and two delays. *)
Example retry_on_failure_third_call :
  Utils.retry_on_failure
    (fun k => if (k <? 2)%nat then Raise (mk_exn ValueError "no")
              else Return k) 3 1
  = (Return (Some 2%nat), [1; 2]).
Proof. reflexivity. Qed.

Section SafeGet.

Lemma dict_get_same {V} (k : string) (v : V) rest default :
  dict_get ((k, v) :: rest) k default = v.
Proof. cbn [dict_get]. now rewrite String.eqb_refl. Qed.

Lemma safe_get_of_default keys default :
  is_dict default = false ->
  Utils.safe_get_dict_value default keys default = default.
Proof.
  intros H. destruct keys as [|k rest]; [reflexivity|].
  destruct default; try reflexivity. discriminate H.
Qed.

End SafeGet.

(** X5.  [safe_get_dict_value] finds what was stored under a path of keys;
    with a default that is not a dictionary, looking up a path in two
    stages is the same as looking it up at once; and a value that is not
    a dictionary answers any further key with the default. *)
Theorem safe_get_dict_value_paths
        (value v default : json) (keys keys' : list string) :
  Utils.safe_get_dict_value (nest keys v) keys default = v
  /\ (is_dict default = false ->
      Utils.safe_get_dict_value value (keys ++ keys') default
      = Utils.safe_get_dict_value
          (Utils.safe_get_dict_value value keys default) keys' default)
  /\ (is_dict value = false -> keys <> [] ->
      Utils.safe_get_dict_value value keys default = default).
Proof.
  split; [|split].
  - induction keys as [|k rest IH]; [reflexivity|].
    cbn [nest Utils.safe_get_dict_value]. rewrite dict_get_same. exact IH.
  - intros Hd. revert value.
    induction keys as [|k rest IH]; intros value; [reflexivity|].
    cbn [app Utils.safe_get_dict_value].
    destruct value; try (symmetry; apply (safe_get_of_default keys' _ Hd)).
    apply IH.
  - intros Hv Hk. destruct keys as [|k rest]; [congruence|].
    destruct value; try reflexivity. discriminate Hv.
Qed.

(** With a dictionary as default, a missing key continues the search in
    the default. *)
Example safe_get_dict_value_searches_default :
  Utils.safe_get_dict_value (JObj []) ["a"; "b"] (JObj [("b", JNum 1)])
  = JNum 1.
Proof. reflexivity. Qed.

(* ------------------------------------------------------------------ *)
(** ** ai_module.py: further properties *)
(* ------------------------------------------------------------------ *)

Section Keys.

Import AI.

Lemma mem_In x l : mem x l = true <-> In x l.
Proof.
  unfold mem. rewrite existsb_exists. split.
  - intros (y & Hy & E). apply String.eqb_eq in E. now subst.
  - intros H. exists x. split; [exact H | apply String.eqb_refl].
Qed.

Lemma mem_not_In x l : mem x l = false <-> ~ In x l.
Proof.
  rewrite <- mem_In. destruct (mem x l); split; intros; congruence.
Qed.

Lemma remove_first_In x y l : In y (remove_first x l) -> In y l.
Proof.
  induction l as [|z l IH]; cbn [remove_first]; [tauto|].
  destruct (String.eqb x z); cbn [In]; tauto.
Qed.

Lemma remove_first_NoDup x l :
  NoDup l -> NoDup (remove_first x l) /\ ~ In x (remove_first x l).
Proof.
  induction 1 as [|z l Hz Hl [IH1 IH2]]; cbn [remove_first].
  - split; [constructor | tauto].
  - destruct (String.eqb_spec x z) as [->|Hne].
    + split; assumption.
    + split.
      * constructor; [|exact IH1]. intros Hin. apply Hz.
        eapply remove_first_In; eassumption.
      * cbn [In]. intros [E | Hin]; [congruence | tauto].
Qed.

Lemma remove_first_last x l : ~ In x l -> remove_first x (l ++ [x]) = l.
Proof.
  induction l as [|z l IH]; cbn [remove_first app]; intros Hx.
  - now rewrite String.eqb_refl.
  - destruct (String.eqb_spec x z) as [->|Hne].
    + exfalso. apply Hx. now left.
    + rewrite IH; [reflexivity|]. intros Hin. apply Hx. now right.
Qed.

End Keys.

(** X6.  On a duplicate-free key list: [add_key] and [remove_key] keep the
    list duplicate-free; [add_key] refuses (returns [False], list
    unchanged) exactly the empty key and a key already listed, and
    otherwise appends the key; after [remove_key] the key is not listed;
    and removing a key just added gives the list back. *)
Theorem key_list_stays_duplicate_free (api_keys : list string) (api_key : string) :
  NoDup api_keys ->
  NoDup (fst (AI.add_key api_keys api_key))
  /\ NoDup (fst (AI.remove_key api_keys api_key))
  /\ ~ In api_key (fst (AI.remove_key api_keys api_key))
  /\ (snd (AI.add_key api_keys api_key) = false
      <-> api_key = "" \/ In api_key api_keys)
  /\ (snd (AI.add_key api_keys api_key) = false ->
      fst (AI.add_key api_keys api_key) = api_keys)
  /\ (snd (AI.add_key api_keys api_key) = true ->
      fst (AI.add_key api_keys api_key) = api_keys ++ [api_key]
      /\ AI.remove_key (fst (AI.add_key api_keys api_key)) api_key
         = (api_keys, true)).
Proof.
  intros Hnd. unfold AI.add_key, AI.remove_key.
  destruct (String.eqb_spec api_key "") as [He|He]; cbn [negb andb fst snd].
  - subst api_key.
    destruct (mem "" api_keys) eqn:Hm; cbn [fst snd].
    + destruct (remove_first_NoDup "" api_keys Hnd).
      repeat split; auto; try discriminate.
    + apply mem_not_In in Hm.
      repeat split; auto; try discriminate.
  - destruct (mem api_key api_keys) eqn:Hm; cbn [negb fst snd].
    + pose proof (proj1 (mem_In _ _) Hm) as Hin.
      destruct (remove_first_NoDup api_key api_keys Hnd).
      repeat split; auto; try discriminate.
    + pose proof (proj1 (mem_not_In _ _) Hm) as Hout.
      assert (Hnew : NoDup (api_keys ++ [api_key])).
      { apply NoDup_app; [exact Hnd | repeat constructor; tauto |].
        intros x Hx [-> | []]. contradiction. }
      repeat split; auto; try discriminate.
      * intros [E | Hin]; contradiction.
      * assert (Hm' : mem api_key (api_keys ++ [api_key]) = true)
          by (apply mem_In, in_or_app; right; now left).
        rewrite Hm', remove_first_last by exact Hout. reflexivity.
Qed.

Lemma key_list_stays_duplicate_free_witness :
  NoDup (fst (AI.add_key ["k1"; "k2"] "k3"))
  /\ NoDup (fst (AI.remove_key ["k1"; "k2"] "k3")).
Proof.
  destruct (key_list_stays_duplicate_free ["k1"; "k2"] "k3") as (H1 & H2 & _).
  - repeat constructor; simpl; intuition discriminate.
  - split; assumption.
Defined.

(** X7.  [initialize] returns [True] exactly when the library is available
    and some key, stored or given as primary key, passes the probe.  It
    then leaves the module initialised on its first credential, with one
    model per key and only keys that passed the probe, in the order they
    had: the state [generate_with_retry] relies on. *)
Theorem initialize_leaves_module_ready
        (available : bool) (probe : string -> bool)
        (primary_key : option string) (k : AI.Keyed) :
  (snd (AI.initialize available probe primary_key k) = Return true
   <-> available = true
       /\ exists key, probe key = true
                      /\ (In key (AI.api_keys k)
                          \/ (primary_key = Some key /\ key <> "")))
  /\ (snd (AI.initialize available probe primary_key k) = Return true ->
      let k' := fst (AI.initialize available probe primary_key k) in
      ready (AI.state k')
      /\ AI.current_key_index (AI.state k') = 0%nat
      /\ List.length (AI.gemini_models (AI.state k'))
         = List.length (AI.api_keys k')
      /\ Forall (fun key => probe key = true) (AI.api_keys k')
      /\ Subsequence (AI.api_keys k')
           (match primary_key with
            | Some key => key :: AI.api_keys k
            | None => AI.api_keys k
            end)).
Proof.
  unfold AI.initialize.
  destruct available; cbn [negb]; [|split; [split; [discriminate|] |discriminate]].
  2: { intros [H _]. discriminate H. }
  set (keys := match primary_key with
               | Some key =>
                   if negb (String.eqb key "") && negb (mem key (AI.api_keys k))
                   then key :: AI.api_keys k else AI.api_keys k
               | None => AI.api_keys k
               end).
  assert (Hkeys : forall key,
             In key keys <->
             In key (AI.api_keys k) \/ (primary_key = Some key /\ key <> "")).
  { intros key. subst keys. destruct primary_key as [pk|].
    - destruct (String.eqb_spec pk "") as [E|E]; cbn [negb andb].
      + split; [tauto|]. intros [H | [H1 H2]]; [exact H|]. congruence.
      + destruct (mem pk (AI.api_keys k)) eqn:M; cbn [negb].
        * apply mem_In in M. split; [tauto|].
          intros [H | [H1 H2]]; [exact H|]. congruence.
        * cbn [In]. split.
          -- intros [<- | H]; [right; split; [reflexivity | exact E] | tauto].
          -- intros [H | [H1 H2]]; [tauto | left; congruence].
    - split; [tauto|]. intros [H | [H _]]; [exact H | discriminate]. }
  assert (Hsub : Subsequence (filter probe keys)
                   (match primary_key with
                    | Some key => key :: AI.api_keys k
                    | None => AI.api_keys k
                    end)).
  { subst keys. destruct primary_key as [pk|]; [|apply Subsequence_filter].
    destruct (negb (String.eqb pk "") && negb (mem pk (AI.api_keys k)));
      [apply Subsequence_filter|].
    apply Subsequence_skip, Subsequence_filter. }
  destruct keys as [|k0 ks] eqn:Ek; cbn [nonempty negb].
  { split; [|discriminate]. split; [discriminate|].
    intros [_ (key & _ & Hin)]. apply Hkeys in Hin. destruct Hin. }
  destruct (filter probe (k0 :: ks)) as [|v vs] eqn:Ev;
    cbn [List.length seq nonempty negb fst snd].
  - split; [|discriminate]. split; [discriminate|].
    intros [_ (key & Hp & Hin)]. apply Hkeys in Hin.
    assert (In key (filter probe (k0 :: ks))) by (apply filter_In; auto).
    rewrite Ev in *. contradiction.
  - split.
    + split; [|reflexivity]. intros _. split; [reflexivity|].
      assert (Hv : In v (filter probe (k0 :: ks))) by (rewrite Ev; now left).
      apply filter_In in Hv. destruct Hv as [Hin Hp].
      exists v. split; [exact Hp|]. apply Hkeys. exact Hin.
    + intros _. cbv zeta. cbn [AI.state AI.api_keys AI.gemini_models
                              AI.current_key_index AI.is_initialized].
      split; [split; [reflexivity | cbn; lia]|].
      split; [reflexivity|].
      split; [cbn [List.length]; now rewrite length_seq|].
      split; [|exact Hsub].
      rewrite <- Ev. apply Forall_forall. intros key Hin.
      apply filter_In in Hin. tauto.
Qed.

Section Rotation.

Import AI.

Lemma rotate_iter m j :
  ready m -> (1 < List.length (gemini_models m))%nat ->
  ready (rotations j m)
  /\ gemini_models (rotations j m) = gemini_models m
  /\ current_key_index (rotations j m)
     = Nat.modulo (current_key_index m + j) (List.length (gemini_models m)).
Proof.
  intros Hready Hn. induction j as [|j (IHr & IHm & IHi)]; cbn [rotations].
  - split; [exact Hready|]. split; [reflexivity|].
    rewrite Nat.add_0_r, Nat.mod_small; [reflexivity | apply Hready].
  - set (mj := rotations j m) in *.
    destruct (ready_rotate _ IHr) as (Hr & Hm & Hrot).
    rewrite IHm in Hrot. apply Nat.ltb_lt in Hn. rewrite Hn in Hrot.
    destruct Hrot as [_ Hidx]. unfold rotate.
    split; [exact Hr|]. split; [rewrite Hm; exact IHm|].
    rewrite Hidx, IHi, Nat.Div0.add_mod_idemp_l. f_equal. lia.
Qed.

End Rotation.

(** X8.  On an initialised module with more than one credential,
    [rotate_key] returns [True], every number of rotations leaves the index
    in range, fewer rotations than there are credentials lead to another
    credential, and as many rotations as there are credentials lead back
    to the first one; with a single credential [rotate_key] returns
    [False] and changes nothing. *)
Theorem rotate_key_full_cycle (m : AI.AIModule) :
  ready m ->
  ((1 < List.length (AI.gemini_models m))%nat ->
   snd (AI.rotate_key m) = true
   /\ AI.current_key_index (rotations (List.length (AI.gemini_models m)) m)
      = AI.current_key_index m
   /\ forall j,
        ready (rotations j m)
        /\ ((0 < j < List.length (AI.gemini_models m))%nat ->
            AI.current_key_index (rotations j m) <> AI.current_key_index m))
  /\ ((List.length (AI.gemini_models m) <= 1)%nat ->
      AI.rotate_key m = (m, false)).
Proof.
  intros Hready. split.
  - intros Hn. split; [|split].
    + destruct (ready_rotate _ Hready) as (_ & _ & Hrot).
      apply Nat.ltb_lt in Hn. rewrite Hn in Hrot. apply Hrot.
    + destruct (rotate_iter m (List.length (AI.gemini_models m)) Hready Hn)
        as (_ & _ & ->).
      rewrite <- (Nat.mul_1_l (List.length (AI.gemini_models m))) at 1.
      rewrite Nat.Div0.mod_add. apply Nat.mod_small, Hready.
    + intros j. destruct (rotate_iter m j Hready Hn) as (Hr & _ & Hi).
      split; [exact Hr|]. intros Hj. rewrite Hi.
      pose proof (mod_shift_injective (List.length (AI.gemini_models m))
                    (AI.current_key_index m) 0 j) as Hinj.
      rewrite Nat.add_0_r, (Nat.mod_small (AI.current_key_index m)) in Hinj
        by apply Hready.
      intros E. apply Hinj; [lia | congruence].
  - intros Hn. destruct (ready_rotate _ Hready) as (_ & _ & Hrot).
    apply Nat.ltb_ge in Hn. rewrite Hn in Hrot. exact Hrot.
Qed.

Lemma rotate_key_full_cycle_witness :
  AI.current_key_index (rotations 2 SampleAI.two_keys) = 0%nat.
Proof.
  destruct (rotate_key_full_cycle SampleAI.two_keys) as [H _].
  - split; [reflexivity | simpl; lia].
  - destruct H as (_ & H & _); [simpl; lia|]. exact H.
Defined.

Section RequestBounds.

Import AI.

Variables (n max_retries : nat) (prompt : string).

Lemma Pass_attempts i r k events i' e :
  Pass n max_retries prompt i r k events i' e ->
  (r < max_retries)%nat -> (k <= n)%nat ->
  (List.length (attempts events) + r + k <= max_retries - 1 + n)%nat.
Proof.
  induction 1 as [| |i r k events i' e Hr Hk Hn Hp IH| |
                  i r k events i' e Hr Hk Hs Hp IH|];
    cbn [attempts List.length]; intros Hr' Hk'; lia.
Qed.

Lemma sum_powers j :
  fold_right Z.add 0 (map (fun t => 2 ^ Z.of_nat (S t)) (seq 0 j))
  = 2 ^ Z.of_nat (S j) - 2.
Proof.
  induction j as [|j IH]; [reflexivity|].
  rewrite seq_S, map_app, fold_right_app. cbn [map fold_right Nat.add].
  assert (G : forall l a, fold_right Z.add a l = fold_right Z.add 0 l + a).
  { induction l as [|x l IHl]; intros a; cbn [fold_right]; [lia|].
    rewrite IHl. lia. }
  rewrite G, IH.
  replace (Z.of_nat (S (S j))) with (Z.succ (Z.of_nat (S j))) by lia.
  rewrite Z.pow_succ_r by lia. lia.
Qed.

End RequestBounds.

Lemma generate_with_retry_pass env prompt max_retries st :
  ready (AI.module st) ->
  exists st' out events,
    AI.generate_with_retry env prompt max_retries st = (st', out)
    /\ AI.trace st' = AI.trace st ++ events
    /\ Pass (List.length (AI.gemini_models (AI.module st))) max_retries prompt
            (AI.current_key_index (AI.module st)) 0 0 events
            (AI.current_key_index (AI.module st')) (ending_of out).
Proof.
  intros Hready.
  set (n := List.length (AI.gemini_models (AI.module st))).
  assert (Hn : (1 <= n)%nat) by (destruct Hready as [_ H]; subst n; lia).
  destruct (retry_loop_pass env prompt max_retries (max_retries + n) st 0 0
                            Hready)
    as (st' & out & events & Hrun & Htr & _ & _ & Hpass);
    [lia | fold n; lia |].
  exists st', out, events. split; [|split; assumption].
  unfold AI.generate_with_retry. destruct Hready as [Hi _]. rewrite Hi.
  cbn [negb]. fold n. rewrite Hrun. reflexivity.
Qed.

(** X9.  A request on a module that is not initialised returns [None]
    without an attempt.  On an initialised module with [n] credentials a
    request makes at most [max_retries + n - 1] attempts and pauses for at
    most [2^max_retries - 2] seconds in all: 6 seconds for the default
    count of 3. *)
Theorem generate_with_retry_bounded
        (env : AI.Env) (prompt : string) (max_retries : nat) (st : AI.Run) :
  (AI.is_initialized (AI.module st) = false ->
   AI.generate_with_retry env prompt max_retries st = (st, Return None))
  /\ (ready (AI.module st) ->
      exists st' out events,
        AI.generate_with_retry env prompt max_retries st = (st', out)
        /\ AI.trace st' = AI.trace st ++ events
        /\ (List.length (attempts events)
            <= max_retries + List.length (AI.gemini_models (AI.module st)) - 1)%nat
        /\ fold_right Z.add 0 (pauses events)
           <= Z.max 0 (2 ^ Z.of_nat max_retries - 2)).
Proof.
  split.
  - intros Hi. unfold AI.generate_with_retry. rewrite Hi. reflexivity.
  - intros Hready.
    destruct (generate_with_retry_pass env prompt max_retries st Hready)
      as (st' & out & events & Hrun & Htr & Hpass).
    exists st', out, events. split; [exact Hrun|]. split; [exact Htr|].
    destruct (Pass_pauses _ _ _ _ _ _ _ _ _ Hpass) as (Hp1 & Hp2 & _ & _).
    split.
    + destruct max_retries as [|mr].
      * inversion Hpass; subst; cbn [attempts List.length]; lia.
      * pose proof (Pass_attempts _ _ _ _ _ _ _ _ _ Hpass) as Ha.
        specialize (Ha ltac:(lia) ltac:(lia)). lia.
    + rewrite Hp1.
      rewrite (map_ext _ (fun t => 2 ^ Z.of_nat (S t)))
        by (intros t; reflexivity).
      rewrite (sum_powers (List.length (pauses events))).
      destruct Hp2 as [-> | Hlt]; [cbn; lia|].
      assert (2 ^ Z.of_nat (S (List.length (pauses events)))
              <= 2 ^ Z.of_nat max_retries)
        by (apply Z.pow_le_mono_r; lia).
      lia.
Qed.

Section CompetitorUrls.

Import AI.

Variable env : AI.Env.

Lemma collect_urls_protocol comps :
  forall competitors l,
    collect_urls comps competitors = Return l ->
    Forall (fun c => has_protocol c = true) competitors ->
    Forall (fun c => has_protocol c = true) l.
Proof.
  induction comps as [|comp rest IH]; intros competitors l; cbn [collect_urls].
  - intros E Hc. injection E as <-. exact Hc.
  - unfold bind. destruct (py_get comp "url" (JStr "")) as [url|]; [|discriminate].
    destruct (json_truthy url); [|apply IH].
    destruct url as [| | |u| |]; try discriminate.
    intros E Hc. eapply IH; [exact E|].
    apply Forall_app. split; [exact Hc|]. constructor; [|constructor].
    fold (has_protocol u). destruct (has_protocol u) eqn:Hp; cbn [negb].
    + exact Hp.
    + apply has_protocol_https.
Qed.

Lemma parse_competitors_protocol response_text l :
  parse_competitors env response_text = Return l ->
  Forall (fun c => has_protocol c = true) l.
Proof.
  unfold parse_competitors, bind.
  destruct (json_loads env response_text) as [data|]; [|discriminate].
  destruct (py_get data "competitors" (JArr [])) as [listed|]; [|discriminate].
  destruct (iterate listed) as [comps|]; [|discriminate].
  destruct (collect_urls comps []) as [competitors|] eqn:E; [|discriminate].
  intros H. injection H as <-.
  pose proof (collect_urls_protocol _ _ _ E (Forall_nil _)) as Hall.
  apply Forall_forall. intros c Hc.
  apply (In_firstn_incl 3 competitors c) in Hc.
  revert c Hc. apply Forall_forall. exact Hall.
Qed.

Lemma https_injective a b :
  ("https://" ++ a)%string = ("https://" ++ b)%string -> a = b.
Proof. cbn [String.append]. intros H. now inversion H. Qed.

Lemma scan_results_collected own results :
  forall found competitors f c out,
    scan_results env own results found competitors = (f, c, out) ->
    collected found competitors -> collected f c.
Proof.
  induction results as [|result rest IH]; intros found competitors f c out;
    cbn [scan_results].
  - intros E Hc. inversion E; subst. exact Hc.
  - destruct (extract env result) as [result_ext|e].
    2: { intros E Hc. inversion E; subst. exact Hc. }
    cbv zeta.
    set (d := (domain result_ext ++ "." ++ suffix result_ext)%string).
    destruct (negb (String.eqb d own)); cbn [andb]; [|apply IH].
    destruct (mem d found) eqn:Hm; cbn [negb andb]; [apply IH|].
    destruct (negb (String.eqb (domain result_ext) "")
              && negb (String.eqb (suffix result_ext) "")); [|apply IH].
    assert (Hnew : collected found competitors ->
                   collected (d :: found)
                             (competitors ++ [("https://" ++ d)%string])).
    { intros [-> Hnd]. split.
      - cbn [rev]. rewrite map_app. reflexivity.
      - constructor; [apply mem_not_In; exact Hm | exact Hnd]. }
    destruct (3 <=? List.length _)%nat.
    + intros E Hc. inversion E; subst. apply Hnew, Hc.
    + intros E Hc. eapply IH; [exact E|]. apply Hnew, Hc.
Qed.

Lemma query_loop_collected own queries :
  forall found competitors,
    collected found competitors ->
    exists found', collected found' (query_loop env own queries found competitors).
Proof.
  induction queries as [|query rest IH]; intros found competitors Hc;
    cbn [query_loop]; [eauto|].
  unfold run_query. destruct (search env query) as [results failure].
  destruct (scan_results env own results found competitors)
    as [[f c] out] eqn:E.
  pose proof (scan_results_collected _ _ _ _ _ _ _ E Hc) as Hc'.
  destruct out as [[|]|e]; [| destruct failure |];
    try destruct (3 <=? List.length c)%nat; eauto.
Qed.

Lemma collected_NoDup found competitors :
  collected found competitors -> NoDup competitors.
Proof.
  intros [-> Hnd]. apply NoDup_rev in Hnd.
  induction Hnd as [|d l Hd Hnd IH]; cbn [map]; constructor; [|exact IH].
  intros Hin. apply in_map_iff in Hin. destruct Hin as (d' & E & Hin).
  apply https_injective in E. subst d'. exact (Hd Hin).
Qed.

End CompetitorUrls.

Lemma find_competitors_fallback_urls (env : AI.Env) (website_url : string) :
  exists l,
    AI.find_competitors_fallback env website_url = Return l
    /\ NoDup l
    /\ Forall (fun c => startswith c "https://" = true) l.
Proof.
  unfold AI.find_competitors_fallback.
  destruct (AI.GOOGLE_SEARCH_AVAILABLE env); cbn [negb].
  2: { exists []. repeat split; constructor. }
  eexists. split; [reflexivity|].
  destruct (AI.extract env website_url) as [ext|e].
  2: { split; constructor. }
  destruct (query_loop_collected env
              (AI.domain ext ++ "." ++ AI.suffix ext)%string
              (take 2 [ (AI.domain ext ++ " competitors")%string;
                        ("sites like " ++ AI.domain ext)%string;
                        (AI.domain ext ++ " alternatives")%string ])
              [] []) as [found Hc].
  { split; [reflexivity | constructor]. }
  split.
  - apply NoDup_firstn. eapply collected_NoDup. exact Hc.
  - apply Forall_forall. intros c Hin. apply In_firstn_incl in Hin.
    destruct Hc as [Hc _]. rewrite Hc in Hin.
    apply in_map_iff in Hin. destruct Hin as (d & <- & _).
    apply (prefix_app "https://" d).
Qed.

Lemma find_competitors_with_gemini_urls
      (env : AI.Env) (st : AI.Run) (website_url : string) :
  exists st' l,
    AI.find_competitors_with_gemini env st website_url = (st', Return l)
    /\ (List.length l <= 3)%nat
    /\ Forall (fun c => has_protocol c = true) l.
Proof.
  destruct (find_competitors_fallback_urls env website_url)
    as (fb & Hfb & _ & Hs).
  destruct (find_competitors_fallback_spec env website_url)
    as (fb' & Hfb' & Hlen & _).
  destruct (find_competitors_with_gemini_cases env st website_url)
    as (st' & l & Hrun & [Hl | [t Hl]]).
  - exists st', l. split; [exact Hrun|].
    assert (l = fb) by congruence. assert (l = fb') by congruence.
    subst fb fb'. split; [exact Hlen|].
    apply Forall_forall. intros c Hc.
    pose proof (proj1 (Forall_forall _ _) Hs c Hc) as Hp.
    unfold has_protocol. rewrite Hp. apply orb_true_r.
  - exists st', l. split; [exact Hrun|]. split.
    + eapply parse_competitors_length. exact Hl.
    + eapply parse_competitors_protocol. exact Hl.
Qed.

(** X10.  Every URL competitor finding returns starts with [http://] or
    [https://], on the AI path and on the fallback; the URLs the fallback
    returns start with [https://] and are pairwise distinct. *)
Theorem competitor_urls_have_a_protocol
        (env : AI.Env) (st : AI.Run) (website_url : string) :
  (exists st' l,
     AI.find_competitors_with_gemini env st website_url = (st', Return l)
     /\ Forall (fun c => has_protocol c = true) l)
  /\ (exists l,
        AI.find_competitors_fallback env website_url = Return l
        /\ NoDup l
        /\ Forall (fun c => startswith c "https://" = true) l).
Proof.
  split; [|apply find_competitors_fallback_urls].
  destruct (find_competitors_with_gemini_urls env st website_url)
    as (st' & l & Hrun & _ & Hp).
  exists st', l. split; assumption.
Qed.

(* ------------------------------------------------------------------ *)
(** ** The steps of one analysis *)
(* ------------------------------------------------------------------ *)

(** X11.  The load-time score is one of 100, 80, 50 and 20 and never rises
    with the load time; it is below 50, the scorer's bar for the slow-load
    penalty, exactly from five seconds on, and then the penalty is
    applied. *)
Theorem _analyze_basic_info_load_time_bands (response : Response) :
  (forall a b : Q,
     Qle a b ->
     load_time_score (_analyze_basic_info response b)
     <= load_time_score (_analyze_basic_info response a))
  /\ (forall t : Q,
        In (load_time_score (_analyze_basic_info response t)) [100; 80; 50; 20])
  /\ (forall t : Q,
        load_time_score (_analyze_basic_info response t) < 50
        <-> Qle (Qmake 5 1) t)
  /\ (forall (t : Q) (result : AnalysisResult) (st : ScoreState),
        Qle (Qmake 5 1) t ->
        performance_penalties
          (set_basic_info result (Some (_analyze_basic_info response t))) st
        = penalize st "Slow load time" 10).
Proof.
  assert (B : forall t : Q,
             load_time_score (_analyze_basic_info response t) < 50
             <-> Qle (Qmake 5 1) t).
  { intros t. unfold _analyze_basic_info; cbn [load_time_score].
    repeat destruct (Qlt_le_dec _ _); split; intros; try lia; try lra;
      try assumption. }
  split; [|split; [|split]].
  - intros a b Hab. unfold _analyze_basic_info; cbn [load_time_score].
    repeat destruct (Qlt_le_dec _ _); try lia; exfalso; lra.
  - intros t. unfold _analyze_basic_info; cbn [load_time_score].
    repeat destruct (Qlt_le_dec _ _); simpl; auto.
  - exact B.
  - intros t result st Ht. apply B in Ht.
    unfold performance_penalties, get_load_time_score.
    cbn [basic_info set_basic_info].
    apply Z.ltb_lt in Ht. rewrite Ht. reflexivity.
Qed.

Section Signals.

Lemma truthy_len (o : option string) :
  truthy o = true <-> 0 < match o with Some s => len s | None => 0 end.
Proof.
  destruct o as [[|c s]|]; unfold len; cbn [truthy String.length];
    split; intros H; try reflexivity; try discriminate; lia.
Qed.

Lemma count_if_bounds {A} (p : A -> bool) (l : list A) :
  0 <= count_if p l <= Z.of_nat (List.length l).
Proof.
  unfold count_if. pose proof (filter_length_le p l). lia.
Qed.

Lemma Return_inj {A} (a b : A) : Return a = Return b -> a = b.
Proof. congruence. Qed.

End Signals.

(** X12.  The signals [_analyze_seo] returns are consistent: a title counts
    as present exactly when its recorded length is positive, and so does
    the meta description; the images without alt text and those without
    lazy loading are at most the images on the page; the [h1] count is the
    number of [h1] tags and at most three of their texts are kept;
    [has_schema] holds exactly when a schema type was found.  The function
    raises only what the schema check raises. *)
Theorem _analyze_seo_signals (soup : Soup) (seo : SeoAnalysis) :
  _analyze_seo soup = Return seo ->
  (truthy (title seo) = true <-> 0 < title_length seo)
  /\ (truthy (meta_description seo) = true <-> 0 < meta_desc_length seo)
  /\ total (images seo) = Z.of_nat (List.length (img_tags soup))
  /\ 0 <= without_alt (images seo) <= total (images seo)
  /\ 0 <= without_lazy_loading (images seo) <= total (images seo)
  /\ dict_get (headers seo) "h1" 0
     = Z.of_nat (List.length (find_all soup "h1"))
  /\ (List.length (h1_text seo) <= 3)%nat
  /\ Z.of_nat (List.length (h1_text seo)) <= dict_get (headers seo) "h1" 0
  /\ (has_schema seo = true <-> schema_types seo <> [])
  /\ schema_markup soup = Return (schema_types seo).
Proof.
  unfold _analyze_seo, bind.
  destruct (schema_markup soup) as [types|e]; [|discriminate].
  intros H. apply Return_inj in H. subst seo.
  cbn [title title_length meta_description meta_desc_length images total
       without_alt without_lazy_loading headers h1_text has_schema
       schema_types].
  split; [|split; [|split; [|split; [|split; [|split; [|split; [|split;
    [|split]]]]]]]].
  - destruct (title_tag soup) as [t|]; cbn [option_map];
      [apply (truthy_len (Some (strip t))) | apply (truthy_len None)].
  - apply truthy_len.
  - reflexivity.
  - apply count_if_bounds.
  - apply count_if_bounds.
  - reflexivity.
  - unfold take. rewrite length_map. apply firstn_le_length.
  - cbn [map dict_get String.eqb Ascii.eqb Bool.eqb].
    unfold take. rewrite length_map, length_firstn. lia.
  - destruct types; cbn [List.length]; split; intros H;
      try reflexivity; try discriminate; try congruence.
  - reflexivity.
Qed.

Lemma _analyze_seo_signals_witness :
  exists seo,
    _analyze_seo Sample.page = Return seo
    /\ (truthy (title seo) = true <-> 0 < title_length seo)
    /\ dict_get (headers seo) "h1" 0 = 1.
Proof.
  eexists. split; [reflexivity|].
  destruct (_analyze_seo_signals Sample.page _ eq_refl)
    as (H1 & _ & _ & _ & _ & H6 & _).
  split; [exact H1 | exact H6].
Defined.

Section Growth.













End Growth.



(* ------------------------------------------------------------------ *)
(** ** The outcome of one analysis *)
(* ------------------------------------------------------------------ *)

Section Outcome.

Variable env : Analyzer.Env.
Variable url : string.

Lemma _check_important_files_keeps result p :
  Analyzer.urlparse env url = Return p ->
  exists result',
    _check_important_files env url result = Return result'
    /\ Analyzer.url result' = Analyzer.url result
    /\ error result' = error result
    /\ seo_analysis result' = seo_analysis result
    /\ open_graph result' = open_graph result
    /\ score_breakdown result' = score_breakdown result
    /\ https (technical_seo result') = https (technical_seo result)
    /\ exists more, recommendations result' = recommendations result ++ more.
Proof.
  intros H. unfold _check_important_files. rewrite H. cbn [bind]. cbv zeta.
  cbn [technical_seo set_technical_seo robots_txt sitemap_xml
       set_robots_txt set_sitemap_xml truthy_bool].
  destruct (file_present env _); destruct (file_present env _);
    simpl; eexists; (split; [reflexivity|]); simpl;
    repeat (split; [reflexivity|]);
    first [ exists []; rewrite app_nil_r; reflexivity
          | eexists; rewrite <- ?app_assoc; reflexivity ].
Qed.

(** The statements after the SEO checks: they keep the URL and the error
    key, only append recommendations, and set the score and its breakdown
    at the very end. *)
Lemma after_checks_outcome response r1 seo :
  seo_analysis r1 = Some seo ->
  exists r2 out,
    after_checks env url response r1 = (r2, out)
    /\ Analyzer.url r2 = Analyzer.url r1
    /\ error r2 = error r1
    /\ (exists more, recommendations r2 = recommendations r1 ++ more)
    /\ match out with
       | Raise _ =>
           score_breakdown r2 = score_breakdown r1
       | Return _ =>
           startswith url "https://" = true
           /\ exists r4 s b,
                r2 = set_score_breakdown (set_seo_score r4 s) b
                /\ calculate_seo_score r4 = Return (s, b)
                /\ seo_analysis r4 = Some seo
                /\ https (technical_seo r4) = Some true
                /\ open_graph r4
                   = og_tags (BeautifulSoup env (r_text response))
       end.
Proof.
  intros Kseo.
  destruct (_analyze_technical_seo_cases url
              (BeautifulSoup env (r_text response)) response)
    as [[Hc (tech & Ht & _ & _ & Hhttps)] | [Hc Ht]].
  - apply andb_true_iff in Hc. destruct Hc as [_ Hurl].
    unfold after_checks, then_, call, assign, mutate, read.
    rewrite Ht. set (r3 := set_social_media _ _).
    destruct (Analyzer.urlparse env url) as [p|e] eqn:Hp.
    + destruct (_check_important_files_keeps r3 p Hp)
        as (r4 & E4 & U & Er & Se & Og & Sb & Hh & more & Hm).
      rewrite E4.
      assert (Hseo : seo_analysis r4 = Some seo) by (rewrite Se; exact Kseo).
      destruct (calculate_seo_score_range r4 seo Hseo) as (s & b & E & _).
      rewrite E.
      exists (set_score_breakdown (set_seo_score r4 s) b), (Return tt).
      split; [reflexivity|].
      split; [simpl; rewrite U; reflexivity|].
      split; [simpl; rewrite Er; reflexivity|].
      split; [exists more; simpl; rewrite Hm; reflexivity|].
      split; [exact Hurl|]. exists r4, s, b.
      split; [reflexivity|]. split; [exact E|]. split; [exact Hseo|].
      split; [rewrite Hh; exact Hhttps | rewrite Og; reflexivity].
    + unfold _check_important_files. rewrite Hp. cbn [bind].
      exists r3, (Raise e). split; [reflexivity|].
      repeat split. exists []. rewrite app_nil_r. reflexivity.
  - unfold after_checks, then_, call. rewrite Ht.
    exists r1, (Raise (name_error "result")). split; [reflexivity|].
    repeat split. exists []. rewrite app_nil_r. reflexivity.
Qed.

Lemma try_block_outcome :
  exists result out,
    try_block env url (initial_result env url) = (result, out)
    /\ Analyzer.url result = url
    /\ error result = None
    /\ match out with
       | Raise _ => score_breakdown result = None
       | Return _ =>
           startswith url "https://" = true
           /\ exists r4 seo s b,
                result = set_score_breakdown (set_seo_score r4 s) b
                /\ calculate_seo_score r4 = Return (s, b)
                /\ seo_analysis r4 = Some seo
                /\ https (technical_seo r4) = Some true
                /\ exists response,
                     requests_get env url 30 = Return response
                     /\ open_graph r4
                        = og_tags (BeautifulSoup env (r_text response))
       end
    /\ (forall response seo,
          requests_get env url 30 = Return response ->
          _analyze_seo (BeautifulSoup env (r_text response)) = Return seo ->
          exists more,
            recommendations result
            = recommendations (before_technical env url response seo) ++ more).
Proof.
  destruct (requests_get env url 30) as [response|e] eqn:Hf.
  - destruct (_analyze_seo (BeautifulSoup env (r_text response)))
      as [seo|e] eqn:Hs.
    + rewrite (try_block_after_checks env url response seo Hf Hs).
      destruct (before_technical_keeps env url response seo)
        as (Kseo & _ & Kbd & Kerr & _ & Kurl & _).
      destruct (after_checks_outcome response _ seo Kseo)
        as (r2 & out & E & Hu & He & Hr & Ho).
      exists r2, out. split; [exact E|].
      split; [congruence|]. split; [congruence|]. split.
      * destruct out as [[]|e]; [|congruence].
        destruct Ho as (Hurl & r4 & s & b & H1 & H2 & H3 & H4 & H5).
        split; [exact Hurl|]. exists r4, seo, s, b.
        repeat split; try assumption. exists response. split; [reflexivity|].
        exact H5.
      * intros response' seo' Hf' Hs'.
        apply Return_inj in Hf'. subst response'.
        rewrite Hs in Hs'. apply Return_inj in Hs'. subst seo'. exact Hr.
    + unfold try_block, then_, call, assign. rewrite Hf, Hs.
      eexists. exists (Raise e). split; [reflexivity|].
      repeat split. intros response' seo' Hf' Hs'.
      apply Return_inj in Hf'. subst response'. congruence.
  - unfold try_block, then_, call. rewrite Hf.
    eexists. exists (Raise e). split; [reflexivity|].
    repeat split. intros response seo Hf'. discriminate.
Qed.

Lemma before_technical_recommends_open_graph response seo :
  In "Add Open Graph tags for better social sharing"
     (recommendations (before_technical env url response seo)).
Proof.
  unfold before_technical.
  set (r0 := set_seo_analysis _ _).
  set (r := check_images seo _).
  assert (S : same_signals r0 r).
  { subst r.
    eapply same_signals_trans; [apply check_title_same|].
    eapply same_signals_trans; [apply check_meta_description_same|].
    eapply same_signals_trans; [apply check_headers_same|].
    apply check_images_same. }
  destruct S as (_ & _ & _ & _ & Sog & _).
  assert (Hog : open_graph r = []) by (rewrite Sog; reflexivity).
  clearbody r. unfold check_schema_and_open_graph; cbv zeta.
  destruct (negb (has_schema seo));
    cbn [open_graph append_recommendation]; rewrite Hog;
    cbn [nonempty negb recommendations append_recommendation];
    apply in_or_app; right; left; reflexivity.
Qed.

End Outcome.

Section CompletedScore.

Lemma technical_penalties_lowers_https result st :
  https (technical_seo result) = Some true ->
  lowers 20 st (technical_penalties result st).
Proof.
  intros H. unfold technical_penalties; cbv zeta. rewrite H.
  cbn [truthy_bool negb]. change 20 with (10 + (5 + 5)).
  eapply lowers_trans; [apply lowers_if; lia|].
  eapply lowers_trans; apply lowers_if; lia.
Qed.

Lemma not_https_label (n : Z) :
  (str n ++ " images without alt text")%string <> "Not using HTTPS".
Proof.
  intros H. apply (f_equal last_char) in H.
  rewrite last_char_app in H by discriminate. discriminate H.
Qed.

(** On a result fetched over HTTPS the score is at least 25 and the
    breakdown has no HTTPS row. *)
Lemma calculate_seo_score_https result seo s b :
  seo_analysis result = Some seo ->
  https (technical_seo result) = Some true ->
  calculate_seo_score result = Return (s, b) ->
  25 <= s <= 100 /\ forall d, ~ In ("Not using HTTPS", d) b.
Proof.
  intros Hseo Hhttps E.
  rewrite (calculate_seo_score_unfold _ _ Hseo) in E.
  apply Return_inj in E. injection E as <- <-. split.
  - assert (L : lowers 75 {| score := 100; penalties := [] |}
                       (after_penalties result seo)).
    { unfold after_penalties.
      change 75 with (15 + (10 + (10 + (10 + (20 + 10))))).
      eapply lowers_trans; [apply title_penalties_lowers|].
      eapply lowers_trans; [apply meta_description_penalties_lowers|].
      eapply lowers_trans; [apply h1_penalties_lowers|].
      eapply lowers_trans; [apply image_penalties_lowers|].
      eapply lowers_trans;
        [apply technical_penalties_lowers_https; exact Hhttps|].
      apply performance_penalties_lowers. }
    destruct L as (d & Hd & Hs & _). cbn [score] in Hs.
    unfold schema_bonus. destruct (has_schema seo); cbn [score]; lia.
  - rewrite breakdown_is_rubric. unfold Rubric.deltas; cbv zeta.
    rewrite Hhttps. cbn [truthy_bool negb Rubric.when app].
    intros d Hin.
    unfold Rubric.title_deltas, Rubric.meta_deltas, Rubric.h1_deltas,
      Rubric.image_deltas, Rubric.when in Hin; cbv zeta in Hin.
    repeat (apply in_app_or in Hin; destruct Hin as [Hin | Hin]);
      repeat match type of Hin with
             | context [if ?c then _ else _] => destruct c
             end;
      cbn [In] in Hin;
      repeat match type of Hin with
             | _ \/ _ => destruct Hin as [Hin | Hin]
             | False => contradiction
             end;
      try discriminate Hin;
      injection Hin as Hl _; exact (not_https_label _ Hl).
Qed.

End CompletedScore.


(** X14.  Whenever the page is fetched and its signals are read, the
    result recommends adding Open Graph tags, whatever tags the page has:
    the check runs before the tags are extracted. *)
Theorem analyze_website_always_recommends_open_graph
        (env : Analyzer.Env) (url : string)
        (response : Response) (seo : SeoAnalysis) :
  requests_get env url 30 = Return response ->
  _analyze_seo (BeautifulSoup env (r_text response)) = Return seo ->
  exists result,
    analyze_website env url = Return result
    /\ In "Add Open Graph tags for better social sharing"
          (recommendations result)
    /\ (error result = None ->
        open_graph result = og_tags (BeautifulSoup env (r_text response))).
Proof.
  intros Hf Hs.
  destruct (try_block_outcome env url)
    as (partial & out & E & _ & Herr & Ho & Hr).
  destruct (Hr response seo Hf Hs) as (more & Hmore).
  assert (Hin : In "Add Open Graph tags for better social sharing"
                   (recommendations partial)).
  { rewrite Hmore. apply in_or_app. left.
    apply before_technical_recommends_open_graph. }
  unfold analyze_website. rewrite E.
  destruct out as [[]|e].
  - exists partial. split; [reflexivity|]. split; [exact Hin|].
    intros _. destruct Ho as (_ & r4 & seo' & s & b & -> & _ & _ & _
                               & response' & Hf' & Hog).
    rewrite Hf in Hf'. apply Return_inj in Hf'. subst response'.
    exact Hog.
  - destruct (isinstance_Timeout e); [|destruct (isinstance_ConnectionError e)];
      (eexists; split; [reflexivity|]; split; [exact Hin|]);
      intros H; discriminate H.
Qed.

Lemma analyze_website_always_recommends_open_graph_witness :
  exists result,
    analyze_website Sample.env "https://acme.com" = Return result
    /\ In "Add Open Graph tags for better social sharing"
          (recommendations result).
Proof.
  destruct (analyze_website_always_recommends_open_graph
              Sample.env "https://acme.com"
              (Sample.response "https://acme.com" "full" 200)
              _ eq_refl eq_refl) as (result & H1 & H2 & _).
  exists result. split; [exact H1 | exact H2].
Defined.

Lemma analyze_website_dichotomy (env : Analyzer.Env) (url : string) :
  exists result,
    analyze_website env url = Return result
    /\ Analyzer.url result = url
    /\ ((error result = None
         /\ startswith url "https://" = true
         /\ exists s b,
              seo_score result = Some s /\ 25 <= s <= 100
              /\ score_breakdown result = Some b
              /\ forall d, ~ In ("Not using HTTPS", d) b)
        \/ ((exists m, error result = Some m)
            /\ seo_score result = Some 0
            /\ score_breakdown result = None)).
Proof.
  destruct (try_block_outcome env url)
    as (partial & out & E & Hurl & Herr & Ho & _).
  unfold analyze_website. rewrite E.
  destruct out as [[]|e].
  - exists partial. split; [reflexivity|]. split; [exact Hurl|]. left.
    split; [exact Herr|].
    destruct Ho as (Hs & r4 & seo & s & b & -> & Hc & Hseo & Hhttps & _).
    split; [exact Hs|]. exists s, b.
    destruct (calculate_seo_score_https r4 seo s b Hseo Hhttps Hc)
      as [Hrange Hrow].
    repeat split; try lia. exact Hrow.
  - destruct (isinstance_Timeout e); [|destruct (isinstance_ConnectionError e)];
      (eexists; split; [reflexivity|]; split; [exact Hurl|]); right;
      (split; [eexists; reflexivity|]); split; [reflexivity | exact Ho
                                               |reflexivity | exact Ho
                                               |reflexivity | exact Ho].
Qed.

(** X15.  Every analysis returns a result for the URL it was given.
    Either it has no error, the URL starts with [https://], the score is
    between 25 and 100 and the breakdown has no HTTPS row; or it has an
    error, score 0 and no breakdown. *)
Theorem analyze_website_outcome (env : Analyzer.Env) (url : string) :
  exists result,
    analyze_website env url = Return result
    /\ Analyzer.url result = url
    /\ ((error result = None
         /\ startswith url "https://" = true
         /\ exists s b,
              seo_score result = Some s /\ 25 <= s <= 100
              /\ score_breakdown result = Some b
              /\ forall d, ~ In ("Not using HTTPS", d) b)
        \/ ((exists m, error result = Some m)
            /\ seo_score result = Some 0
            /\ score_breakdown result = None)).
Proof. apply analyze_website_dichotomy. Qed.

(** X20.  The colour a result's score is shown in is the red of the lowest
    band exactly when the analysis failed: a completed analysis scores at
    least 25, above the band that ends at 20. *)
Theorem score_color_red_iff_failed (env : Analyzer.Env) (url : string) :
  exists result,
    analyze_website env url = Return result
    /\ (Utils.calculate_seo_score_color (AI.get_seo_score result) = "#E74C3C"
        <-> exists m, error result = Some m).
Proof.
  destruct (analyze_website_dichotomy env url)
    as (result & E & _ & [(Herr & _ & s & b & Hs & Hrange & _)
                         | ((m & Herr) & Hs & _)]).
  - exists result. split; [exact E|].
    unfold AI.get_seo_score, Utils.calculate_seo_score_color. rewrite Hs.
    split.
    + destruct (s <? 20) eqn:H20; [apply Z.ltb_lt in H20; lia|].
      destruct (s <? 40); [discriminate|].
      destruct (s <? 60); [discriminate|].
      destruct (s <? 80); discriminate.
    + intros (m & Hm). congruence.
  - exists result. split; [exact E|].
    unfold AI.get_seo_score. rewrite Hs.
    split; [intros _; exists m; exact Herr | reflexivity].
Qed.


(* ------------------------------------------------------------------ *)
(** ** The pipeline: what is dispatched and how results are marked *)
(* ------------------------------------------------------------------ *)

Section Dispatch.

Lemma add_unique_spec comps :
  forall all_sites,
    exists added,
      App.add_unique all_sites comps = all_sites ++ added
      /\ NoDup added
      /\ (forall c, In c added <-> In c comps /\ ~ In c all_sites).
Proof.
  unfold App.add_unique.
  induction comps as [|comp rest IH]; intros all_sites; cbn [fold_left].
  - exists []. rewrite app_nil_r. split; [reflexivity|].
    split; [constructor|]. intros c. simpl. tauto.
  - destruct (mem comp all_sites) eqn:Hm; cbn [negb].
    + destruct (IH all_sites) as (added & E & Hnd & Hin).
      exists added. split; [exact E|]. split; [exact Hnd|].
      intros c. rewrite Hin. apply mem_In in Hm. simpl.
      split; [tauto|]. intros [[<- | H] Hn]; tauto.
    + destruct (IH (all_sites ++ [comp])) as (added & E & Hnd & Hin).
      apply mem_not_In in Hm.
      exists (comp :: added). split; [|split].
      * rewrite E, <- app_assoc. reflexivity.
      * constructor; [|exact Hnd]. intros H. apply Hin in H.
        destruct H as [_ H]. apply H, in_or_app. right. left. reflexivity.
      * intros c. simpl. rewrite Hin, in_app_iff. simpl.
        destruct (string_dec comp c) as [<- | Hne]; [tauto|].
        split; [intros [H | H]; tauto|].
        intros [[H | H] Hn]; [contradiction|]. right. tauto.
Qed.

Lemma NoDup_app_disjoint {A} (l1 l2 : list A) :
  NoDup l1 -> NoDup l2 -> (forall x, In x l1 -> ~ In x l2) ->
  NoDup (l1 ++ l2).
Proof.
  intros H1 H2 Hd. induction H1 as [|x l1 Hx H1 IH]; [exact H2|].
  cbn [app]. constructor.
  - rewrite in_app_iff. intros [H | H]; [tauto|].
    apply (Hd x); [left; reflexivity | exact H].
  - apply IH. intros y Hy. apply Hd. right. exact Hy.
Qed.

Lemma sites_to_analyze_spec competitor_map :
  forall websites,
    exists added,
      App.sites_to_analyze websites competitor_map = websites ++ added
      /\ NoDup added
      /\ (forall c, In c added <->
                    ~ In c websites
                    /\ exists site comps,
                         In (site, comps) competitor_map /\ In c comps).
Proof.
  unfold App.sites_to_analyze.
  induction competitor_map as [|[site comps] rest IH]; intros websites;
    cbn [fold_left snd].
  - exists []. rewrite app_nil_r. split; [reflexivity|].
    split; [constructor|]. intros c. simpl.
    split; [tauto|]. intros [_ (s & cs & [] & _)].
  - destruct (add_unique_spec comps websites) as (a1 & E1 & N1 & I1).
    rewrite E1.
    destruct (IH (websites ++ a1)) as (a2 & E2 & N2 & I2).
    exists (a1 ++ a2). split; [|split].
    + rewrite E2, <- app_assoc. reflexivity.
    + apply NoDup_app_disjoint; [exact N1 | exact N2 |].
      intros x Hx Hx2. apply I2 in Hx2. destruct Hx2 as [Hn _].
      apply Hn, in_or_app. right. exact Hx.
    + intros c. rewrite in_app_iff, I1, I2, in_app_iff, I1. split.
      * intros [[Hc Hn] | [Hn (s & cs & Hin & Hc)]].
        -- split; [exact Hn|]. exists site, comps.
           split; [left; reflexivity | exact Hc].
        -- split; [tauto|]. exists s, cs. split; [right; exact Hin | exact Hc].
      * intros [Hn (s & cs & [Heq | Hin] & Hc)].
        -- injection Heq as <- <-. left. tauto.
        -- destruct (in_dec string_dec c comps) as [Hc' | Hc'];
             [left; tauto|].
           right. split; [tauto|]. exists s, cs. tauto.
Qed.




Variable env : App.Env.





End Dispatch.

(** X17.  The sites handed to the analysis are the seeds, in their order
    and as often as they were entered, followed by the competitors that
    are not seeds, each once, whatever the number of seeds listing it. *)
Theorem sites_to_analyze_seeds_then_competitors
        (websites : list string) (competitor_map : list (string * list string)) :
  exists added,
    App.sites_to_analyze websites competitor_map = websites ++ added
    /\ NoDup added
    /\ (forall c, In c added <->
                  ~ In c websites
                  /\ exists site comps,
                       In (site, comps) competitor_map /\ In c comps)
    /\ (NoDup websites ->
        NoDup (App.sites_to_analyze websites competitor_map)).
Proof.
  destruct (sites_to_analyze_spec competitor_map websites)
    as (added & E & Hnd & Hin).
  exists added. split; [exact E|]. split; [exact Hnd|]. split; [exact Hin|].
  intros Hw. rewrite E. apply NoDup_app_disjoint; [exact Hw | exact Hnd |].
  intros x Hx Ha. apply Hin in Ha. tauto.
Qed.


